(** * TOGL: the topological aggregation layer

    A shallow embedding of the two [TopologyLayer] classes of the
    repository, [topognn/topolayer.py] and [topognn/models.py], of the
    tensor operations they are written with, and of the models of
    [topognn/models.py] that run the layer ([LargerGCNModel],
    [LargerTopoGNNModel], [PointWiseMLP]).

    Modelling conventions.
    - Scalars are an abstract type [T] with the operations the layer applies
      to them (class [Scalar]); no algebraic law is assumed, so every theorem
      holds for any interpretation of the arithmetic, and the instance on [Z]
      is used to run the code on concrete inputs.
    - A two-dimensional tensor is its column count and its list of rows: the
      column count is kept apart because a tensor with no row still has one
      (the sum over no row is a row of zeros of that width).
    - Python exceptions are values of [exn]; a computation that may raise
      returns a [res].
    - The batch object that [remove_duplicate_edges] clones lives in a heap:
      the object holds a reference to its [__slices__] dictionary. *)

From Stdlib Require Import ZArith List Bool Lia String.
From stdpp Require Import base gmap strings list fin_maps sorting.

Local Open Scope Z_scope.

(** ** Exceptions and the error monad *)

Inductive exn : Type :=
| IndexError | RuntimeError | TypeError | UnboundLocalError
| AttributeError | KeyError.

Inductive res (A : Type) : Type :=
| Ok (a : A)
| Err (e : exn).
Arguments Ok {A} a.
Arguments Err {A} e.

#[global] Instance res_ret : MRet res := @Ok.
#[global] Instance res_bind : MBind res := λ A B f m,
  match m with Ok a => f a | Err e => Err e end.

Definition is_ok {A} (m : res A) : Prop := ∃ a, m = Ok a.
Definition raises {A} (m : res A) : Prop := ∃ e, m = Err e.

Fixpoint res_mapM {A B} (f : A → res B) (l : list A) : res (list B) :=
  match l with
  | [] => Ok []
  | a :: l' => b ← f a; bs ← res_mapM f l'; Ok (b :: bs)
  end.

Definition of_option {A} (e : exn) (o : option A) : res A :=
  match o with Some a => Ok a | None => Err e end.

(** ** Scalars *)

Class Scalar (T : Type) : Type := {
  s_zero : T;
  s_add : T → T → T;
  s_mul : T → T → T;
  s_max : T → T → T;
  s_tanh : T → T;
  s_nonzero : T → bool;   (* [t != 0] *)
  s_leb : T → T → bool    (* [a <= b] *)
}.

(** Integers as scalars, to evaluate the code. The saturating [tanh] is the
    clamp to [-1, 1]. *)
#[global] Instance Z_scalar : Scalar Z := {|
  s_zero := 0;
  s_add := Z.add;
  s_mul := Z.mul;
  s_max := Z.max;
  s_tanh := Z.sgn;
  s_nonzero := λ z, negb (z =? 0);
  s_leb := Z.leb
|}.

(** ** Python indexing *)

(** [a[i]] on a sequence of length [n]: negative indices count from the end. *)
Definition py_index (n : nat) (i : Z) : res nat :=
  if (0 <=? i) && (i <? Z.of_nat n) then Ok (Z.to_nat i)
  else if (- Z.of_nat n <=? i) && (i <? 0) then Ok (Z.to_nat (i + Z.of_nat n))
  else Err IndexError.

(** A bound of a slice [a[lo:hi]]: negative bounds count from the end, and
    the result is clamped into [0, n]. *)
Definition py_bound (n : nat) (i : Z) : nat :=
  let j := if i <? 0 then i + Z.of_nat n else i in
  Z.to_nat (Z.min (Z.max j 0) (Z.of_nat n)).

Definition py_slice {A} (l : list A) (lo hi : Z) : list A :=
  let a := py_bound (length l) lo in
  let b := py_bound (length l) hi in
  take (b - a) (drop a l).

(** [l[i]] on a Python list or 1-d tensor of integers. *)
Definition py_getitem {A} (l : list A) (i : Z) : res A :=
  k ← py_index (length l) i; of_option IndexError (l !! k).

(** [a[mask]] with a boolean mask: the mask must have the length of [a]. *)
Fixpoint select {A} (l : list A) (mask : list bool) : list A :=
  match l, mask with
  | a :: l', b :: mask' => if b then a :: select l' mask' else select l' mask'
  | _, _ => []
  end.

Definition mask_select {A} (l : list A) (mask : list bool) : res (list A) :=
  if (length l =? length mask)%nat then Ok (select l mask) else Err IndexError.

(** ** Tensors *)

Section Tensors.
Context {T : Type} `{Scalar T}.

Record Tensor2 : Type := T2 { t2_cols : nat; t2_rows : list (list T) }.

Definition t2_nrows (t : Tensor2) : nat := length (t2_rows t).

Definition t2_wf (t : Tensor2) : Prop :=
  Forall (λ r, length r = t2_cols t) (t2_rows t).

Definition t2_map (f : T → T) (t : Tensor2) : Tensor2 :=
  T2 (t2_cols t) (map (map f) (t2_rows t)).

(** [F.relu]: the maximum with zero. *)
Definition relu (t : Tensor2) : Tensor2 := t2_map (s_max s_zero) t.

(** [t[idx]] with [idx] a 1-d integer tensor: the rows gathered. *)
Definition index_rows (t : Tensor2) (idx : list Z) : res Tensor2 :=
  rows ← res_mapM (py_getitem (t2_rows t)) idx;
  Ok (T2 (t2_cols t) rows).

(** [torch.max(torch.stack((a, b)), axis=0)]: both of one shape. *)
Definition stack_max (a b : Tensor2) : res Tensor2 :=
  if (t2_cols a =? t2_cols b)%nat && (t2_nrows a =? t2_nrows b)%nat
  then Ok (T2 (t2_cols a) (zip_with (zip_with s_max) (t2_rows a) (t2_rows b)))
  else Err RuntimeError.

(** [t.transpose(1, 0)] *)
Definition transpose (t : Tensor2) : Tensor2 :=
  T2 (t2_nrows t)
     (map (λ j, map (λ r, default s_zero (r !! j)) (t2_rows t))
          (seq 0 (t2_cols t))).

(** [torch.cat(ts, 1)]: the rows side by side; all of one row count, and at
    least one tensor. *)
Definition cat2 (a b : Tensor2) : res Tensor2 :=
  if (t2_nrows a =? t2_nrows b)%nat
  then Ok (T2 (t2_cols a + t2_cols b) (zip_with app (t2_rows a) (t2_rows b)))
  else Err RuntimeError.

Fixpoint cat_from (acc : Tensor2) (ts : list Tensor2) : res Tensor2 :=
  match ts with
  | [] => Ok acc
  | t :: ts' => acc' ← cat2 acc t; cat_from acc' ts'
  end.

Definition cat_dim1 (ts : list Tensor2) : res Tensor2 :=
  match ts with
  | [] => Err RuntimeError
  | t :: ts' => cat_from t ts'
  end.

(** Row-wise sum, [t.sum(axis=0)]: a row of [t2_cols t] entries. *)
Definition row_add (a b : list T) : list T := zip_with s_add a b.

Definition sum_rows (cols : nat) (rows : list (list T)) : list T :=
  fold_left row_add rows (repeat s_zero cols).

(** [torch.stack(rows)] of rows of width [cols]: at least one row. *)
Definition stack_rows (cols : nat) (rows : list (list T)) : res Tensor2 :=
  match rows with
  | [] => Err RuntimeError
  | _ => Ok (T2 cols rows)
  end.

(** Broadcasting of one dimension: equal sizes, or one of them is 1. *)
Definition bdim (a b : nat) : option nat :=
  if (a =? b)%nat then Some a
  else if (a =? 1)%nat then Some b
  else if (b =? 1)%nat then Some a
  else None.

Definition expand {A} (n : nat) (l : list A) : list A :=
  if (length l =? n)%nat then l
  else match l with
       | [a] => repeat a n
       | _ => l
       end.

(** [a + b] on two 2-d tensors, with broadcasting. *)
Definition t2_add (a b : Tensor2) : res Tensor2 :=
  match bdim (t2_nrows a) (t2_nrows b), bdim (t2_cols a) (t2_cols b) with
  | Some n, Some c =>
      Ok (T2 c (zip_with (λ ra rb, zip_with s_add (expand c ra) (expand c rb))
                         (expand n (t2_rows a)) (expand n (t2_rows b))))
  | _, _ => Err RuntimeError
  end.

(** A tensor of rank two or three: [t[None]] has one more dimension. *)
Inductive anytensor : Type :=
| Rank2 (t : Tensor2)
| Rank3 (ts : list Tensor2).

(** [a += b]: the broadcast shape must be the shape of [a]. *)
Definition t2_iadd (a : Tensor2) (b : anytensor) : res Tensor2 :=
  match b with
  | Rank3 _ => Err RuntimeError
  | Rank2 b =>
      match bdim (t2_nrows a) (t2_nrows b), bdim (t2_cols a) (t2_cols b) with
      | Some n, Some c =>
          if (n =? t2_nrows a)%nat && (c =? t2_cols a)%nat
          then t2_add a b else Err RuntimeError
      | _, _ => Err RuntimeError
      end
  end.

(** Persistence pairs, a tensor of shape [F, n, 2]: one list of
    (birth, death) pairs per filtration. *)
Record Pairs : Type := MkPairs { p_n : nat; p_chan : list (list (T * T)) }.

(** [(p != 0).any(2).any(0)] *)
Definition pair_nonzero (p : T * T) : bool :=
  s_nonzero (fst p) || s_nonzero (snd p).

Definition persistence_mask (p : Pairs) : list bool :=
  fold_left (zip_with orb) (map (map pair_nonzero) (p_chan p))
            (repeat false (p_n p)).

End Tensors.

Arguments Tensor2 T : clear implicits.
Arguments Pairs T : clear implicits.
Arguments anytensor T : clear implicits.

(** ** Network modules *)

Section Modules.
Context {T : Type} `{Scalar T}.

(** [torch.nn.Linear(in_features, out_features)]; the weight has shape
    [out_features, in_features], so it is a function of the two indices. *)
Record Linear : Type := MkLinear {
  in_features : nat;
  out_features : nat;
  weight : nat → nat → T;
  bias : nat → T
}.

Definition dot (w : nat → T) (row : list T) : T :=
  fold_left s_add (imap (λ j x, s_mul x (w j)) row) s_zero.

Definition linear_forward (l : Linear) (x : Tensor2 T) : res (Tensor2 T) :=
  if (t2_cols x =? in_features l)%nat
  then Ok (T2 (out_features l)
              (map (λ row, map (λ i, s_add (dot (weight l i) row) (bias l i))
                               (seq 0 (out_features l)))
                   (t2_rows x)))
  else Err RuntimeError.

(** [nn.BatchNorm1d(num_features)]: every entry is normalised by a map that
    depends on its column and on the values of that column in the batch. *)
Record BatchNorm : Type := MkBatchNorm {
  num_features : nat;
  bn_elem : nat → list T → T → T
}.

Definition column (t : Tensor2 T) (j : nat) : list T :=
  map (λ r, default s_zero (r !! j)) (t2_rows t).

Definition bn_forward (b : BatchNorm) (x : Tensor2 T) : res (Tensor2 T) :=
  if (t2_cols x =? num_features b)%nat
  then Ok (T2 (t2_cols x)
              (map (imap (λ j v, bn_elem b j (column x j) v)) (t2_rows x)))
  else Err RuntimeError.

(** One filtration network:
    [Sequential(Linear, ReLU, Linear, final_filtration_activation)]. *)
Record FiltNet : Type := MkFiltNet {
  f_lin1 : Linear;
  f_lin2 : Linear;
  f_tanh : bool
}.

Definition filtnet_forward (n : FiltNet) (x : Tensor2 T) : res (Tensor2 T) :=
  h ← linear_forward (f_lin1 n) x;
  o ← linear_forward (f_lin2 n) (relu h);
  Ok (if f_tanh n then t2_map s_tanh o else o).

Inductive FiltMods : Type :=
| SharedFilt (n : FiltNet)          (* share_filtration_parameters *)
| ListFilt (ns : list FiltNet).     (* one network per filtration *)

(** A coordinate function module of [coord_transforms]: from the pairs of
    one filtration, shape [N, 2], to their features, shape [N, output_dim]. *)
Definition CoordMod : Type := list (T * T) → res (Tensor2 T).

(** The attributes of a [TopologyLayer] that its methods read. *)
Record Layer : Type := MkLayer {
  dim1 : bool;
  residual_and_bn : bool;
  share_filtration_parameters : bool;
  fake : bool;
  swap_bn_order : bool;
  dist_dim1 : bool;
  coord_fun_modules : list CoordMod;
  coord_fun_modules1 : option (list CoordMod);
  filtration_modules : FiltMods;
  bn : option BatchNorm;
  out1 : option Linear;
  out : Linear
}.

(** The learnable parameters, by the module they belong to. *)
Inductive pname : Type :=
| PFilt1 (k : option nat)
| PFilt2 (k : option nat)
| POut
| POut1.

Record Params : Type := MkParams {
  p_weight : pname → nat → nat → T;
  p_bias : pname → nat → T;
  (* [getattr(coord_transforms, key)(output_dim=n)], for dim0 and dim1 *)
  p_coord : bool → string → nat → CoordMod;
  p_bn : nat → list T → T → T
}.

Definition mk_linear (p : Params) (n : pname) (i o : nat) : Linear :=
  MkLinear i o (p_weight p n) (p_bias p n).

Definition mk_filtnet (p : Params) (k : option nat) (i h o : nat)
    (tanh_filtrations : bool) : FiltNet :=
  MkFiltNet (mk_linear p (PFilt1 k) i h) (mk_linear p (PFilt2 k) h o)
            tanh_filtrations.

(** The four families, in the order of the dictionaries of [__init__]. *)
Definition coord_keys : list string :=
  ["Triangle_transform"; "Gaussian_transform"; "Line_transform";
   "RationalHat_transform"]%string.

(** *** Methods shared by the two classes (same text in both files) *)

(** [compute_coord_fun] *)
Definition compute_coord_fun (l : Layer) (persistence : list (T * T))
    (dim1 : bool) : res (Tensor2 T) :=
  if dim1 then
    mods ← of_option AttributeError (coord_fun_modules1 l);
    acts ← res_mapM (λ md, md persistence) mods;
    cat_dim1 acts
  else
    acts ← res_mapM (λ md, md persistence) (coord_fun_modules l);
    cat_dim1 acts.

(** [compute_coord_activations] *)
Definition compute_coord_activations (l : Layer) (persistences : Pairs T)
    (dim1 : bool) : res (Tensor2 T) :=
  coord_activations ←
    res_mapM (λ persistence, compute_coord_fun l persistence dim1)
             (p_chan persistences);
  cat_dim1 coord_activations.

(** The filtration of [compute_persistence]: [filtered_v_]. *)
Definition compute_filtration (l : Layer) (x : Tensor2 T) : res (Tensor2 T) :=
  match filtration_modules l with
  | SharedFilt n => filtnet_forward n x
  | ListFilt ns => vs ← res_mapM (λ n, filtnet_forward n x) ns; cat_dim1 vs
  end.

(** The edge index, a tensor of shape [2, E]: its two rows. *)
Record EdgeIndex : Type := MkEdgeIndex { ei_src : list Z; ei_dst : list Z }.

(** [edge_index.transpose(1, 0)]: shape [E, 2]. *)
Definition edge_list (ei : EdgeIndex) : list (Z * Z) :=
  zip (ei_src ei) (ei_dst ei).

(** The edge filtration of [compute_persistence]: [filtered_e_]. *)
Definition compute_edge_filtration (filtered_v_ : Tensor2 T) (edge_index : EdgeIndex)
    : res (Tensor2 T) :=
  a ← index_rows filtered_v_ (ei_src edge_index);
  b ← index_rows filtered_v_ (ei_dst edge_index);
  stack_max a b.

(** A batch as the layer reads it: the edge index, the vertex to graph
    membership and the [__slices__] dictionary. *)
Record Batch : Type := MkBatch {
  b_edge_index : EdgeIndex;
  b_batch : list Z;
  b_slices : gmap string (list Z)
}.

Definition slices_of (b : Batch) (key : string) : res (list Z) :=
  of_option KeyError (b_slices b !! key).

(** What [compute_persistence] hands to the persistence computation. *)
Record EngineArgs : Type := MkEngineArgs {
  a_filtered_v : Tensor2 T;        (* [F, N] *)
  a_filtered_e : Tensor2 T;        (* [F, E] *)
  a_edge_index : list (Z * Z);     (* [E, 2] *)
  a_vertex_slices : list Z;
  a_edge_slices : list Z
}.

(** The collaborators that are not part of the two files:
    [compute_persistence_homology_batched_mt] of torch_persistent_homology,
    [fake_persistence_computation] of [topognn.layers] and
    [remove_duplicate_edges] of [topognn.data_utils]. *)
Record Extern : Type := MkExtern {
  compute_persistence_homology_batched_mt : EngineArgs → res (Pairs T * Pairs T);
  fake_persistence_computation :
    Tensor2 T → EdgeIndex → list Z → list Z → list Z →
    res (Pairs T * Pairs T * option (Tensor2 T));
  data_utils_remove_duplicate_edges : Batch → res Batch
}.

(** What a tensor is indexed with in [self.out1(graph_activations1)[batch]]:
    [None], or a batch object. *)
Inductive pyindex : Type :=
| IdxNone
| IdxBatch (b : Batch).

Definition tensor_getitem (t : Tensor2 T) (i : pyindex) : res (anytensor T) :=
  match i with
  | IdxNone => Ok (Rank3 [t])       (* a new leading dimension *)
  | IdxBatch _ => Err TypeError     (* an object is no index *)
  end.

End Modules.

Arguments Linear T : clear implicits.
Arguments BatchNorm T : clear implicits.
Arguments FiltNet T : clear implicits.
Arguments FiltMods T : clear implicits.
Arguments CoordMod T : clear implicits.
Arguments Layer T : clear implicits.
Arguments Params T : clear implicits.
Arguments EngineArgs T : clear implicits.
Arguments Extern T : clear implicits.

(** ** Constructor arguments and the loop of [collapse_dim1] *)

(** The arguments of [TopologyLayer.__init__]. The type of [num_coord_funs]
    differs between the two files: a number in [topolayer.py], a dictionary
    from family to number in [models.py]. *)
Record Args (C : Type) : Type := MkArgs {
  arg_features_in : nat;
  arg_features_out : nat;
  arg_num_filtrations : nat;
  arg_num_coord_funs : C;
  arg_filtration_hidden : nat;
  arg_num_coord_funs1 : nat;
  arg_dim1 : bool;
  arg_residual_and_bn : bool;
  arg_share_filtration_parameters : bool;
  arg_fake : bool;
  arg_tanh_filtrations : bool;
  arg_swap_bn_order : bool;
  arg_dist_dim1 : bool
}.
Arguments MkArgs {C}.
Arguments arg_features_in {C}.
Arguments arg_features_out {C}.
Arguments arg_num_filtrations {C}.
Arguments arg_num_coord_funs {C}.
Arguments arg_filtration_hidden {C}.
Arguments arg_num_coord_funs1 {C}.
Arguments arg_dim1 {C}.
Arguments arg_residual_and_bn {C}.
Arguments arg_share_filtration_parameters {C}.
Arguments arg_fake {C}.
Arguments arg_tanh_filtrations {C}.
Arguments arg_swap_bn_order {C}.
Arguments arg_dist_dim1 {C}.

Definition sum_nat (l : list nat) : nat := fold_left Nat.add l 0%nat.

Section Shared.
Context {T : Type} `{Scalar T}.

(** The body of the loop of [collapse_dim1], the same in both files:
    the masked rows of [activations[slices[el]:slices[el+1]]], summed. *)
Definition collapse_el (activations : Tensor2 T) (mask : list bool)
    (slices : list Z) (el : nat) : res (list T) :=
  lo ← py_getitem slices (Z.of_nat el);
  hi ← py_getitem slices (Z.of_nat el + 1);
  let activations_el_ := py_slice (t2_rows activations) lo hi in
  let mask_el := py_slice mask lo hi in
  selected ← mask_select activations_el_ mask_el;
  Ok (sum_rows (t2_cols activations) selected).

(** The part of [__init__] after the coordinate functions: the filtration
    networks, the normalisation and the output projections. *)
Definition init_modules {C} (p : Params T) (a : Args C)
    (total_num_coord_funs : nat) (coord_fun_modules : list (CoordMod T))
    : Layer T :=
  let coord_fun_modules1 :=
    if arg_dim1 a
    then Some (map (λ key, p_coord p true key (arg_num_coord_funs1 a)) coord_keys)
    else None in
  let filtration_modules :=
    if arg_share_filtration_parameters a
    then SharedFilt (mk_filtnet p None (arg_features_in a)
                       (arg_filtration_hidden a) (arg_num_filtrations a)
                       (arg_tanh_filtrations a))
    else ListFilt (map (λ k, mk_filtnet p (Some k) (arg_features_in a)
                               (arg_filtration_hidden a) 1
                               (arg_tanh_filtrations a))
                       (seq 0 (arg_num_filtrations a))) in
  let topo := (arg_num_filtrations a * total_num_coord_funs)%nat in
  if arg_residual_and_bn a then
    let in_out_dim := topo in
    let features_out := arg_features_in a in
    MkLayer (arg_dim1 a) (arg_residual_and_bn a)
      (arg_share_filtration_parameters a) (arg_fake a)
      (arg_swap_bn_order a) (arg_dist_dim1 a)
      coord_fun_modules coord_fun_modules1 filtration_modules
      (Some (MkBatchNorm features_out (p_bn p)))
      (if arg_dist_dim1 a && arg_dim1 a
       then Some (mk_linear p POut1 topo features_out) else None)
      (mk_linear p POut in_out_dim features_out)
  else
    let in_out_dim :=
      if arg_dist_dim1 a then (arg_features_in a + 2 * topo)%nat
      else (arg_features_in a + topo)%nat in
    MkLayer (arg_dim1 a) (arg_residual_and_bn a)
      (arg_share_filtration_parameters a) (arg_fake a)
      (arg_swap_bn_order a) (arg_dist_dim1 a)
      coord_fun_modules coord_fun_modules1 filtration_modules
      None None
      (mk_linear p POut in_out_dim (arg_features_out a)).

End Shared.

(** ** Integer tensor primitives of [remove_duplicate_edges] *)

(** [torch.arange(n)] *)
Definition arange (n : nat) : list nat := seq 0 n.

(** [torch.repeat_interleave(values, repeats)]: one repeat count per value,
    none of them negative. *)
Definition repeat_interleave (values : list nat) (repeats : list Z)
    : res (list nat) :=
  if (length values =? length repeats)%nat && forallb (λ r, 0 <=? r) repeats
  then Ok (concat (zip_with (λ v r, repeat v (Z.to_nat r)) values repeats))
  else Err RuntimeError.

(** [torch_scatter.scatter(src, index, reduce="sum")] on 1-d tensors and
    without [dim_size]: the index is expanded to the size of [src], the
    output has [max(index) + 1] entries (none for an empty index), and
    [src[i]] is added at position [index[i]]. *)
Definition scatter_sum (src : list Z) (index : list nat) : res (list Z) :=
  index ← (if (length index =? length src)%nat then Ok index
           else match index with
                | [i] => Ok (repeat i (length src))
                | _ => Err RuntimeError
                end);
  let size := match index with [] => 0%nat | _ => S (max_list index) end in
  Ok (fold_left (λ out (ix : nat * Z), alter (Z.add (snd ix)) (fst ix) out)
                (zip index src) (repeat 0 size)).

(** [torch.cumsum(t, 0)] *)
Fixpoint cumsum_from (acc : Z) (l : list Z) : list Z :=
  match l with
  | [] => []
  | z :: l' => (acc + z) :: cumsum_from (acc + z) l'
  end.

Definition cumsum (l : list Z) : list Z := cumsum_from 0 l.

(** [correct_idx.long()] *)
Definition long_of_bool (b : bool) : Z := if b then 1 else 0.

(** ** [topognn/topolayer.py] *)

Module Topolayer.
Section Methods.
Context {T : Type} `{Scalar T}.
Variable ext : Extern T.

(** [__init__]: [num_coord_funs] is a number, the same for every family. *)
Definition init (p : Params T) (a : Args nat) : Layer T :=
  let num_coord_funs := map (λ key, (key, arg_num_coord_funs a)) coord_keys in
  let total_num_coord_funs := sum_nat (map snd num_coord_funs) in
  let coord_fun_modules :=
    map (λ kn : string * nat, p_coord p false (fst kn) (snd kn)) num_coord_funs in
  init_modules p a total_num_coord_funs coord_fun_modules.

(** [edge_index.shape[0]]: the edge index has shape [2, E]. *)
Definition ei_shape0 (ei : EdgeIndex) : Z := 2.

(** [compute_persistence]. The slices are bound only when [batch is None]:
    the other branch is commented out, and reading them raises. The source
    builds the slices as a float tensor cast to long; they are integers
    here, which is the same below 2^24. *)
Definition compute_persistence (l : Layer T) (x : Tensor2 T)
    (edge_index : option EdgeIndex) (batch : option Batch)
    (return_filtration : bool)
    : res (Pairs T * Pairs T * option (Tensor2 T)) :=
  edge_index ← match edge_index with
               | Some ei => Ok ei
               | None => b ← of_option AttributeError batch; Ok (b_edge_index b)
               end;
  filtered_v_ ← compute_filtration l x;
  filtered_e_ ← compute_edge_filtration filtered_v_ edge_index;
  let locals :=
    match batch with
    | None => Some ([Z.of_nat (t2_nrows x)], [ei_shape0 edge_index],
                    map (λ _, 0) (ei_src edge_index))
    | Some _ => None
    end in
  if fake l then
    '(vertex_slices, edge_slices, batch_index) ← of_option UnboundLocalError locals;
    fake_persistence_computation ext filtered_v_ edge_index
      vertex_slices edge_slices batch_index
  else
    '(vertex_slices, edge_slices, _) ← of_option UnboundLocalError locals;
    let filtered_v_ := transpose filtered_v_ in
    let filtered_e_ := transpose filtered_e_ in
    '(persistence0_new, persistence1_new) ←
      compute_persistence_homology_batched_mt ext
        (MkEngineArgs filtered_v_ filtered_e_ (edge_list edge_index)
                      vertex_slices edge_slices);
    Ok (persistence0_new, persistence1_new,
        if return_filtration then Some filtered_v_ else None).

(** [collapse_dim1]: a slices array of length one gets a 0 appended.
    [slices] is a tensor, as [forward] builds it. *)
Definition collapse_dim1 (activations : Tensor2 T) (mask : list bool)
    (slices : list Z) : res (Tensor2 T) :=
  let slices := if (length slices =? 1)%nat then slices ++ [0] else slices in
  collapsed_activations ←
    res_mapM (collapse_el activations mask slices) (seq 0 (length slices - 1));
  stack_rows (t2_cols activations) collapsed_activations.

Definition as_index (batch : option Batch) : pyindex :=
  match batch with None => IdxNone | Some b => IdxBatch b end.

(** [forward]; the removal of duplicate edges is commented out. *)
Definition forward (l : Layer T) (x : Tensor2 T)
    (edge_index : option EdgeIndex) (batch : option Batch)
    (return_filtration : bool)
    : res (Tensor2 T * option (Tensor2 T) * option (Tensor2 T)) :=
  edge_slices ← match batch with
                | None => ei ← of_option AttributeError edge_index;
                          Ok [ei_shape0 ei]
                | Some b => slices_of b "edge_index"
                end;
  '(persistences0, persistences1, filtration) ←
    compute_persistence l x edge_index batch return_filtration;
  coord_activations ← compute_coord_activations l persistences0 false;
  graph_activations1 ←
    (if dim1 l then
       let persistence1_mask := persistence_mask persistences1 in
       coord_activations1 ← compute_coord_activations l persistences1 true;
       g ← collapse_dim1 coord_activations1 persistence1_mask edge_slices;
       Ok (Some g)
     else Ok None);
  if residual_and_bn l then
    out_activations ← linear_forward (out l) coord_activations;
    '(out_activations, graph_activations1) ←
      (if dim1 l && dist_dim1 l then
         out1 ← of_option AttributeError (out1 l);
         g ← of_option TypeError graph_activations1;
         projected ← linear_forward out1 g;
         indexed ← tensor_getitem projected (as_index batch);
         out_activations ← t2_iadd out_activations indexed;
         Ok (out_activations, None)
       else Ok (out_activations, graph_activations1));
    bn ← of_option AttributeError (bn l);
    out_activations ← bn_forward bn out_activations;
    out_activations ←
      t2_add x (if swap_bn_order l then relu out_activations else out_activations);
    Ok (out_activations, graph_activations1, filtration)
  else
    concat_activations ← cat_dim1 [x; coord_activations];
    out_activations ← linear_forward (out l) concat_activations;
    Ok (relu out_activations, graph_activations1, filtration).

(** *** The batch object and [remove_duplicate_edges] *)

(** A batch object on the heap: its tensors, and a reference to its
    [__slices__] dictionary, which is an object of its own. *)
Record BatchObj : Type := MkBatchObj {
  o_x : Tensor2 T;
  o_edge_index : EdgeIndex;
  o_batch : list Z;
  o_slices : positive
}.

Record Heap : Type := MkHeap {
  h_objs : gmap positive BatchObj;
  h_dicts : gmap positive (gmap string (list Z))
}.

(** The batch a reference stands for, its dictionary read through. *)
Definition load (h : Heap) (r : positive) : option Batch :=
  o ← h_objs h !! r;
  d ← h_dicts h !! o_slices o;
  Some (MkBatch (o_edge_index o) (o_batch o) d).

(** [batch.clone()] of torch_geometric: tensors are cloned and every other
    attribute is deep-copied, so the clone has a dictionary of its own. *)
Definition clone (batch : positive) (h : Heap) : res (positive * Heap) :=
  o ← of_option AttributeError (h_objs h !! batch);
  d ← of_option AttributeError (h_dicts h !! o_slices o);
  let d' := fresh (dom (h_dicts h)) in
  let b' := fresh (dom (h_objs h)) in
  Ok (b', MkHeap (<[b' := MkBatchObj (o_x o) (o_edge_index o) (o_batch o) d']>
                    (h_objs h))
                 (<[d' := d]> (h_dicts h))).

(** [batch.edge_index = v] *)
Definition set_edge_index (r : positive) (v : EdgeIndex) (h : Heap) : res Heap :=
  o ← of_option AttributeError (h_objs h !! r);
  Ok (MkHeap (<[r := MkBatchObj (o_x o) v (o_batch o) (o_slices o)]> (h_objs h))
             (h_dicts h)).

(** [batch.__slices__[key] = v] *)
Definition set_slices (r : positive) (key : string) (v : list Z) (h : Heap)
    : res Heap :=
  o ← of_option AttributeError (h_objs h !! r);
  d ← of_option AttributeError (h_dicts h !! o_slices o);
  Ok (MkHeap (h_objs h) (<[o_slices o := <[key := v]> d]> (h_dicts h))).

(** [remove_duplicate_edges], on a batch whose [x] is set and whose edge
    offsets have at least one entry. *)
Definition remove_duplicate_edges (batch : positive) (h : Heap)
    : res (positive * Heap) :=
  '(batch, h) ← clone batch h;
  b ← of_option AttributeError (load h batch);
  (* Computing the equivalent of batch over edges. *)
  edge_slices ← slices_of b "edge_index";
  let edge_diff_slices :=
    zip_with Z.sub (py_slice edge_slices 1 (Z.of_nat (length edge_slices)))
                   (py_slice edge_slices 0 (-1)) in
  let n_batch := length edge_diff_slices in
  batch_e ← repeat_interleave (arange n_batch) edge_diff_slices;
  let correct_idx :=
    zip_with Z.leb (ei_src (b_edge_index b)) (ei_dst (b_edge_index b)) in
  n_edges ← scatter_sum (map long_of_bool correct_idx) batch_e;
  src ← mask_select (ei_src (b_edge_index b)) correct_idx;
  dst ← mask_select (ei_dst (b_edge_index b)) correct_idx;
  h ← set_edge_index batch (MkEdgeIndex src dst) h;
  let new_slices := cumsum (0 :: n_edges) in
  h ← set_slices batch "edge_index" new_slices h;
  Ok (batch, h).

End Methods.

Arguments BatchObj T : clear implicits.
Arguments Heap T : clear implicits.

End Topolayer.

(** ** [topognn/models.py] *)

Module Models.
Section Methods.
Context {T : Type} `{Scalar T}.
Variable ext : Extern T.

(** [__init__]: [num_coord_funs] is a dictionary, read in its own order. *)
Definition init (p : Params T) (a : Args (list (string * nat))) : Layer T :=
  let num_coord_funs := arg_num_coord_funs a in
  let total_num_coord_funs := sum_nat (map snd num_coord_funs) in
  let coord_fun_modules :=
    map (λ kn : string * nat, p_coord p false (fst kn) (snd kn)) num_coord_funs in
  init_modules p a total_num_coord_funs coord_fun_modules.

(** [compute_persistence]: the slices are those of the batch. The source
    builds them as a float tensor cast to long; they are integers here,
    which is the same below 2^24. *)
Definition compute_persistence (l : Layer T) (x : Tensor2 T) (batch : Batch)
    (return_filtration : bool)
    : res (Pairs T * Pairs T * option (Tensor2 T)) :=
  let edge_index := b_edge_index batch in
  filtered_v_ ← compute_filtration l x;
  filtered_e_ ← compute_edge_filtration filtered_v_ edge_index;
  vertex_slices ← slices_of batch "x";
  edge_slices ← slices_of batch "edge_index";
  if fake l then
    fake_persistence_computation ext filtered_v_ edge_index
      vertex_slices edge_slices (b_batch batch)
  else
    let filtered_v_ := transpose filtered_v_ in
    let filtered_e_ := transpose filtered_e_ in
    '(persistence0_new, persistence1_new) ←
      compute_persistence_homology_batched_mt ext
        (MkEngineArgs filtered_v_ filtered_e_ (edge_list edge_index)
                      vertex_slices edge_slices);
    Ok (persistence0_new, persistence1_new,
        if return_filtration then Some filtered_v_ else None).

(** [collapse_dim1] *)
Definition collapse_dim1 (activations : Tensor2 T) (mask : list bool)
    (slices : list Z) : res (Tensor2 T) :=
  collapsed_activations ←
    res_mapM (collapse_el activations mask slices) (seq 0 (length slices - 1));
  stack_rows (t2_cols activations) collapsed_activations.

(** [forward]: duplicate edges are removed first. *)
Definition forward (l : Layer T) (x : Tensor2 T) (batch : Batch)
    (return_filtration : bool)
    : res (Tensor2 T * option (Tensor2 T) * option (Tensor2 T)) :=
  batch ← data_utils_remove_duplicate_edges ext batch;
  '(persistences0, persistences1, filtration) ←
    compute_persistence l x batch return_filtration;
  coord_activations ← compute_coord_activations l persistences0 false;
  graph_activations1 ←
    (if dim1 l then
       let persistence1_mask := persistence_mask persistences1 in
       coord_activations1 ← compute_coord_activations l persistences1 true;
       edge_slices ← slices_of batch "edge_index";
       g ← collapse_dim1 coord_activations1 persistence1_mask edge_slices;
       Ok (Some g)
     else Ok None);
  if residual_and_bn l then
    out_activations ← linear_forward (out l) coord_activations;
    '(out_activations, graph_activations1) ←
      (if dim1 l && dist_dim1 l then
         out1 ← of_option AttributeError (out1 l);
         g ← of_option TypeError graph_activations1;
         projected ← linear_forward out1 g;
         indexed ← tensor_getitem projected (IdxBatch batch);
         out_activations ← t2_iadd out_activations indexed;
         Ok (out_activations, None)
       else Ok (out_activations, graph_activations1));
    bn ← of_option AttributeError (bn l);
    out_activations ← bn_forward bn out_activations;
    out_activations ←
      t2_add x (if swap_bn_order l then relu out_activations else out_activations);
    Ok (out_activations, graph_activations1, filtration)
  else
    concat_activations ← cat_dim1 [x; coord_activations];
    out_activations ← linear_forward (out l) concat_activations;
    Ok (relu out_activations, graph_activations1, filtration).

End Methods.
End Models.

(** ** Integer tensor primitives of [weighted_loss] *)

(** [torch.bincount(input)]: the entries must not be negative; the output has
    [max(input) + 1] bins (none for an empty input), and every entry adds one
    to its bin. *)
Definition bincount (input : list Z) : res (list Z) :=
  if forallb (λ v, 0 <=? v) input then
    let size := match input with
                | [] => 0%nat
                | _ => S (max_list (map Z.to_nat input))
                end in
    Ok (fold_left (λ out v, alter Z.succ (Z.to_nat v) out) input (repeat 0 size))
  else Err RuntimeError.

(** An integer tensor of rank zero or one. *)
Inductive long01 : Type :=
| Rank0 (v : Z)
| Rank1 (l : list Z).

(** [t[t.nonzero(as_tuple=True)]]: the entries that are not zero. *)
Definition nonzero_entries (t : list Z) : list Z := filter (λ c, c ≠ 0) t.

(** [t.squeeze()]: a tensor of one entry becomes a scalar. *)
Definition squeeze (t : list Z) : long01 :=
  match t with
  | [v] => Rank0 v
  | _ => Rank1 t
  end.

(** [torch.unique(t)]: the distinct entries, sorted. *)
Definition unique (t : list Z) : list Z := merge_sort Z.le (remove_dups t).

(** [dst[index] = value]: the value is broadcast to the index, and every
    index must be in range. *)
Definition index_put (dst : list Z) (index : list Z) (value : long01)
    : res (list Z) :=
  values ← match value with
           | Rank0 v => Ok (map (λ _, v) index)
           | Rank1 l =>
               if (length l =? length index)%nat then Ok l
               else match l with
                    | [v] => Ok (map (λ _, v) index)
                    | _ => Err RuntimeError
                    end
           end;
  fold_left (λ acc (iv : Z * Z),
               dst ← acc;
               k ← py_index (length dst) (fst iv);
               Ok (<[k := snd iv]> dst))
            (zip index values) (Ok dst).

(** ** [LargerGCNModel] and [LargerTopoGNNModel] of [topognn/models.py] *)

Module Net.

(** The members of [Tasks] that [__init__] accepts. *)
Inductive Task : Type :=
| GRAPH_CLASSIFICATION
| NODE_CLASSIFICATION
| NODE_CLASSIFICATION_WEIGHTED.

(** An entry of [self.layers]: the GNN layer that [build_gnn_layer] returned
    in round [i] of the comprehension, or the [PointWiseMLP]. *)
Inductive LayerKind : Type :=
| GnnLayer (i : nat) (is_first is_last : bool)
| MlpLayer.

(** [l.insert(i, v)] on a Python list: the index is taken as a slice bound. *)
Definition py_insert {A} (l : list A) (i : Z) (v : A) : list A :=
  let k := py_bound (length l) i in take k l ++ v :: drop k l.

(** The layer list of [LargerGCNModel.__init__]. *)
Definition init_layers (depth : Z) (add_mlp : bool) : list LayerKind :=
  let layers :=
    map (λ i : nat, GnnLayer i (Z.of_nat i =? 0) (Z.of_nat i =? depth - 1))
        (seq 0 (Z.to_nat depth)) in
  if add_mlp then py_insert layers 1 MlpLayer else layers.


(** [weighted_loss], nested in [LargerGCNModel.__init__]: the class sizes
    [cluster_sizes], the integer part of the block under [torch.no_grad()]
    (the weights and the cross entropy are floating point). *)
Definition weighted_loss_cluster_sizes (n_classes : nat) (label : list Z)
    : res (list Z) :=
  label_count ← bincount label;
  let label_count := squeeze (nonzero_entries label_count) in
  let cluster_sizes := repeat 0 n_classes in
  index_put cluster_sizes (unique label) label_count.

Section Forward.
Context {T : Type} `{Scalar T}.

(** The modules of a model that come from torch and [topognn.layers]. *)
Record Modules : Type := MkModules {
  embedding : Tensor2 T → res (Tensor2 T);
  gnn_layer : nat → bool → bool → Tensor2 T → Batch → res (Tensor2 T);
  mlp : Linear T;
  graph_pooling_operation : Tensor2 T → list Z → res (Tensor2 T);
  classif : Tensor2 T → res (Tensor2 T);
  dropout : Tensor2 T → res (Tensor2 T);
  topo1 : Tensor2 T → Batch → bool →
          res (Tensor2 T * option (Tensor2 T) * option (Tensor2 T))
}.

Variable m : Modules.

(** [PointWiseMLP.forward] *)
Definition PointWiseMLP_forward (x : Tensor2 T) : res (Tensor2 T) :=
  h ← linear_forward (mlp m) x; Ok (relu h).

(** [layer(x, edge_index=edge_index, data=data)] *)
Definition apply_layer (layer : LayerKind) (x : Tensor2 T) (data : Batch)
    : res (Tensor2 T) :=
  match layer with
  | GnnLayer i is_first is_last => gnn_layer m i is_first is_last x data
  | MlpLayer => PointWiseMLP_forward x
  end.

(** [for layer in layers: x = layer(x, ...)] *)
Fixpoint run_layers (layers : list LayerKind) (x : Tensor2 T) (data : Batch)
    : res (Tensor2 T) :=
  match layers with
  | [] => Ok x
  | layer :: rest => x ← apply_layer layer x data; run_layers rest x data
  end.

(** [self.pooling_fun]: [fake_pool] on the node tasks. *)
Definition pooling_fun (task : Task) (x : Tensor2 T) (batch : list Z)
    : res (Tensor2 T) :=
  match task with
  | GRAPH_CLASSIFICATION => graph_pooling_operation m x batch
  | NODE_CLASSIFICATION | NODE_CLASSIFICATION_WEIGHTED => Ok x
  end.

(** [LargerGCNModel.forward] *)
Definition LargerGCNModel_forward (task : Task) (layers : list LayerKind)
    (x : Tensor2 T) (data : Batch) : res (Tensor2 T) :=
  x ← embedding m x;
  x ← run_layers layers x data;
  x ← pooling_fun task x (b_batch data);
  classif m x.

(** [LargerTopoGNNModel.forward]: the result is [x] or [(x, filtration)]. *)
Definition LargerTopoGNNModel_forward (task : Task) (layers : list LayerKind)
    (togl_position : Z) (x : Tensor2 T) (data : Batch)
    (return_filtration : bool)
    : res (Tensor2 T * option (option (Tensor2 T))) :=
  x ← embedding m x;
  x ← run_layers (py_slice layers 0 togl_position) x data;
  '(x, x_dim1, filtration) ← topo1 m x data return_filtration;
  x ← dropout m x;
  x ← run_layers (py_slice layers togl_position (Z.of_nat (length layers)))
                 x data;
  x ← pooling_fun task x (b_batch data);
  x_pre_class ←
    match x_dim1 with
    | Some x_dim1 =>
        x_dim1 ← match task with
                 | GRAPH_CLASSIFICATION => Ok x_dim1
                 | NODE_CLASSIFICATION | NODE_CLASSIFICATION_WEIGHTED =>
                     index_rows x_dim1 (b_batch data)
                 end;
        cat_dim1 [x; x_dim1]
    | None => Ok x
    end;
  x ← classif m x_pre_class;
  Ok (x, if return_filtration then Some filtration else None).

End Forward.

Arguments Modules T : clear implicits.

End Net.

(** ** The packed-batch invariant *)

(** Offsets of a packed batch: nondecreasing, the first is 0 and the last is
    the total count. *)
Definition packed_invariant (s : list Z) (total : Z) : Prop :=
  head s = Some 0 ∧ last s = Some total ∧
  ∀ i a b, s !! i = Some a → s !! S i = Some b → a <= b.

Fixpoint nondecreasingb (s : list Z) : bool :=
  match s with
  | a :: ((b :: _) as s') => (a <=? b) && nondecreasingb s'
  | _ => true
  end.

Definition packed_invariantb (s : list Z) (total : Z) : bool :=
  match head s, last s with
  | Some a, Some b => (a =? 0) && (b =? total) && nondecreasingb s
  | _, _ => false
  end.

(** ** The collaborators, from the specification *)

Module Engine.
Section Engine.
Context {T : Type} `{Scalar T}.

Record Edge : Type := MkEdge { e_idx : nat; e_u : nat; e_v : nat; e_val : T }.

Record UnionFind : Type := MkUnionFind {
  parent : gmap nat nat;
  pairs0 : gmap nat (T * T);   (* emitted dim0 pairs, by vertex *)
  pairs1 : gmap nat (T * T)    (* emitted dim1 pairs, by edge *)
}.

Fixpoint find (fuel : nat) (parent : gmap nat nat) (v : nat) : nat :=
  match fuel with
  | O => v
  | S fuel' =>
      match parent !! v with
      | Some p => if (p =? v)%nat then v else find fuel' parent p
      | None => v
      end
  end.

(** Stable insertion: ascending by filtration value, ties in the original
    order of the edges. *)
Fixpoint insert_edge (e : Edge) (l : list Edge) : list Edge :=
  match l with
  | [] => [e]
  | y :: l' => if s_leb (e_val y) (e_val e) then y :: insert_edge e l'
               else e :: l
  end.

Definition sort_edges (l : list Edge) : list Edge :=
  fold_left (λ acc e, insert_edge e acc) l [].

Definition birth (fv : list T) (v : nat) : T := default s_zero (fv !! v).

(** One edge of the sorted list. An edge inside one component closes a
    cycle: its dim1 pair is born at its value and dies at the value of the
    last edge of the graph. An edge between two components merges them, and
    the component whose root has the lower birth emits its dim0 pair. *)
Definition step (fuel : nat) (fv : list T) (last_val : T) (st : UnionFind)
    (e : Edge) : UnionFind :=
  let ru := find fuel (parent st) (e_u e) in
  let rv := find fuel (parent st) (e_v e) in
  if (ru =? rv)%nat then
    MkUnionFind (parent st) (pairs0 st)
                (<[e_idx e := (e_val e, last_val)]> (pairs1 st))
  else if s_leb (birth fv ru) (birth fv rv) then
    MkUnionFind (<[ru := rv]> (parent st))
                (<[ru := (birth fv ru, e_val e)]> (pairs0 st)) (pairs1 st)
  else
    MkUnionFind (<[rv := ru]> (parent st))
                (<[rv := (birth fv rv, e_val e)]> (pairs0 st)) (pairs1 st).

(** The edges of one graph, with their values in one filtration. *)
Definition graph_edges (fe : list T) (edges : list (Z * Z)) (eb ee : nat)
    : list Edge :=
  omap (λ i, uv ← edges !! i; w ← fe !! i;
             Some (MkEdge i (Z.to_nat (fst uv)) (Z.to_nat (snd uv)) w))
       (seq eb (ee - eb)).

(** One graph in one filtration: its dim0 pairs, one per vertex (a vertex
    that emitted no pair is paired with itself), and its dim1 pairs, one per
    edge (zero for an edge that closes no cycle). *)
Definition persistence_graph (fv fe : list T) (edges : list (Z * Z))
    (vb ve eb ee : nat) : list (T * T) * list (T * T) :=
  let sorted := sort_edges (graph_edges fe edges eb ee) in
  let last_val := default s_zero (e_val <$> last sorted) in
  let st := fold_left (step (S (ve - vb)) fv last_val) sorted
                      (MkUnionFind ∅ ∅ ∅) in
  (map (λ v, default (birth fv v, birth fv v) (pairs0 st !! v))
       (seq vb (ve - vb)),
   map (λ e, default (s_zero, s_zero) (pairs1 st !! e)) (seq eb (ee - eb))).

(** The ranges of the graphs of a batch. *)
Definition ranges (s : list Z) : list (nat * nat) :=
  zip (map Z.to_nat s) (map Z.to_nat (tail s)).

Definition persistence_channel (vs es : list Z) (edges : list (Z * Z))
    (fv fe : list T) : list (T * T) * list (T * T) :=
  let per_graph :=
    zip_with (λ vr er, persistence_graph fv fe edges (fst vr) (snd vr)
                                         (fst er) (snd er))
             (ranges vs) (ranges es) in
  (concat (map fst per_graph), concat (map snd per_graph)).

(** Validation at entry: offsets monotonic and in range, endpoints in
    range. *)
Definition validate (a : EngineArgs T) : bool :=
  let n := Z.of_nat (t2_cols (a_filtered_v a)) in
  let e := Z.of_nat (length (a_edge_index a)) in
  packed_invariantb (a_vertex_slices a) n &&
  packed_invariantb (a_edge_slices a) e &&
  (length (a_vertex_slices a) =? length (a_edge_slices a))%nat &&
  (t2_nrows (a_filtered_v a) =? t2_nrows (a_filtered_e a))%nat &&
  (t2_cols (a_filtered_e a) =? length (a_edge_index a))%nat &&
  forallb (λ uv : Z * Z, (0 <=? fst uv) && (fst uv <? n) &&
                         (0 <=? snd uv) && (snd uv <? n))
          (a_edge_index a).

(** Modelled from the spec: [compute_persistence_homology_batched_mt] of
    torch_persistent_homology, the batched persistence computation of
    section 4.2 (sort the edges of a graph by filtration value, union-find,
    dim0 pairs on merges, dim1 pairs on cycles), whose source is not part
    of the two files. *)
Definition compute_persistence_homology_batched_mt (a : EngineArgs T)
    : res (Pairs T * Pairs T) :=
  if validate a then
    let per_channel :=
      zip_with (persistence_channel (a_vertex_slices a) (a_edge_slices a)
                                    (a_edge_index a))
               (t2_rows (a_filtered_v a)) (t2_rows (a_filtered_e a)) in
    Ok (MkPairs (t2_cols (a_filtered_v a)) (map fst per_channel),
        MkPairs (t2_cols (a_filtered_e a)) (map snd per_channel))
  else Err RuntimeError.

End Engine.
End Engine.

Module DataUtils.

Definition count_true (l : list bool) : Z :=
  Z.of_nat (length (filter (λ b, b = true) l)).

(** Modelled from the spec: [remove_duplicate_edges] of [topognn.data_utils],
    the function that [forward] of [models.py] imports and whose source is
    not part of the two files. It keeps the canonical direction of every edge
    (source index at most destination index) and rewrites the edge-slice
    offsets to the reduced per-graph counts. *)
Definition remove_duplicate_edges (b : Batch) : res Batch :=
  edge_slices ← slices_of b "edge_index";
  let ei := b_edge_index b in
  let keep := zip_with Z.leb (ei_src ei) (ei_dst ei) in
  let new_slices :=
    map (λ s, count_true (take (Z.to_nat s) keep)) edge_slices in
  Ok (MkBatch (MkEdgeIndex (select (ei_src ei) keep) (select (ei_dst ei) keep))
              (b_batch b)
              (<["edge_index" := new_slices]> (b_slices b))).

End DataUtils.

(** * Vocabulary of the statements *)

(** ** Edge slices and canonical edges *)

(** The values that [remove_duplicate_edges] computes from the edge index and
    the edge slices of the clone: the new edge index and the new slices. *)
Definition dedup_values (ei : EdgeIndex) (edge_slices : list Z)
    : res (EdgeIndex * list Z) :=
  let edge_diff_slices :=
    zip_with Z.sub (py_slice edge_slices 1 (Z.of_nat (length edge_slices)))
                   (py_slice edge_slices 0 (-1)) in
  batch_e ← repeat_interleave (arange (length edge_diff_slices)) edge_diff_slices;
  let correct_idx := zip_with Z.leb (ei_src ei) (ei_dst ei) in
  n_edges ← scatter_sum (map long_of_bool correct_idx) batch_e;
  src ← mask_select (ei_src ei) correct_idx;
  dst ← mask_select (ei_dst ei) correct_idx;
  Ok (MkEdgeIndex src dst, cumsum (0 :: n_edges)).

(** The sum of a list of integers. *)
Definition zsum (l : list Z) : Z := foldr Z.add 0 l.

(** The sum of the entries of [src] whose index satisfies [p]. *)
Fixpoint sum_sel (p : nat → bool) (idx : list nat) (src : list Z) : Z :=
  match idx, src with
  | i :: idx', s :: src' => (if p i then s else 0) + sum_sel p idx' src'
  | _, _ => 0
  end.

(** Differences of neighbours, [s[1:] - s[:-1]]. *)
Fixpoint adjacent_diffs (s : list Z) : list Z :=
  match s with
  | a :: ((b :: _) as s') => (b - a) :: adjacent_diffs s'
  | _ => []
  end.

(** The graph of every edge, for the edge counts [ds] of the graphs from
    number [k] on. *)
Fixpoint seg_idx (k : nat) (ds : list Z) : list nat :=
  match ds with
  | [] => []
  | d :: ds' => repeat k (Z.to_nat d) ++ seg_idx (S k) ds'
  end.

(** The number of edges of the first [m] graphs. *)
Fixpoint edges_before (ds : list Z) (m : nat) : nat :=
  match m, ds with
  | S m', d :: ds' => (Z.to_nat d + edges_before ds' m')%nat
  | _, _ => 0%nat
  end.

(** The number of entries that [scatter] returns for an index. *)
Definition scatter_size (index : list nat) : nat :=
  match index with [] => 0%nat | _ => S (max_list index) end.

(** The canonical direction of an edge: source at most destination. *)
Definition canonical (uv : Z * Z) : Prop := fst uv <= snd uv.

#[global] Instance canonical_dec (uv : Z * Z) : Decision (canonical uv).
Proof. unfold canonical. apply _. Defined.

(** An index that [a[i]] accepts on a sequence of length [n]. *)
Definition valid_index (n : nat) (i : Z) : Prop :=
  - Z.of_nat n <= i < Z.of_nat n.

(** The number of edges that the offsets stand for: the last offset minus
    the first. *)
Definition offsets_span (es : list Z) : nat :=
  match head es, last es with
  | Some a, Some b => Z.to_nat (b - a)
  | _, _ => 0%nat
  end.

(** The number of entries of [label] that are the class [c]. *)
Definition occurrences (label : list Z) (c : nat) : Z :=
  Z.of_nat (length (filter (λ v, v = Z.of_nat c) label)).

(** The number of bins of [torch.bincount(label)]. *)
Definition bins_of (label : list Z) : nat :=
  match label with
  | [] => 0%nat
  | _ => S (max_list (map Z.to_nat label))
  end.

(** The classes that occur in [label], in increasing order. *)
Definition classes_of (label : list Z) : list nat :=
  filter (λ c, occurrences label c ≠ 0) (seq 0 (bins_of label)).

(** ** Tensors, pairs and collaborators *)

Section Vocabulary.
Context {T : Type} `{Scalar T}.

(** The entry [t[i, j]] of a tensor. *)
Definition entry (t : Tensor2 T) (i j : nat) : option T :=
  r ← t2_rows t !! i; r !! j.

(** An edge is flagged when its pair differs from zero in at least one
    filtration or coordinate. *)
Definition flagged_edge (p : Pairs T) (e : nat) : bool :=
  existsb (λ pairs, match pairs !! e with
                    | Some pr => s_nonzero (fst pr) || s_nonzero (snd pr)
                    | None => false
                    end) (p_chan p).

(** The sum of the rows of the flagged edges among the edges [lo, hi) of one
    graph. *)
Definition graph_sum (activations : Tensor2 T) (p : Pairs T) (lo hi : nat)
    : list T :=
  sum_rows (t2_cols activations)
    (omap (λ e, if flagged_edge p e then t2_rows activations !! e else None)
          (seq lo (hi - lo))).

(** Every filtration holds [p_n] pairs. *)
Definition pairs_wf (p : Pairs T) : Prop :=
  Forall (λ pairs, length pairs = p_n p) (p_chan p).

(** The node embeddings of the residual mode: [x] plus the normalised linear
    projection of the dim0 coordinate activations, the projection going
    through [relu] first exactly when [swap_bn_order] is set. *)
Definition residual_output (l : Layer T) (x : Tensor2 T) (persistences0 : Pairs T)
    (out_activations : Tensor2 T) : Prop :=
  ∃ coord_activations projected norm normalized,
    compute_coord_activations l persistences0 false = Ok coord_activations
    ∧ linear_forward (out l) coord_activations = Ok projected
    ∧ bn l = Some norm
    ∧ bn_forward norm projected = Ok normalized
    ∧ t2_add x (if swap_bn_order l then relu normalized else normalized)
      = Ok out_activations.

(** The dim1 activations of a graph-level output. *)
Definition dim1_output (collapse : Tensor2 T → list bool → list Z → res (Tensor2 T))
    (l : Layer T) (persistences1 : Pairs T) (edge_slices : list Z)
    (g : Tensor2 T) : Prop :=
  ∃ coord_activations1,
    compute_coord_activations l persistences1 true = Ok coord_activations1
    ∧ collapse coord_activations1 (persistence_mask persistences1) edge_slices
      = Ok g.



End Vocabulary.

(** ** Concrete inputs *)

(** Collaborators and parameters over the integers: every weight is 1, every
    bias 0, the normalisation is the identity, and a coordinate function of
    output dimension [n] maps a pair to [birth + death + k] for [k < n]. *)
Definition ex_coord (dim1 : bool) (key : string) (n : nat) : CoordMod Z :=
  λ pairs, Ok (T2 n (map (λ p : Z * Z,
                            map (λ k, fst p + snd p + Z.of_nat k) (seq 0 n))
                         pairs)).

Definition ex_params : Params Z :=
  MkParams (λ _ _ _, 1) (λ _ _, 0) ex_coord (λ _ _ v, v).

(** A persistence computation that takes its whole input as one graph,
    whatever slices it is given. *)
Definition whole_batch_engine (a : EngineArgs Z) : res (Pairs Z * Pairs Z) :=
  Engine.compute_persistence_homology_batched_mt
    (MkEngineArgs (a_filtered_v a) (a_filtered_e a) (a_edge_index a)
                  [0; Z.of_nat (t2_cols (a_filtered_v a))]
                  [0; Z.of_nat (length (a_edge_index a))]).


Definition no_fake : Tensor2 Z → EdgeIndex → list Z → list Z → list Z →
    res (Pairs Z * Pairs Z * option (Tensor2 Z)) :=
  λ _ _ _ _ _, Err RuntimeError.

Definition ex_ext : Extern Z :=
  MkExtern Engine.compute_persistence_homology_batched_mt no_fake
           DataUtils.remove_duplicate_edges.

Definition ex_ext_whole : Extern Z :=
  MkExtern whole_batch_engine no_fake DataUtils.remove_duplicate_edges.


(** The configuration: one input feature, [features_out] 5, two
    filtrations, one coordinate function per family, shared filtration
    parameters. *)
Definition ex_args (dim1 residual dist swap : bool) : Args nat :=
  MkArgs 1%nat 5%nat 2%nat 1%nat 2%nat 1%nat
         dim1 residual true false false swap dist.

Definition ex_margs (dim1 residual dist swap : bool)
    : Args (list (string * nat)) :=
  MkArgs 1%nat 5%nat 2%nat (map (λ k, (k, 1%nat)) coord_keys) 2%nat 1%nat
         dim1 residual true false false swap dist.

(** A triangle, every edge in both directions. *)
Definition ex_x : Tensor2 Z := T2 1 [[0]; [1]; [2]].

Definition ex_ei : EdgeIndex :=
  MkEdgeIndex [0; 1; 1; 2; 0; 2] [1; 0; 2; 1; 2; 0].

Definition ex_slices : gmap string (list Z) :=
  <["x" := [0; 3]]> (<["edge_index" := [0; 6]]> ∅).

Definition ex_batch : Batch := MkBatch ex_ei [0; 0; 0] ex_slices.

Definition ex_heap : Topolayer.Heap Z :=
  Topolayer.MkHeap {[1%positive := Topolayer.MkBatchObj ex_x ex_ei [0; 0; 0] 1%positive]}
                   {[1%positive := ex_slices]}.

(** Two graphs, the second one without edges. *)
Definition ex_heap_trailing : Topolayer.Heap Z :=
  Topolayer.MkHeap
    {[1%positive := Topolayer.MkBatchObj (T2 1 [[0]; [1]; [2]])
                      (MkEdgeIndex [0; 1] [1; 0]) [0; 0; 1] 1%positive]}
    {[1%positive := <["x" := [0; 2; 3]]> (<["edge_index" := [0; 2; 2]]> ∅)]}.

(** Modules of a model over the integers: every GNN layer adds its position
    plus one to every entry, the other modules hand their input on. *)
Definition ex_modules
    (topo1 : Tensor2 Z → Batch → bool →
             res (Tensor2 Z * option (Tensor2 Z) * option (Tensor2 Z)))
    : Net.Modules Z :=
  Net.MkModules Ok
    (λ i _ _ x _, Ok (t2_map (Z.add (Z.of_nat i + 1)) x))
    (MkLinear 1 1 (λ _ _, 1) (λ _, 0))
    (λ x _, Ok x) Ok Ok topo1.

Definition ex_no_topo : Tensor2 Z → Batch → bool →
    res (Tensor2 Z * option (Tensor2 Z) * option (Tensor2 Z)) :=
  λ x _ _, Ok (x, None, None).

(** * Properties *)

(** ** Reasoning about the error monad *)

Lemma bind_ok {A B} (m : res A) (f : A → res B) (b : B) :
  m ≫= f = Ok b → ∃ a, m = Ok a ∧ f a = Ok b.
Proof. destruct m as [a|e]; [eauto | discriminate]. Qed.

Lemma bind_err {A B} (m : res A) (f : A → res B) :
  raises m → raises (m ≫= f).
Proof. intros [e ->]. exists e. reflexivity. Qed.

Lemma raises_not_ok {A} (m : res A) (a : A) : raises m → m ≠ Ok a.
Proof. intros [e ->]. discriminate. Qed.

(** Splits a hypothesis [x ← m; k = Ok r] into [m = Ok x] and [k = Ok r],
    as often as it applies. *)
Ltac bind_inv H :=
  repeat match type of H with
         | _ ≫= _ = Ok _ =>
             let a := fresh "v" in
             let E := fresh "E" in
             apply bind_ok in H; destruct H as (a & E & H)
         end.

Lemma res_mapM_length {A B} (f : A → res B) (l : list A) (bs : list B) :
  res_mapM f l = Ok bs → length bs = length l.
Proof.
  revert bs. induction l as [|a l IH]; intros bs Hm; simpl in Hm.
  - inversion Hm. reflexivity.
  - bind_inv Hm. inversion Hm; subst. simpl. f_equal. eauto.
Qed.

Lemma res_mapM_lookup {A B} (f : A → res B) (l : list A) (bs : list B) i a :
  res_mapM f l = Ok bs → l !! i = Some a →
  ∃ b, bs !! i = Some b ∧ f a = Ok b.
Proof.
  revert bs i. induction l as [|a0 l IH]; intros bs i Hm Hi; simpl in Hm.
  - discriminate.
  - bind_inv Hm. inversion Hm; subst. destruct i as [|i]; simpl in *.
    + inversion Hi; subst. eauto.
    + eauto.
Qed.

Lemma res_mapM_ok {A B} (f : A → res B) (g : A → B) (l : list A) :
  (∀ a, a ∈ l → f a = Ok (g a)) → res_mapM f l = Ok (map g l).
Proof.
  induction l as [|a l IH]; intros Hf; simpl; [reflexivity|].
  rewrite Hf by constructor. simpl. rewrite IH; [reflexivity|].
  intros b Hb. apply Hf. by constructor.
Qed.

Lemma res_mapM_ext {A B} (f g : A → res B) (l : list A) :
  (∀ a, a ∈ l → f a = g a) → res_mapM f l = res_mapM g l.
Proof.
  induction l as [|a l IH]; intros Hf; simpl; [reflexivity|].
  rewrite Hf by constructor. rewrite IH; [reflexivity|].
  intros b Hb. apply Hf. by constructor.
Qed.

(** One step of [bind_inv], with the names given. *)
Tactic Notation "bind1" hyp(H) ident(a) ident(E) :=
  apply bind_ok in H; destruct H as (a & E & H).

(** ** Python indexing *)

Lemma py_index_in_range (n : nat) (i : Z) :
  0 <= i < Z.of_nat n → py_index n i = Ok (Z.to_nat i).
Proof.
  intros Hi. unfold py_index.
  destruct (0 <=? i) eqn:E1; [|lia]. destruct (i <? Z.of_nat n) eqn:E2; [|lia].
  reflexivity.
Qed.

Lemma py_getitem_in_range {A} (l : list A) (i : Z) :
  0 <= i < Z.of_nat (length l) → py_getitem l i = of_option IndexError (l !! Z.to_nat i).
Proof. intros Hi. unfold py_getitem. rewrite py_index_in_range by done. reflexivity. Qed.

Lemma py_getitem_nat {A} (l : list A) (i : nat) (a : A) :
  l !! i = Some a → py_getitem l (Z.of_nat i) = Ok a.
Proof.
  intros Hi. pose proof (lookup_lt_Some _ _ _ Hi).
  rewrite py_getitem_in_range by lia. rewrite Nat2Z.id, Hi. reflexivity.
Qed.

Lemma py_bound_nonneg (n : nat) (i : Z) :
  0 <= i → py_bound n i = Nat.min (Z.to_nat i) n.
Proof.
  intros Hi. unfold py_bound. destruct (i <? 0) eqn:E; lia.
Qed.

Lemma py_slice_stop_0 {A} (l : list A) (lo : Z) : py_slice l lo 0 = [].
Proof.
  unfold py_slice. replace (py_bound (length l) 0) with 0%nat.
  - reflexivity.
  - unfold py_bound. simpl. lia.
Qed.

(** ** The edge filtration *)

Section EdgeFiltration.
Context {T : Type} `{Scalar T}.

Lemma index_rows_lookup (t g : Tensor2 T) (idx : list Z) (e : nat) (u : Z) :
  index_rows t idx = Ok g → idx !! e = Some u →
  0 <= u < Z.of_nat (t2_nrows t) →
  t2_rows g !! e = t2_rows t !! Z.to_nat u.
Proof.
  intros Hg He Hu. unfold index_rows in Hg. bind_inv Hg.
  inversion Hg; subst; clear Hg. simpl.
  destruct (res_mapM_lookup _ _ _ _ _ E He) as (row & Hrow & Hget).
  rewrite py_getitem_in_range in Hget by exact Hu.
  rewrite Hrow. destruct (t2_rows t !! Z.to_nat u); simpl in Hget; congruence.
Qed.

Lemma index_rows_ok (t : Tensor2 T) (idx : list Z) :
  Forall (λ u, 0 <= u < Z.of_nat (t2_nrows t)) idx →
  ∃ g, index_rows t idx = Ok g ∧ t2_cols g = t2_cols t ∧
       t2_nrows g = length idx.
Proof.
  intros Hall. unfold index_rows.
  assert (Hm : ∃ rows, res_mapM (py_getitem (t2_rows t)) idx = Ok rows ∧
                       length rows = length idx).
  { induction Hall as [|u idx Hu Hall IH]; simpl; [eauto|].
    destruct IH as (rows & -> & Hlen).
    rewrite py_getitem_in_range by exact Hu.
    destruct (lookup_lt_is_Some_2 (t2_rows t) (Z.to_nat u)) as [row ->].
    { unfold t2_nrows in Hu. lia. }
    simpl. eexists; split; [reflexivity|]. simpl. by rewrite Hlen. }
  destruct Hm as (rows & -> & Hlen). simpl. eexists; split; [reflexivity|].
  split; [reflexivity|exact Hlen].
Qed.

(** Totality: with every endpoint in range, the edge filtration is computed. *)
Lemma compute_edge_filtration_ok (filtered_v_ : Tensor2 T) (ei : EdgeIndex) :
  length (ei_src ei) = length (ei_dst ei) →
  Forall (λ u, 0 <= u < Z.of_nat (t2_nrows filtered_v_)) (ei_src ei) →
  Forall (λ u, 0 <= u < Z.of_nat (t2_nrows filtered_v_)) (ei_dst ei) →
  is_ok (compute_edge_filtration filtered_v_ ei).
Proof.
  intros Hlen Hs Hd. unfold compute_edge_filtration.
  destruct (index_rows_ok _ _ Hs) as (a & -> & Hca & Hna).
  destruct (index_rows_ok _ _ Hd) as (b & -> & Hcb & Hnb). simpl.
  unfold stack_max. rewrite Hca, Hcb, Hna, Hnb, Hlen, !Nat.eqb_refl. simpl.
  eexists. reflexivity.
Qed.

(** C1. Whenever the edge filtration is computed, its value at an edge whose
    two endpoints are in range for the vertex filtration is, in every
    filtration, the maximum of the values at the two endpoints; and this
    is the edge filtration that [compute_persistence] of either file hands,
    transposed, to the persistence computation. *)
Theorem edge_filtration_is_max (filtered_v_ filtered_e_ : Tensor2 T)
    (ei : EdgeIndex) :
  compute_edge_filtration filtered_v_ ei = Ok filtered_e_ →
  (∀ (e f : nat) (u v : Z) (a b : T),
     ei_src ei !! e = Some u → ei_dst ei !! e = Some v →
     0 <= u < Z.of_nat (t2_nrows filtered_v_) →
     0 <= v < Z.of_nat (t2_nrows filtered_v_) →
     entry filtered_v_ (Z.to_nat u) f = Some a →
     entry filtered_v_ (Z.to_nat v) f = Some b →
     entry filtered_e_ e f = Some (s_max a b))
  ∧ (∀ ext l x batch rf,
       compute_filtration l x = Ok filtered_v_ → b_edge_index batch = ei →
       fake l = false →
       Models.compute_persistence ext l x batch rf =
         (vertex_slices ← slices_of batch "x";
          edge_slices ← slices_of batch "edge_index";
          pp ← compute_persistence_homology_batched_mt ext
                 (MkEngineArgs (transpose filtered_v_) (transpose filtered_e_)
                               (edge_list ei) vertex_slices edge_slices);
          Ok (pp.1, pp.2,
              if rf then Some (transpose filtered_v_) else None)))
  ∧ (∀ ext l x rf,
       compute_filtration l x = Ok filtered_v_ → fake l = false →
       Topolayer.compute_persistence ext l x (Some ei) None rf =
         (pp ← compute_persistence_homology_batched_mt ext
                 (MkEngineArgs (transpose filtered_v_) (transpose filtered_e_)
                               (edge_list ei) [Z.of_nat (t2_nrows x)]
                               [Topolayer.ei_shape0 ei]);
          Ok (pp.1, pp.2,
              if rf then Some (transpose filtered_v_) else None))).
Proof.
  intros Hfe. split; [|split].
  - intros e f u v a b Hu Hv Hur Hvr Ha Hb.
    unfold compute_edge_filtration in Hfe. bind_inv Hfe.
    unfold stack_max in Hfe.
    destruct (_ && _) in Hfe; [|discriminate].
    inversion Hfe; subst; clear Hfe.
    unfold entry in *. simpl. rewrite lookup_zip_with.
    rewrite (index_rows_lookup _ _ _ _ _ E Hu Hur).
    rewrite (index_rows_lookup _ _ _ _ _ E0 Hv Hvr).
    destruct (t2_rows filtered_v_ !! Z.to_nat u) as [ru|]; [|discriminate].
    destruct (t2_rows filtered_v_ !! Z.to_nat v) as [rv|]; [|discriminate].
    simpl in *. rewrite lookup_zip_with, Ha, Hb. reflexivity.
  - intros ext l x batch rf Hfv Hei Hfake.
    unfold Models.compute_persistence. rewrite Hfv, Hei. simpl.
    rewrite Hfe, Hfake. simpl.
    destruct (slices_of batch "x"); [|reflexivity]. simpl.
    destruct (slices_of batch "edge_index"); [|reflexivity]. simpl.
    destruct (compute_persistence_homology_batched_mt _ _) as [[p0 p1]|];
      reflexivity.
  - intros ext l x rf Hfv Hfake.
    unfold Topolayer.compute_persistence. simpl. rewrite Hfv. simpl.
    rewrite Hfe, Hfake. simpl.
    destruct (compute_persistence_homology_batched_mt _ _) as [[p0 p1]|];
      reflexivity.
Qed.

End EdgeFiltration.

(** ** Collapsing the dim1 activations *)

Section CollapseProps.
Context {T : Type} `{Scalar T}.

Lemma flagged_edge_spec (p : Pairs T) (e : nat) :
  flagged_edge p e = true ↔
  ∃ pairs pr, pairs ∈ p_chan p ∧ pairs !! e = Some pr ∧
              (s_nonzero (fst pr) = true ∨ s_nonzero (snd pr) = true).
Proof.
  unfold flagged_edge. rewrite existsb_exists. split.
  - intros (pairs & Hin & Hnz). exists pairs.
    destruct (pairs !! e) as [pr|]; [|discriminate].
    exists pr. rewrite list_elem_of_In. apply orb_true_iff in Hnz. done.
  - intros (pairs & pr & Hin & Hpr & Hnz). exists pairs.
    rewrite <- list_elem_of_In, Hpr. by rewrite orb_true_iff.
Qed.

Lemma mask_fold_length (ms : list (list bool)) (acc : list bool) (n : nat) :
  length acc = n → Forall (λ m, length m = n) ms →
  length (fold_left (zip_with orb) ms acc) = n.
Proof.
  revert acc. induction ms as [|m ms IH]; intros acc Hacc Hall; simpl; [done|].
  inversion Hall; subst. apply IH; [|done].
  rewrite length_zip_with. lia.
Qed.

Lemma mask_fold_lookup (chans : list (list (T * T))) (acc : list bool) e b :
  acc !! e = Some b → Forall (λ c, (e < length c)%nat) chans →
  fold_left (zip_with orb) (map (map pair_nonzero) chans) acc !! e =
  Some (b || existsb (λ pairs, match pairs !! e with
                               | Some pr => s_nonzero (fst pr) || s_nonzero (snd pr)
                               | None => false
                               end) chans).
Proof.
  revert acc b. induction chans as [|c chans IH]; intros acc b Hacc Hall; simpl.
  - by rewrite orb_false_r.
  - inversion Hall as [|? ? Hc Hall']; subst.
    destruct (lookup_lt_is_Some_2 c e Hc) as [pr Hpr].
    assert (Hacc' : zip_with orb acc (map pair_nonzero c) !! e
                    = Some (b || pair_nonzero pr)).
    { rewrite lookup_zip_with, Hacc. simpl.
      rewrite list_lookup_fmap, Hpr. reflexivity. }
    rewrite (IH _ _ Hacc' Hall'), Hpr. unfold pair_nonzero.
    by rewrite <- orb_assoc.
Qed.

Lemma persistence_mask_length (p : Pairs T) :
  pairs_wf p → length (persistence_mask p) = p_n p.
Proof.
  intros Hwf. unfold persistence_mask. apply mask_fold_length.
  - apply repeat_length.
  - apply Forall_map. eapply Forall_impl; [exact Hwf|].
    intros c Hc. simpl. by rewrite length_map.
Qed.

Lemma persistence_mask_lookup (p : Pairs T) (e : nat) :
  pairs_wf p → (e < p_n p)%nat →
  persistence_mask p !! e = Some (flagged_edge p e).
Proof.
  intros Hwf He. unfold persistence_mask, flagged_edge.
  rewrite (mask_fold_lookup _ _ e false); [done|..].
  - rewrite <- (repeat_length false (p_n p)) in He.
    destruct (lookup_lt_is_Some_2 _ _ He) as [b Hb]. rewrite Hb.
    apply list_elem_of_lookup_2 in Hb. apply list_elem_of_In, repeat_spec in Hb.
    by subst.
  - eapply Forall_impl; [exact Hwf|]. intros c Hc. simpl in Hc. lia.
Qed.

(** Slicing both the rows and the mask and selecting by the mask is selecting
    the flagged positions of the range. *)
Lemma select_take_drop {A} (l : list A) (m : list bool) (a k : nat) :
  select (take k (drop a l)) (take k (drop a m)) =
  omap (λ e, match m !! e with Some true => l !! e | _ => None end) (seq a k).
Proof.
  revert a. induction k as [|k IH]; intros a; simpl.
  - reflexivity.
  - rewrite <- IH. destruct (l !! a) as [x|] eqn:Hl.
    + rewrite (drop_S _ _ _ Hl). destruct (m !! a) as [b|] eqn:Hm.
      * rewrite (drop_S _ _ _ Hm). simpl. by destruct b.
      * apply lookup_ge_None in Hm. rewrite (drop_ge m a) by done.
        rewrite (drop_ge m (S a)) by lia. simpl.
        rewrite take_nil. by destruct (take k (drop (S a) l)).
    + apply lookup_ge_None in Hl. rewrite (drop_ge l a) by done.
      rewrite (drop_ge l (S a)) by lia. rewrite !take_nil. simpl.
      by destruct (m !! a) as [[]|].
Qed.

Lemma omap_none_seq {B} (f : nat → option B) (a k : nat) :
  (∀ e, (a ≤ e)%nat → f e = None) → omap f (seq a k) = @nil B.
Proof.
  revert a. induction k as [|k IH]; intros a Hf; simpl; [done|].
  rewrite Hf by lia. apply IH. intros e He. apply Hf. lia.
Qed.

Lemma select_py_slice {A} (l : list A) (m : list bool) (lo hi : Z) :
  0 <= lo → 0 <= hi → length l = length m →
  select (py_slice l lo hi) (py_slice m lo hi) =
  omap (λ e, match m !! e with Some true => l !! e | _ => None end)
       (seq (Z.to_nat lo) (Z.to_nat hi - Z.to_nat lo)).
Proof.
  intros Hlo Hhi Hlen. unfold py_slice. rewrite <- Hlen.
  rewrite !py_bound_nonneg by done. rewrite select_take_drop.
  set (f := λ e, match m !! e with Some true => l !! e | _ => None end).
  assert (Hnone : ∀ e, (length l ≤ e)%nat → f e = None).
  { intros e He. unfold f. rewrite (lookup_ge_None_2 l e He).
    by destruct (m !! e) as [[]|]. }
  set (n := length l) in *. set (a := Z.to_nat lo). set (b := Z.to_nat hi).
  destruct (decide (n ≤ a)%nat) as [Ha|Ha].
  - rewrite (omap_none_seq f a) by (intros; apply Hnone; lia).
    apply omap_none_seq. intros e He. apply Hnone. lia.
  - destruct (decide (b ≤ n)%nat) as [Hb|Hb].
    + by replace (b `min` n - a `min` n)%nat with (b - a)%nat by lia;
         replace (a `min` n)%nat with a by lia.
    + replace (a `min` n)%nat with a by lia.
      replace (b `min` n - a)%nat with (n - a)%nat by lia.
      replace (b - a)%nat with ((n - a) + (b - n))%nat by lia.
      rewrite seq_app, omap_app.
      rewrite (omap_none_seq f (a + (n - a))) by (intros; apply Hnone; lia).
      by rewrite app_nil_r.
Qed.

Lemma py_slice_length {A B} (l : list A) (m : list B) (lo hi : Z) :
  length l = length m → length (py_slice l lo hi) = length (py_slice m lo hi).
Proof.
  intros Hlen. unfold py_slice. rewrite !length_take, !length_drop, Hlen. done.
Qed.

End CollapseProps.

Section CollapseTheorems.
Context {T : Type} `{Scalar T}.

Lemma omap_ext_in {A B} (f g : A → option B) (l : list A) :
  (∀ a, a ∈ l → f a = g a) → omap f l = omap g l.
Proof.
  induction l as [|a l IH]; intros Hfg; csimpl; [done|].
  rewrite (Hfg a) by constructor. rewrite IH; [done|].
  intros b Hb. apply Hfg. by constructor.
Qed.

(** One turn of the loop, for the mask that [forward] computes. *)
Lemma collapse_el_graph_sum (activations : Tensor2 T) (p : Pairs T)
    (slices : list Z) (g : nat) (lo hi : Z) :
  pairs_wf p → p_n p = t2_nrows activations →
  slices !! g = Some lo → slices !! S g = Some hi → 0 <= lo → 0 <= hi →
  collapse_el activations (persistence_mask p) slices g =
  Ok (graph_sum activations p (Z.to_nat lo) (Z.to_nat hi)).
Proof.
  intros Hwf Hn Hlo Hhi Hlo0 Hhi0. unfold collapse_el.
  rewrite (py_getitem_nat _ _ _ Hlo). simpl.
  replace (Z.of_nat g + 1) with (Z.of_nat (S g)) by lia.
  rewrite (py_getitem_nat _ _ _ Hhi). simpl.
  assert (Hlen : length (t2_rows activations) = length (persistence_mask p)).
  { rewrite persistence_mask_length by done. by rewrite Hn. }
  unfold mask_select. rewrite (py_slice_length _ _ _ _ Hlen), Nat.eqb_refl.
  simpl. rewrite select_py_slice by done. unfold graph_sum. do 2 f_equal.
  apply omap_ext_in. intros e _.
  destruct (decide (e < p_n p)%nat) as [He|He].
  - rewrite persistence_mask_lookup by done. by destruct (flagged_edge p e).
  - rewrite (lookup_ge_None_2 (t2_rows activations) e)
      by (unfold t2_nrows in Hn; lia).
    destruct (persistence_mask p !! e) as [[]|]; by destruct (flagged_edge p e).
Qed.

(** C3. For a batch of [G] graphs ([G] at least one, as every batch has) with
    [G + 1] edge-slice offsets, [collapse_dim1] of [models.py], called as
    [forward] calls it with the mask of the dim1 pairs, returns [G] rows, and
    row [g] is the sum of the activation rows of the flagged edges of graph
    [g]; an edge is flagged exactly when its pair differs from zero in some
    filtration or coordinate. *)
Theorem collapse_dim1_sums_flagged_edges (activations : Tensor2 T)
    (persistences1 : Pairs T) (slices : list Z) (G : nat) :
  length slices = S G → (1 ≤ G)%nat → Forall (λ s, 0 <= s) slices →
  pairs_wf persistences1 → p_n persistences1 = t2_nrows activations →
  ∃ collapsed,
    Models.collapse_dim1 activations (persistence_mask persistences1) slices
      = Ok collapsed
    ∧ t2_cols collapsed = t2_cols activations
    ∧ t2_nrows collapsed = G
    ∧ (∀ g lo hi, slices !! g = Some lo → slices !! S g = Some hi →
         t2_rows collapsed !! g =
         Some (graph_sum activations persistences1 (Z.to_nat lo) (Z.to_nat hi)))
    ∧ (∀ e, (e < p_n persistences1)%nat →
         persistence_mask persistences1 !! e = Some (flagged_edge persistences1 e))
    ∧ (∀ e, flagged_edge persistences1 e = true ↔
         ∃ pairs pr, pairs ∈ p_chan persistences1 ∧ pairs !! e = Some pr ∧
                     (s_nonzero (fst pr) = true ∨ s_nonzero (snd pr) = true)).
Proof.
  intros Hlen HG Hpos Hwf Hn.
  set (row := λ g, graph_sum activations persistences1
                     (Z.to_nat (slices !!! g)) (Z.to_nat (slices !!! S g))).
  assert (Hloop : res_mapM (collapse_el activations
                              (persistence_mask persistences1) slices)
                           (seq 0 (length slices - 1))
                  = Ok (map row (seq 0 G))).
  { rewrite Hlen. replace (S G - 1)%nat with G by lia.
    apply res_mapM_ok. intros g Hg. apply elem_of_seq in Hg.
    destruct (lookup_lt_is_Some_2 slices g) as [lo Hlo]; [lia|].
    destruct (lookup_lt_is_Some_2 slices (S g)) as [hi Hhi]; [lia|].
    unfold row. rewrite (list_lookup_total_correct _ _ _ Hlo).
    rewrite (list_lookup_total_correct _ _ _ Hhi).
    apply collapse_el_graph_sum; try done.
    - apply (Forall_lookup_1 _ _ _ _ Hpos Hlo).
    - apply (Forall_lookup_1 _ _ _ _ Hpos Hhi). }
  exists (T2 (t2_cols activations) (map row (seq 0 G))).
  split; [|split; [|split; [|split; [|split]]]].
  - unfold Models.collapse_dim1. rewrite Hloop. simpl.
    destruct G; [lia|]. reflexivity.
  - reflexivity.
  - unfold t2_nrows. simpl. by rewrite length_map, length_seq.
  - intros g lo hi Hlo Hhi. simpl.
    assert (g < G)%nat by (apply lookup_lt_Some in Hhi; lia).
    rewrite list_lookup_fmap, lookup_seq_lt by done. simpl. unfold row.
    rewrite (list_lookup_total_correct _ _ _ Hlo).
    by rewrite (list_lookup_total_correct _ _ _ Hhi).
  - intros e He. by apply persistence_mask_lookup.
  - intros e. apply flagged_edge_spec.
Qed.

(** C4. [collapse_dim1] of [topolayer.py] on a slices array of length one:
    the array is extended to length two by a 0 at its end, the only range
    [slices[0]:0] holds no edge, and the single row returned is a row of
    zeros, whatever the activations and the mask are. *)
Theorem collapse_dim1_single_offset (activations : Tensor2 T)
    (mask : list bool) (s0 : Z) :
  Topolayer.collapse_dim1 activations mask [s0] =
  Ok (T2 (t2_cols activations) [repeat s_zero (t2_cols activations)]).
Proof.
  unfold Topolayer.collapse_dim1. simpl. unfold collapse_el.
  change (py_getitem [s0; 0] (Z.of_nat 0)) with (Ok (A:=Z) s0).
  change (py_getitem [s0; 0] (Z.of_nat 0 + 1)) with (Ok (A:=Z) 0). simpl.
  rewrite !py_slice_stop_0. reflexivity.
Qed.

End CollapseTheorems.

(** The defect of C4 on a concrete input: two edges, both flagged, and the
    slices array [[2]] that [forward] builds when [batch] is [None]. The rows
    selected by the mask sum to [[3]]; the layer returns [[0]]. *)
Example collapse_dim1_single_offset_example :
  Topolayer.collapse_dim1 (T2 1 [[1]; [2]]) [true; true] [2]
    = Ok (T2 1 [[0]])
  ∧ sum_rows 1 (select [[1]; [2]] [true; true]) = [3].
Proof. split; reflexivity. Qed.

(** ** The offsets built when no batch is given *)

Section OffsetsWithoutBatch.
Context {T : Type} `{Scalar T}.

(** C8. With [batch=None], [compute_persistence] of [topolayer.py] hands on
    the one-element arrays [[N]] (the number of rows of [x]) and [[2]] (the
    first dimension of the edge index, whose shape is [2, E]) as vertex and
    edge slices. The edge slices never satisfy the packed-batch invariant,
    and the vertex slices satisfy it only for a graph without vertices:
    their first entry is not 0. *)
Theorem compute_persistence_offsets_without_batch (ext : Extern T)
    (l : Layer T) (x : Tensor2 T) (ei : EdgeIndex) (rf : bool) :
  Topolayer.compute_persistence ext l x (Some ei) None rf =
    (filtered_v_ ← compute_filtration l x;
     filtered_e_ ← compute_edge_filtration filtered_v_ ei;
     if fake l then
       fake_persistence_computation ext filtered_v_ ei
         [Z.of_nat (t2_nrows x)] [2] (map (λ _, 0) (ei_src ei))
     else
       pp ← compute_persistence_homology_batched_mt ext
              (MkEngineArgs (transpose filtered_v_) (transpose filtered_e_)
                            (edge_list ei) [Z.of_nat (t2_nrows x)] [2]);
       Ok (pp.1, pp.2, if rf then Some (transpose filtered_v_) else None))
  ∧ ¬ packed_invariant [2] (Z.of_nat (length (edge_list ei)))
  ∧ (packed_invariant [Z.of_nat (t2_nrows x)] (Z.of_nat (t2_nrows x))
     ↔ t2_nrows x = 0%nat).
Proof.
  split; [|split].
  - unfold Topolayer.compute_persistence. simpl.
    destruct (compute_filtration l x) as [fv|]; [|reflexivity]. simpl.
    destruct (compute_edge_filtration fv ei) as [fe|]; [|reflexivity]. simpl.
    destruct (fake l); [reflexivity|]. simpl.
    destruct (compute_persistence_homology_batched_mt _ _) as [[p0 p1]|];
      reflexivity.
  - intros (Hhead & _). simpl in Hhead. discriminate.
  - split.
    + intros (Hhead & _). simpl in Hhead. inversion Hhead. lia.
    + intros ->. split; [reflexivity|]. split; [reflexivity|].
      intros [|i] a b Ha Hb; simpl in *; discriminate.
Qed.

End OffsetsWithoutBatch.

(** ** The combiner of [forward] *)

Section Combiner.
Context {T : Type} `{Scalar T}.

Lemma linear_forward_shape (l : Linear T) (x y : Tensor2 T) :
  linear_forward l x = Ok y →
  t2_cols x = in_features l ∧ t2_cols y = out_features l.
Proof.
  unfold linear_forward. destruct (t2_cols x =? in_features l)%nat eqn:E;
    [|discriminate].
  intros Hy. inversion Hy; subst. simpl. split; [|reflexivity].
  by apply Nat.eqb_eq.
Qed.

Lemma bn_forward_cols (b : BatchNorm T) (x y : Tensor2 T) :
  bn_forward b x = Ok y → t2_cols y = t2_cols x.
Proof.
  unfold bn_forward. destruct (t2_cols x =? num_features b)%nat; [|discriminate].
  intros Hy. by inversion Hy.
Qed.

Lemma t2_add_cols (a b c : Tensor2 T) :
  t2_add a b = Ok c → t2_cols a = t2_cols b → t2_cols c = t2_cols a.
Proof.
  unfold t2_add. intros Hc Hab. rewrite <- Hab in Hc. unfold bdim at 2 in Hc.
  rewrite Nat.eqb_refl in Hc.
  destruct (bdim (t2_nrows a) (t2_nrows b)); [|discriminate].
  by inversion Hc.
Qed.

Lemma models_forward_inv (ext : Extern T) (l : Layer T) (x : Tensor2 T)
    (batch : Batch) (rf : bool) out g filt :
  Models.forward ext l x batch rf = Ok (out, g, filt) →
  ∃ batch' p0 p1,
    data_utils_remove_duplicate_edges ext batch = Ok batch'
    ∧ Models.compute_persistence ext l x batch' rf = Ok (p0, p1, filt)
    ∧ (residual_and_bn l = true →
         residual_output l x p0 out ∧ (dim1 l && dist_dim1 l = false))
    ∧ (dim1 l = true →
         ∃ es ga, slices_of batch' "edge_index" = Ok es
                  ∧ dim1_output Models.collapse_dim1 l p1 es ga
                  ∧ g = Some ga)
    ∧ (dim1 l = false → g = None).
Proof.
  intros Hf. unfold Models.forward in Hf.
  bind1 Hf batch' Hb. bind1 Hf pp Hp. destruct pp as [[p0 p1] filt'].
  bind1 Hf ca Hca. bind1 Hf g1 Hg1.
  exists batch', p0, p1.
  assert (Hg : (dim1 l = true →
                ∃ es ga, slices_of batch' "edge_index" = Ok es
                         ∧ dim1_output Models.collapse_dim1 l p1 es ga
                         ∧ g1 = Some ga)
               ∧ (dim1 l = false → g1 = None)).
  { destruct (dim1 l); split; try discriminate.
    - intros _. bind1 Hg1 ca1 Hca1. bind1 Hg1 es Hes. bind1 Hg1 ga Hga.
      inversion Hg1; subst.
      exists es, ga. split; [done|]. split; [|done]. by exists ca1.
    - intros _. by inversion Hg1. }
  clear Hg1. destruct Hg as [Hd1 Hd0].
  destruct (residual_and_bn l) eqn:Hres.
  - bind1 Hf proj Hproj. bind1 Hf og Hog. destruct og as [oa ga].
    bind1 Hf norm Hbn. bind1 Hf normalized Hnorm. bind1 Hf res Hadd.
    inversion Hf; subst; clear Hf.
    destruct (dim1 l && dist_dim1 l) eqn:Hdd.
    + exfalso. bind1 Hog o1 Ho1. bind1 Hog g' Hg'. bind1 Hog pj Hpj.
      bind1 Hog ix Hix. discriminate Hix.
    + inversion Hog; subst; clear Hog.
      split; [done|]. split; [done|]. split; [|done].
      intros _. split; [|done]. exists ca, oa, norm, normalized.
      split; [done|]. split; [done|]. split; [|done].
      destruct (bn l); simpl in Hbn; by inversion Hbn.
  - bind1 Hf cc Hcc. bind1 Hf oa Hoa. inversion Hf; subst; clear Hf.
    split; [done|]. split; [done|]. split; [discriminate|]. done.
Qed.

Lemma topolayer_forward_inv (ext : Extern T) (l : Layer T) (x : Tensor2 T)
    (edge_index : option EdgeIndex) (batch : option Batch) (rf : bool)
    out g filt :
  Topolayer.forward ext l x edge_index batch rf = Ok (out, g, filt) →
  ∃ es p0 p1,
    Topolayer.compute_persistence ext l x edge_index batch rf = Ok (p0, p1, filt)
    ∧ (residual_and_bn l = true →
         residual_output l x p0 out ∧ (dim1 l && dist_dim1 l = false))
    ∧ (dim1 l = true →
         ∃ ga, dim1_output Topolayer.collapse_dim1 l p1 es ga ∧ g = Some ga)
    ∧ (dim1 l = false → g = None).
Proof.
  intros Hf. unfold Topolayer.forward in Hf.
  bind1 Hf es Hes. bind1 Hf pp Hp. destruct pp as [[p0 p1] filt'].
  bind1 Hf ca Hca. bind1 Hf g1 Hg1.
  exists es, p0, p1.
  assert (Hg : (dim1 l = true →
                ∃ ga, dim1_output Topolayer.collapse_dim1 l p1 es ga
                      ∧ g1 = Some ga)
               ∧ (dim1 l = false → g1 = None)).
  { destruct (dim1 l); split; try discriminate.
    - intros _. bind1 Hg1 ca1 Hca1. bind1 Hg1 ga Hga.
      inversion Hg1; subst.
      exists ga. split; [|done]. by exists ca1.
    - intros _. by inversion Hg1. }
  clear Hg1. destruct Hg as [Hd1 Hd0].
  destruct (residual_and_bn l) eqn:Hres.
  - bind1 Hf proj Hproj. bind1 Hf og Hog. destruct og as [oa ga].
    bind1 Hf norm Hbn. bind1 Hf normalized Hnorm. bind1 Hf res Hadd.
    inversion Hf; subst; clear Hf.
    destruct (dim1 l && dist_dim1 l) eqn:Hdd.
    + exfalso. bind1 Hog o1 Ho1. bind1 Hog g' Hg'. bind1 Hog pj Hpj.
      bind1 Hog ix Hix. bind1 Hog oa' Hoa'.
      destruct batch; simpl in Hix; [discriminate|].
      inversion Hix; subst. discriminate Hoa'.
    + inversion Hog; subst; clear Hog.
      split; [done|]. split; [|done].
      intros _. split; [|done]. exists ca, oa, norm, normalized.
      split; [done|]. split; [done|]. split; [|done].
      destruct (bn l); simpl in Hbn; by inversion Hbn.
  - bind1 Hf cc Hcc. bind1 Hf oa Hoa. inversion Hf; subst; clear Hf.
    split; [done|]. split; [discriminate|]. done.
Qed.

End Combiner.

Section CombinerTheorems.
Context {T : Type} `{Scalar T}.

Lemma raises_iff_not_ok {A} (m : res A) : (∀ a, m ≠ Ok a) → raises m.
Proof. destruct m as [a|e]; intros Hm; [by destruct (Hm a)|by exists e]. Qed.

(** What [__init__] fixes: in the residual mode the output projection ends
    in [features_in] columns, whatever [features_out] is given. *)
Lemma init_modules_out {C} (p : Params T) (a : Args C) total mods :
  arg_residual_and_bn a = true →
  out_features (out (init_modules p a total mods)) = arg_features_in a
  ∧ residual_and_bn (init_modules p a total mods) = true.
Proof. intros Hres. unfold init_modules. rewrite Hres. by split. Qed.

Lemma filtnet_forward_cols (n : FiltNet T) (x y : Tensor2 T) :
  filtnet_forward n x = Ok y → t2_cols x = in_features (f_lin1 n).
Proof.
  unfold filtnet_forward. intros Hy. bind1 Hy h Hh.
  by apply linear_forward_shape in Hh as [? _].
Qed.

(** The filtration networks of [__init__] read [features_in] columns. *)
Lemma init_modules_filtration {C} (p : Params T) (a : Args C) total mods x fv :
  compute_filtration (init_modules p a total mods) x = Ok fv →
  t2_cols x = arg_features_in a.
Proof.
  unfold compute_filtration.
  assert (Hmods : filtration_modules (init_modules p a total mods) =
    if arg_share_filtration_parameters a
    then SharedFilt (mk_filtnet p None (arg_features_in a)
                       (arg_filtration_hidden a) (arg_num_filtrations a)
                       (arg_tanh_filtrations a))
    else ListFilt (map (λ k, mk_filtnet p (Some k) (arg_features_in a)
                               (arg_filtration_hidden a) 1
                               (arg_tanh_filtrations a))
                       (seq 0 (arg_num_filtrations a)))).
  { unfold init_modules. by destruct (arg_residual_and_bn a). }
  rewrite Hmods. destruct (arg_share_filtration_parameters a).
  - intros Hf. by apply filtnet_forward_cols in Hf.
  - intros Hf. bind1 Hf vs Hvs.
    destruct (arg_num_filtrations a) as [|n]; simpl in Hvs.
    + inversion Hvs; subst. discriminate Hf.
    + bind1 Hvs v Hv. by apply filtnet_forward_cols in Hv.
Qed.

Lemma residual_output_cols {C} (p : Params T) (a : Args C) total mods
    (x : Tensor2 T) p0 out_activations :
  arg_residual_and_bn a = true →
  t2_cols x = arg_features_in a →
  residual_output (init_modules p a total mods) x p0 out_activations →
  t2_cols out_activations = t2_cols x.
Proof.
  intros Hres Hx (ca & proj & norm & normalized & _ & Hproj & _ & Hnorm & Hadd).
  apply linear_forward_shape in Hproj as [_ Hproj].
  rewrite (proj1 (init_modules_out p a total mods Hres)) in Hproj.
  apply bn_forward_cols in Hnorm.
  apply t2_add_cols in Hadd; [done|].
  rewrite Hx, <- Hproj, <- Hnorm. by destruct (swap_bn_order _).
Qed.

Lemma models_persistence_filtration (ext : Extern T) l x batch rf r :
  Models.compute_persistence ext l x batch rf = Ok r →
  is_ok (compute_filtration l x).
Proof.
  unfold Models.compute_persistence. intros Hp. bind1 Hp fv Hfv. by exists fv.
Qed.

Lemma topolayer_persistence_filtration (ext : Extern T) l x ei batch rf r :
  Topolayer.compute_persistence ext l x ei batch rf = Ok r →
  is_ok (compute_filtration l x).
Proof.
  unfold Topolayer.compute_persistence. intros Hp.
  bind1 Hp e He. bind1 Hp fv Hfv. by exists fv.
Qed.

(** C5. In the residual mode, every call of [forward] that returns, in
    either file, returns as node embeddings [x] plus the normalised linear
    projection of the dim0 coordinate activations, with [relu] applied to the
    normalised projection before the addition exactly when [swap_bn_order] is
    set; the embeddings have the columns of [x], which are the [features_in]
    of the constructor, whatever [features_out] was given. *)
Theorem forward_residual_and_bn (ext : Extern T) (p : Params T)
    (am : Args (list (string * nat))) (ap : Args nat)
    (x : Tensor2 T) (batch : Batch)
    (edge_index : option EdgeIndex) (obatch : option Batch) (rf : bool) :
  arg_residual_and_bn am = true → arg_residual_and_bn ap = true →
  (∀ out g filt,
     Models.forward ext (Models.init p am) x batch rf = Ok (out, g, filt) →
     t2_cols out = t2_cols x ∧ t2_cols out = arg_features_in am
     ∧ ∃ batch' p0 p1,
         data_utils_remove_duplicate_edges ext batch = Ok batch'
         ∧ Models.compute_persistence ext (Models.init p am) x batch' rf
           = Ok (p0, p1, filt)
         ∧ residual_output (Models.init p am) x p0 out)
  ∧ (∀ out g filt,
       Topolayer.forward ext (Topolayer.init p ap) x edge_index obatch rf
         = Ok (out, g, filt) →
       t2_cols out = t2_cols x ∧ t2_cols out = arg_features_in ap
       ∧ ∃ p0 p1,
           Topolayer.compute_persistence ext (Topolayer.init p ap) x
             edge_index obatch rf = Ok (p0, p1, filt)
           ∧ residual_output (Topolayer.init p ap) x p0 out).
Proof.
  intros Hm Hp. split.
  - intros out g filt Hf.
    apply models_forward_inv in Hf as (b' & p0 & p1 & Hb & Hpers & Hres & _).
    unfold Models.init in *.
    destruct (Hres (proj2 (init_modules_out _ _ _ _ Hm))) as [Hout _].
    destruct (models_persistence_filtration _ _ _ _ _ _ Hpers) as [fv Hfv].
    apply init_modules_filtration in Hfv.
    pose proof (residual_output_cols _ _ _ _ _ _ _ Hm Hfv Hout) as Hc.
    split; [done|]. split; [congruence|]. by exists b', p0, p1.
  - intros out g filt Hf.
    apply topolayer_forward_inv in Hf as (es & p0 & p1 & Hpers & Hres & _).
    unfold Topolayer.init in *.
    destruct (Hres (proj2 (init_modules_out _ _ _ _ Hp))) as [Hout _].
    destruct (topolayer_persistence_filtration _ _ _ _ _ _ _ Hpers) as [fv Hfv].
    apply init_modules_filtration in Hfv.
    pose proof (residual_output_cols _ _ _ _ _ _ _ Hp Hfv Hout) as Hc.
    split; [done|]. split; [congruence|]. by exists p0, p1.
Qed.

(** C6. In the residual mode with [dim1] and [dist_dim1] both set, no call
    of [forward] returns, in either file: the projected dim1 activations are
    indexed with [batch], which is the batch object ([models.py]) or [None]
    ([topolayer.py]), not the vertex to graph membership [batch.batch]. *)
Theorem forward_dist_dim1_raises (ext : Extern T) (l : Layer T)
    (x : Tensor2 T) (batch : Batch)
    (edge_index : option EdgeIndex) (obatch : option Batch) (rf : bool) :
  residual_and_bn l = true → dim1 l = true → dist_dim1 l = true →
  raises (Models.forward ext l x batch rf)
  ∧ raises (Topolayer.forward ext l x edge_index obatch rf).
Proof.
  intros Hres Hd1 Hdd. split; apply raises_iff_not_ok; intros [[out g] filt] Hf.
  - apply models_forward_inv in Hf as (? & ? & ? & _ & _ & Hr & _).
    destruct (Hr Hres) as [_ Hc]. rewrite Hd1, Hdd in Hc. discriminate.
  - apply topolayer_forward_inv in Hf as (? & ? & ? & _ & Hr & _).
    destruct (Hr Hres) as [_ Hc]. rewrite Hd1, Hdd in Hc. discriminate.
Qed.

(** The second half of C6 holds: with [dim1] set and [dist_dim1] not set, a
    call of [forward] that returns hands the collapsed dim1 activations on,
    unchanged, as its second output. *)
Lemma forward_dim1_passes_through (ext : Extern T) (l : Layer T)
    (x : Tensor2 T) (batch : Batch) (rf : bool) out g filt :
  dim1 l = true → dist_dim1 l = false →
  Models.forward ext l x batch rf = Ok (out, g, filt) →
  ∃ batch' p0 p1 es ga,
    data_utils_remove_duplicate_edges ext batch = Ok batch'
    ∧ Models.compute_persistence ext l x batch' rf = Ok (p0, p1, filt)
    ∧ slices_of batch' "edge_index" = Ok es
    ∧ dim1_output Models.collapse_dim1 l p1 es ga
    ∧ g = Some ga.
Proof.
  intros Hd1 _ Hf.
  apply models_forward_inv in Hf as (b' & p0 & p1 & Hb & Hp & _ & Hg & _).
  destruct (Hg Hd1) as (es & ga & Hes & Hga & ->).
  exists b', p0, p1, es, ga. done.
Qed.

End CombinerTheorems.

(** ** [remove_duplicate_edges] on the heap *)

Section RemoveDuplicateEdges.
Context {T : Type} `{Scalar T}.

Lemma fresh_not_lookup {V} (m : gmap positive V) (i : positive) (v : V) :
  m !! i = Some v → i ≠ fresh (dom m).
Proof.
  intros Hi ->. apply (is_fresh (dom m)). by apply elem_of_dom_2 in Hi.
Qed.

(** The heap after [remove_duplicate_edges]: one new object and one new
    dictionary, at fresh references, and nothing else written. *)
Lemma remove_duplicate_edges_inv (h h' : Topolayer.Heap T) (b r : positive) :
  Topolayer.remove_duplicate_edges b h = Ok (r, h') →
  ∃ o d es ei' new_slices,
    Topolayer.h_objs h !! b = Some o
    ∧ Topolayer.h_dicts h !! Topolayer.o_slices o = Some d
    ∧ d !! "edge_index" = Some es
    ∧ dedup_values (Topolayer.o_edge_index o) es = Ok (ei', new_slices)
    ∧ r = fresh (dom (Topolayer.h_objs h))
    ∧ Topolayer.h_objs h' =
        <[r := Topolayer.MkBatchObj (Topolayer.o_x o) ei' (Topolayer.o_batch o)
                 (fresh (dom (Topolayer.h_dicts h)))]> (Topolayer.h_objs h)
    ∧ Topolayer.h_dicts h' =
        <[fresh (dom (Topolayer.h_dicts h)) := <["edge_index" := new_slices]> d]>
          (Topolayer.h_dicts h).
Proof.
  intros Hr. unfold Topolayer.remove_duplicate_edges in Hr.
  bind1 Hr c Hc. destruct c as [r1 h1].
  unfold Topolayer.clone in Hc. bind1 Hc o Ho. bind1 Hc d Hd.
  inversion Hc; subst r1 h1; clear Hc.
  destruct (Topolayer.h_objs h !! b) as [o'|] eqn:Hob; simpl in Ho;
    inversion Ho; subst o'; clear Ho.
  destruct (Topolayer.h_dicts h !! Topolayer.o_slices o) as [d'|] eqn:Hdi;
    simpl in Hd; inversion Hd; subst d'; clear Hd.
  bind1 Hr bt Hbt. unfold Topolayer.load in Hbt. simpl in Hbt.
  rewrite lookup_insert_eq in Hbt. simpl in Hbt.
  rewrite lookup_insert_eq in Hbt. simpl in Hbt.
  inversion Hbt; subst bt; clear Hbt.
  bind1 Hr es Hes. unfold slices_of in Hes. simpl in Hes.
  destruct (d !! "edge_index") as [es'|] eqn:Hde; simpl in Hes;
    inversion Hes; subst es'; clear Hes.
  bind1 Hr be Hbe. bind1 Hr ne Hne. bind1 Hr src Hsrc. bind1 Hr dst Hdst.
  simpl in Hsrc, Hdst, Hne.
  bind1 Hr h2 Hh2. unfold Topolayer.set_edge_index in Hh2. simpl in Hh2.
  rewrite lookup_insert_eq in Hh2. simpl in Hh2.
  inversion Hh2; subst h2; clear Hh2.
  bind1 Hr h3 Hh3. unfold Topolayer.set_slices in Hh3. simpl in Hh3.
  rewrite lookup_insert_eq in Hh3. simpl in Hh3.
  rewrite lookup_insert_eq in Hh3. simpl in Hh3.
  inversion Hh3; subst h3; clear Hh3.
  inversion Hr; subst r h'; clear Hr. simpl.
  exists o, d, es, (MkEdgeIndex src dst), (cumsum (0 :: ne)).
  split; [done|]. split; [done|]. split; [done|]. split.
  { unfold dedup_values. rewrite Hbe. simpl. rewrite Hne. simpl.
    rewrite Hsrc. simpl. rewrite Hdst. reflexivity. }
  split; [done|]. split.
  - by rewrite insert_insert_eq.
  - by rewrite insert_insert_eq.
Qed.

(** C9. [remove_duplicate_edges] works on a clone: the reference it returns
    is a new one, every object and every dictionary of the heap before the
    call is the same after it, and so the batch given reads as before (its
    edge index and its slices are those of before the call); the reduced
    edges and the rewritten slices are those of the clone returned. *)
Theorem remove_duplicate_edges_frame (h h' : Topolayer.Heap T) (b r : positive) :
  Topolayer.remove_duplicate_edges b h = Ok (r, h') →
  r ≠ b
  ∧ Topolayer.h_objs h !! r = None
  ∧ (∀ r0 o, Topolayer.h_objs h !! r0 = Some o →
             Topolayer.h_objs h' !! r0 = Some o)
  ∧ (∀ d0 d, Topolayer.h_dicts h !! d0 = Some d →
             Topolayer.h_dicts h' !! d0 = Some d)
  ∧ Topolayer.load h' b = Topolayer.load h b
  ∧ ∃ bt es ei' ns,
      Topolayer.load h b = Some bt
      ∧ b_slices bt !! "edge_index" = Some es
      ∧ dedup_values (b_edge_index bt) es = Ok (ei', ns)
      ∧ Topolayer.load h' r
        = Some (MkBatch ei' (b_batch bt) (<["edge_index" := ns]> (b_slices bt))).
Proof.
  intros Hr.
  apply remove_duplicate_edges_inv in Hr
    as (o & d & es & ei' & ns & Ho & Hd & Hes & Hv & -> & Hobjs & Hdicts).
  assert (Hframe_o : ∀ r0 o0, Topolayer.h_objs h !! r0 = Some o0 →
                              Topolayer.h_objs h' !! r0 = Some o0).
  { intros r0 o0 Hr0. rewrite Hobjs, lookup_insert_ne; [done|].
    apply not_eq_sym. by eapply fresh_not_lookup. }
  assert (Hframe_d : ∀ d0 d1, Topolayer.h_dicts h !! d0 = Some d1 →
                              Topolayer.h_dicts h' !! d0 = Some d1).
  { intros d0 d1 Hd0. rewrite Hdicts, lookup_insert_ne; [done|].
    apply not_eq_sym. by eapply fresh_not_lookup. }
  assert (Hload : Topolayer.load h b
                  = Some (MkBatch (Topolayer.o_edge_index o)
                                  (Topolayer.o_batch o) d)).
  { unfold Topolayer.load. rewrite Ho. simpl. by rewrite Hd. }
  split; [|split; [|split; [done|split; [done|split]]]].
  - apply not_eq_sym. by eapply fresh_not_lookup.
  - apply not_elem_of_dom. apply is_fresh.
  - unfold Topolayer.load. rewrite (Hframe_o _ _ Ho), Ho. simpl.
    by rewrite (Hframe_d _ _ Hd), Hd.
  - exists (MkBatch (Topolayer.o_edge_index o) (Topolayer.o_batch o) d),
           es, ei', ns.
    split; [done|]. split; [done|]. split; [done|].
    unfold Topolayer.load. rewrite Hobjs, lookup_insert_eq. simpl.
    by rewrite Hdicts, lookup_insert_eq.
Qed.

End RemoveDuplicateEdges.

(** ** The new edge slices: scatter, then cumulative sums *)

Lemma zsum_app (l k : list Z) : zsum (l ++ k) = zsum l + zsum k.
Proof. induction l as [|a l IH]; simpl; lia. Qed.

Lemma py_bound_minus1 (n : nat) : py_bound (S n) (-1) = n.
Proof.
  unfold py_bound. change (-1 <? 0) with true. cbv iota zeta. lia.
Qed.

Lemma slice_diffs (s : list Z) :
  zip_with Z.sub (py_slice s 1 (Z.of_nat (length s))) (py_slice s 0 (-1))
  = adjacent_diffs s.
Proof.
  unfold py_slice. destruct s as [|a s]; [reflexivity|].
  rewrite !py_bound_nonneg by lia.
  change (length (a :: s)) with (S (length s)).
  rewrite py_bound_minus1, Nat2Z.id, Nat.min_id.
  replace (Z.to_nat 1 `min` S (length s))%nat with 1%nat by lia.
  replace (Z.to_nat 0 `min` S (length s))%nat with 0%nat by lia.
  replace (S (length s) - 1)%nat with (length s) by lia.
  rewrite Nat.sub_0_r. simpl drop. rewrite (take_ge s) by done.
  revert a. induction s as [|b s IH]; intros a; [reflexivity|].
  simpl. f_equal. apply IH.
Qed.

Lemma seg_idx_interleave (k : nat) (ds : list Z) :
  concat (zip_with (λ v r, repeat v (Z.to_nat r)) (seq k (length ds)) ds)
  = seg_idx k ds.
Proof.
  revert k. induction ds as [|d ds IH]; intros k; [reflexivity|].
  simpl. f_equal. apply IH.
Qed.

Lemma seg_idx_length (k : nat) (ds : list Z) :
  length (seg_idx k ds) = edges_before ds (length ds).
Proof.
  revert k. induction ds as [|d ds IH]; intros k; [reflexivity|].
  simpl. rewrite length_app, repeat_length. f_equal. apply IH.
Qed.

Lemma seg_idx_bounds (k : nat) (ds : list Z) (i : nat) :
  i ∈ seg_idx k ds → (k ≤ i < k + length ds)%nat.
Proof.
  revert k. induction ds as [|d ds IH]; intros k; simpl.
  - by intros ?%elem_of_nil.
  - rewrite elem_of_app. intros [Hi|Hi].
    + apply list_elem_of_In, repeat_spec in Hi. lia.
    + apply IH in Hi. lia.
Qed.

(** Neighbours of a nondecreasing list differ by a non-negative amount, and
    the differences add up to the offsets. *)
Lemma adjacent_diffs_length (s : list Z) :
  length (adjacent_diffs s) = (length s - 1)%nat.
Proof.
  destruct s as [|a s]; [reflexivity|]. revert a.
  induction s as [|b s IH]; intros a; [reflexivity|].
  simpl in *. rewrite IH. lia.
Qed.

Lemma adjacent_diffs_nonneg (s : list Z) :
  nondecreasingb s = true → forallb (λ r, 0 <=? r) (adjacent_diffs s) = true.
Proof.
  destruct s as [|a s]; [reflexivity|]. revert a.
  induction s as [|b s IH]; intros a; [reflexivity|].
  simpl. intros [Hab Hs]%andb_true_iff. apply andb_true_iff. split.
  - apply Z.leb_le in Hab. apply Z.leb_le. lia.
  - by apply IH.
Qed.

Lemma edges_before_offsets (s : list Z) (a : Z) (g : nat) (b : Z) :
  nondecreasingb (a :: s) = true → (a :: s) !! g = Some b →
  Z.of_nat (edges_before (adjacent_diffs (a :: s)) g) = b - a.
Proof.
  revert a g. induction s as [|c s IH]; intros a g Hnd Hg.
  - destruct g as [|g]; simpl in *; [|discriminate]. inversion Hg. lia.
  - destruct g as [|g]; [simpl in *; inversion Hg; lia|].
    simpl in Hnd. apply andb_true_iff in Hnd as [Hac Hnd]. apply Z.leb_le in Hac.
    change (adjacent_diffs (a :: c :: s)) with ((c - a) :: adjacent_diffs (c :: s)).
    cbn [edges_before]. simpl in Hg.
    specialize (IH c g Hnd Hg). lia.
Qed.

Lemma packed_invariantb_inv (s : list Z) (total : Z) :
  packed_invariantb s total = true →
  ∃ s', s = 0 :: s' ∧ last s = Some total ∧ nondecreasingb s = true.
Proof.
  unfold packed_invariantb. destruct s as [|a s]; [discriminate|].
  simpl head. destruct (last (a :: s)) as [b|]; [|discriminate].
  intros [[Ha Hb]%andb_true_iff Hnd]%andb_true_iff.
  apply Z.eqb_eq in Ha, Hb. subst. eauto.
Qed.

Lemma packed_invariant_b (s : list Z) (total : Z) :
  packed_invariant s total → packed_invariantb s total = true.
Proof.
  intros (Hh & Hl & Hnd). unfold packed_invariantb. rewrite Hh, Hl.
  rewrite !Z.eqb_refl. simpl. clear Hh Hl.
  induction s as [|a s IH]; [reflexivity|].
  destruct s as [|b s]; [reflexivity|].
  change (nondecreasingb (a :: b :: s))
    with ((a <=? b) && nondecreasingb (b :: s)).
  apply andb_true_iff. split.
  - apply Z.leb_le. by apply (Hnd 0%nat).
  - apply IH. intros i x y Hx Hy. by apply (Hnd (S i)).
Qed.

Lemma sum_sel_nil (p : nat → bool) (idx : list nat) : sum_sel p idx [] = 0.
Proof. by destruct idx. Qed.

Lemma scatter_fold_length (l : list (nat * Z)) (out : list Z) :
  length (fold_left (λ out (ix : nat * Z), alter (Z.add (snd ix)) (fst ix) out)
                    l out) = length out.
Proof.
  revert out. induction l as [|[i s] l IH]; intros out; simpl; [done|].
  by rewrite IH, length_alter.
Qed.

Lemma scatter_fold_lookup (idx : list nat) (src out : list Z) (k : nat) :
  fold_left (λ out (ix : nat * Z), alter (Z.add (snd ix)) (fst ix) out)
            (zip idx src) out !! k
  = (λ v, v + sum_sel (λ i, i =? k)%nat idx src) <$> out !! k.
Proof.
  revert src out. induction idx as [|i idx IH]; intros src out.
  - simpl. destruct (out !! k); simpl; f_equal; lia.
  - destruct src as [|s src].
    + simpl. destruct (out !! k); simpl; f_equal; lia.
    + simpl. rewrite IH, list_lookup_alter. destruct (decide (i = k)) as [->|Hik].
      * rewrite Nat.eqb_refl. destruct (out !! k); simpl; f_equal; lia.
      * apply Nat.eqb_neq in Hik. rewrite Hik.
        destruct (out !! k); simpl; f_equal; lia.
Qed.

Lemma cumsum_from_length (acc : Z) (l : list Z) :
  length (cumsum_from acc l) = length l.
Proof. revert acc. induction l as [|z l IH]; intros acc; simpl; by rewrite ?IH. Qed.

Lemma cumsum_from_lookup (acc : Z) (l : list Z) (g : nat) :
  (g < length l)%nat →
  cumsum_from acc l !! g = Some (acc + zsum (take (S g) l)).
Proof.
  revert acc g. induction l as [|z l IH]; intros acc g Hg; simpl in Hg; [lia|].
  destruct g as [|g].
  - simpl. rewrite ?take_0. simpl. f_equal. lia.
  - cbn [cumsum_from lookup list_lookup]. rewrite IH by lia.
    f_equal. change (take (S (S g)) (z :: l)) with (z :: take (S g) l).
    simpl zsum. lia.
Qed.

Lemma sum_sel_lt_S (g : nat) (idx : list nat) (src : list Z) :
  sum_sel (λ i, i <? S g)%nat idx src
  = sum_sel (λ i, i <? g)%nat idx src + sum_sel (λ i, i =? g)%nat idx src.
Proof.
  revert src. induction idx as [|i idx IH]; intros [|s src]; simpl; try lia.
  rewrite IH.
  destruct (i <? S g)%nat eqn:E1, (i <? g)%nat eqn:E2, (i =? g)%nat eqn:E3;
    try lia;
    apply Nat.ltb_lt in E1 || apply Nat.ltb_ge in E1;
    apply Nat.ltb_lt in E2 || apply Nat.ltb_ge in E2;
    apply Nat.eqb_eq in E3 || apply Nat.eqb_neq in E3; lia.
Qed.

Lemma zsum_take_scatter (idx : list nat) (src out : list Z) (g : nat) :
  (∀ i, (i < g)%nat → out !! i = Some (sum_sel (λ j, j =? i)%nat idx src)) →
  zsum (take g out) = sum_sel (λ i, i <? g)%nat idx src.
Proof.
  induction g as [|g IH]; intros Hout.
  - rewrite take_0. simpl. clear. revert src.
    induction idx as [|i idx IH]; intros [|s src]; simpl; try done.
    rewrite <- IH. done.
  - rewrite (take_S_r _ _ _ (Hout g (Nat.lt_succ_diag_r g))).
    rewrite zsum_app, sum_sel_lt_S, IH by (intros; apply Hout; lia).
    simpl. lia.
Qed.

Lemma sum_sel_repeat_app (p : nat → bool) (k c : nat) (rest : list nat)
    (src : list Z) :
  sum_sel p (repeat k c ++ rest) src
  = (if p k then zsum (take c src) else 0) + sum_sel p rest (drop c src).
Proof.
  revert src. induction c as [|c IH]; intros src.
  - simpl. rewrite ?take_0. simpl. by destruct (p k).
  - destruct src as [|s src].
    + simpl. rewrite sum_sel_nil. by destruct (p k).
    + simpl. rewrite IH. destruct (p k); lia.
Qed.

Lemma sum_sel_seg (ds : list Z) (k : nat) (src : list Z) (g : nat) :
  sum_sel (λ i, i <? g)%nat (seg_idx k ds) src
  = zsum (take (edges_before ds (g - k)) src).
Proof.
  revert k src. induction ds as [|d ds IH]; intros k src.
  - simpl. by destruct (g - k)%nat.
  - simpl seg_idx. rewrite sum_sel_repeat_app, IH.
    destruct (k <? g)%nat eqn:E.
    + apply Nat.ltb_lt in E.
      replace (g - k)%nat with (S (g - S k)) by lia. cbn [edges_before].
      by rewrite <- take_take_drop, zsum_app.
    + apply Nat.ltb_ge in E.
      replace (g - k)%nat with 0%nat by lia.
      replace (g - S k)%nat with 0%nat by lia. simpl.
      destruct ds; by rewrite ?take_0.
Qed.

Lemma sum_sel_all (p : nat → bool) (idx : list nat) (src : list Z) :
  (∀ i, i ∈ idx → p i = true) → length idx = length src →
  sum_sel p idx src = zsum src.
Proof.
  revert src. induction idx as [|i idx IH]; intros [|s src] Hp Hlen;
    simpl in *; try done.
  rewrite (Hp i) by constructor. f_equal. apply IH; [|lia].
  intros j Hj. apply Hp. by constructor.
Qed.

Lemma scatter_sum_spec (src : list Z) (idx : list nat) :
  length idx = length src →
  ∃ out, scatter_sum src idx = Ok out
         ∧ length out = scatter_size idx
         ∧ ∀ i, (i < scatter_size idx)%nat →
                out !! i = Some (sum_sel (λ j, j =? i)%nat idx src).
Proof.
  intros Hlen. unfold scatter_sum. rewrite Hlen, Nat.eqb_refl.
  eexists. split; [reflexivity|]. fold (scatter_size idx). split.
  - by rewrite scatter_fold_length, repeat_length.
  - intros i Hi. rewrite scatter_fold_lookup.
    assert (Hi' : repeat 0 (scatter_size idx) !! i = Some 0).
    { rewrite <- (repeat_length 0 (scatter_size idx)) in Hi.
      destruct (lookup_lt_is_Some_2 _ _ Hi) as [z Hz]. rewrite Hz.
      apply list_elem_of_lookup_2, list_elem_of_In, repeat_spec in Hz.
      by subst. }
    by rewrite Hi'.
Qed.

Lemma cumsum_scatter (out : list Z) :
  length (cumsum (0 :: out)) = S (length out)
  ∧ head (cumsum (0 :: out)) = Some 0
  ∧ ∀ g, (g ≤ length out)%nat →
         cumsum (0 :: out) !! g = Some (zsum (take g out)).
Proof.
  unfold cumsum. split; [|split].
  - by rewrite cumsum_from_length.
  - reflexivity.
  - intros g Hg. rewrite cumsum_from_lookup by (simpl; lia).
    f_equal; change (take (S g) (0 :: out)) with (0 :: take g out);
      simpl; lia.
Qed.

Lemma scatter_size_bound (k : nat) (ds : list Z) :
  (scatter_size (seg_idx k ds) ≤ k + length ds)%nat.
Proof.
  unfold scatter_size. destruct (seg_idx k ds) as [|i idx] eqn:E; [lia|].
  assert (Hin : max_list (i :: idx) ∈ seg_idx k ds).
  { rewrite E. by apply max_list_elem_of. }
  apply seg_idx_bounds in Hin. lia.
Qed.

Lemma scatter_size_above (idx : list nat) (i : nat) :
  i ∈ idx → (i < scatter_size idx)%nat.
Proof.
  intros Hi. unfold scatter_size. destruct idx as [|j idx].
  - by apply elem_of_nil in Hi.
  - apply max_list_elem_of_le in Hi. lia.
Qed.

Lemma seg_idx_elem (k : nat) (ds : list Z) (j : nat) (d : Z) :
  ds !! j = Some d → 0 < d → (k + j)%nat ∈ seg_idx k ds.
Proof.
  revert k j. induction ds as [|d0 ds IH]; intros k j Hj Hd; [done|].
  simpl. apply elem_of_app. destruct j as [|j]; simpl in Hj.
  - inversion Hj; subst. left. rewrite Nat.add_0_r.
    destruct (Z.to_nat d) eqn:E; [lia|]. simpl. by left.
  - right. replace (k + S j)%nat with (S k + j)%nat by lia. by apply IH.
Qed.

Lemma zip_select_canonical (src dst : list Z) :
  zip (select src (zip_with Z.leb src dst)) (select dst (zip_with Z.leb src dst))
  = filter canonical (zip src dst).
Proof.
  revert dst. induction src as [|u src IH]; intros [|v dst]; try done.
  simpl. rewrite filter_cons. destruct (Z.leb_spec u v) as [Huv|Huv].
  - rewrite decide_True by done. simpl. by rewrite IH.
  - rewrite decide_False by (unfold canonical; simpl; lia). apply IH.
Qed.

Lemma zsum_canonical (src dst : list Z) (k : nat) :
  zsum (take k (map long_of_bool (zip_with Z.leb src dst)))
  = Z.of_nat (length (filter canonical (take k (zip src dst)))).
Proof.
  revert dst k. induction src as [|u src IH]; intros [|v dst] [|k]; try done.
  simpl. rewrite filter_cons, IH. destruct (Z.leb_spec u v) as [Huv|Huv].
  - rewrite decide_True by done. simpl. lia.
  - rewrite decide_False by (unfold canonical; simpl; lia). simpl. lia.
Qed.

Lemma adjacent_diffs_lookup (s : list Z) (j : nat) (a b : Z) :
  s !! j = Some a → s !! S j = Some b → adjacent_diffs s !! j = Some (b - a).
Proof.
  revert j. induction s as [|x s IH]; intros j Ha Hb; [done|].
  destruct s as [|y s]; [done|].
  change (adjacent_diffs (x :: y :: s)) with ((y - x) :: adjacent_diffs (y :: s)).
  destruct j as [|j]; simpl in *.
  - by inversion Ha; inversion Hb.
  - by apply IH.
Qed.

(** What [remove_duplicate_edges] computes on a well-formed batch. *)
Lemma dedup_values_spec (ei : EdgeIndex) (es : list Z) :
  length (ei_src ei) = length (ei_dst ei) →
  packed_invariant es (Z.of_nat (length (ei_src ei))) →
  ∃ ei' ns,
    dedup_values ei es = Ok (ei', ns)
    ∧ edge_list ei' = filter canonical (edge_list ei)
    ∧ head ns = Some 0
    ∧ last ns = Some (Z.of_nat (length (edge_list ei')))
    ∧ (length ns ≤ length es)%nat
    ∧ (∀ g n, ns !! g = Some n →
         ∃ s, es !! g = Some s ∧
              n = Z.of_nat (length (filter canonical
                                      (take (Z.to_nat s) (edge_list ei)))))
    ∧ (∀ a b, es !! (length es - 2)%nat = Some a → last es = Some b →
              a < b → length ns = length es).
Proof.
  intros Hlen Hinv.
  pose proof (packed_invariant_b _ _ Hinv) as Hb.
  apply packed_invariantb_inv in Hb as (s' & -> & Hlast & Hnd).
  set (es := 0 :: s') in *. set (ds := adjacent_diffs es).
  set (keep := zip_with Z.leb (ei_src ei) (ei_dst ei)).
  set (src := map long_of_bool keep).
  set (idx := seg_idx 0 ds).
  assert (Hds : length ds = length s').
  { unfold ds. rewrite adjacent_diffs_length. simpl. lia. }
  assert (Hkeep : length keep = length (ei_src ei)).
  { unfold keep. rewrite length_zip_with. lia. }
  assert (Hoff : ∀ g s, es !! g = Some s → Z.of_nat (edges_before ds g) = s).
  { intros g s Hg. unfold ds, es. rewrite (edges_before_offsets _ _ _ _ Hnd Hg).
    lia. }
  assert (Hidx : length idx = length src).
  { unfold idx, src. rewrite seg_idx_length, length_map, Hkeep, Hds.
    rewrite last_lookup in Hlast. simpl in Hlast.
    apply Hoff in Hlast. lia. }
  destruct (scatter_sum_spec src idx Hidx) as (out & Hout & Hosz & Holk).
  destruct (cumsum_scatter out) as (Hnl & Hnh & Hnk).
  assert (Hsz : (scatter_size idx ≤ length ds)%nat)
    by apply (scatter_size_bound 0 ds).
  exists (MkEdgeIndex (select (ei_src ei) keep) (select (ei_dst ei) keep)),
         (cumsum (0 :: out)).
  assert (Hentry : ∀ g, (g ≤ scatter_size idx)%nat →
            cumsum (0 :: out) !! g =
            Some (zsum (take (edges_before ds g) src))).
  { intros g Hg. rewrite Hnk by lia. f_equal.
    rewrite (zsum_take_scatter idx src) by (intros; apply Holk; lia).
    unfold idx. rewrite sum_sel_seg. by rewrite Nat.sub_0_r. }
  split; [|split; [|split; [|split; [|split; [|split]]]]].
  - unfold dedup_values. rewrite slice_diffs. fold es ds.
    unfold repeat_interleave, arange. rewrite length_seq, Nat.eqb_refl.
    unfold ds at 1. rewrite (adjacent_diffs_nonneg _ Hnd). simpl andb. cbv iota.
    rewrite seg_idx_interleave. fold ds idx. simpl mbind at 1.
    change (res_bind _ _ ?f (Ok ?a)) with (f a). cbv beta.
    fold keep src. rewrite Hout.
    change (res_bind _ _ ?f (Ok ?a)) with (f a). cbv beta.
    unfold mask_select. rewrite Hkeep, Nat.eqb_refl, <- Hlen, Nat.eqb_refl.
    reflexivity.
  - unfold edge_list. simpl. apply zip_select_canonical.
  - exact Hnh.
  - rewrite last_lookup, Hnl. simpl pred. rewrite Hosz.
    rewrite Hnk by lia. f_equal. rewrite <- Hosz.
    rewrite (zsum_take_scatter idx src) by (intros; apply Holk; lia).
    rewrite sum_sel_all; [|intros i Hi; apply Nat.ltb_lt; rewrite Hosz;
                            by apply scatter_size_above|done].
    unfold edge_list, src, keep. simpl. rewrite zip_select_canonical.
    rewrite <- (take_ge (map long_of_bool _) (length (zip (ei_src ei) (ei_dst ei)))).
    + rewrite zsum_canonical. by rewrite take_ge.
    + rewrite length_map, length_zip_with, length_zip. lia.
  - rewrite Hnl, Hosz. unfold es. simpl. lia.
  - intros g n Hg.
    assert (Hgs : (g ≤ scatter_size idx)%nat).
    { apply lookup_lt_Some in Hg. rewrite Hnl, Hosz in Hg. lia. }
    destruct (lookup_lt_is_Some_2 es g) as [s Hs]; [unfold es; simpl; lia|].
    exists s. split; [done|]. rewrite Hentry in Hg by done.
    inversion Hg; subst n. unfold src, keep, edge_list.
    rewrite zsum_canonical. apply Hoff in Hs.
    by replace (Z.to_nat s) with (edges_before ds g) by lia.
  - intros a b Ha Hbl Hab. rewrite Hnl, Hosz.
    rewrite last_lookup in Hbl.
    assert (Hes : length es = S (length s')) by done.
    rewrite Hes in *. simpl pred in Hbl.
    destruct (decide (length s' = 0)%nat) as [Hz|Hz].
    { rewrite Hz in Ha, Hbl. unfold es in Ha, Hbl. simpl in Ha, Hbl.
      inversion Ha; inversion Hbl; lia. }
    assert (Hd : ds !! (length s' - 1)%nat = Some (b - a)).
    { apply adjacent_diffs_lookup.
      - rewrite <- Ha. f_equal; lia.
      - rewrite <- Hbl. f_equal; lia. }
    assert (Hin : (0 + (length s' - 1))%nat ∈ idx).
    { unfold idx. eapply seg_idx_elem; [exact Hd|lia]. }
    apply scatter_size_above in Hin. lia.
Qed.

(** ** Removing duplicate edges before the persistence computation *)

Section DedupTheorems.
Context {T : Type} `{Scalar T}.



Lemma load_inv (h : Topolayer.Heap T) (b : positive) (bt : Batch) :
  Topolayer.load h b = Some bt →
  ∃ o d, Topolayer.h_objs h !! b = Some o
         ∧ Topolayer.h_dicts h !! Topolayer.o_slices o = Some d
         ∧ bt = MkBatch (Topolayer.o_edge_index o) (Topolayer.o_batch o) d.
Proof.
  unfold Topolayer.load. intros Hl.
  destruct (Topolayer.h_objs h !! b) as [o|] eqn:Ho; [|discriminate].
  simpl in Hl.
  destruct (Topolayer.h_dicts h !! Topolayer.o_slices o) as [d|] eqn:Hd;
    [|discriminate].
  simpl in Hl. inversion Hl; subst. by exists o, d.
Qed.

(** Totality of [remove_duplicate_edges]: it returns whenever the values it
    computes exist, and the clone it returns reads as those values. *)
Lemma remove_duplicate_edges_ok (h : Topolayer.Heap T) (b : positive)
    (bt : Batch) (es : list Z) (ei' : EdgeIndex) (ns : list Z) :
  Topolayer.load h b = Some bt →
  b_slices bt !! "edge_index" = Some es →
  dedup_values (b_edge_index bt) es = Ok (ei', ns) →
  ∃ r h', Topolayer.remove_duplicate_edges b h = Ok (r, h')
          ∧ Topolayer.load h' r
            = Some (MkBatch ei' (b_batch bt)
                            (<["edge_index" := ns]> (b_slices bt))).
Proof.
  intros Hl Hes Hv. apply load_inv in Hl as (o & d & Ho & Hd & ->).
  simpl in *. unfold dedup_values in Hv.
  bind1 Hv be Hbe. bind1 Hv ne Hne. bind1 Hv src Hsrc. bind1 Hv dst Hdst.
  inversion Hv; subst ei' ns; clear Hv.
  unfold Topolayer.remove_duplicate_edges, Topolayer.clone.
  rewrite Ho. cbn [of_option mbind res_bind]. rewrite Hd.
  cbn [of_option mbind res_bind]. unfold Topolayer.load at 1.
  cbn [Topolayer.h_objs Topolayer.h_dicts]. rewrite lookup_insert_eq.
  cbn [mbind option_bind Topolayer.o_slices]. rewrite lookup_insert_eq.
  cbn [mbind option_bind of_option res_bind Topolayer.o_edge_index
       Topolayer.o_batch].
  unfold slices_of. cbn [b_slices b_edge_index]. rewrite Hes.
  cbn [of_option mbind res_bind]. rewrite Hbe. cbn [mbind res_bind].
  rewrite Hne. cbn [mbind res_bind]. rewrite Hsrc. cbn [mbind res_bind].
  rewrite Hdst. cbn [mbind res_bind].
  unfold Topolayer.set_edge_index. cbn [Topolayer.h_objs Topolayer.h_dicts].
  rewrite lookup_insert_eq. cbn [of_option mbind res_bind].
  unfold Topolayer.set_slices. cbn [Topolayer.h_objs Topolayer.h_dicts].
  rewrite lookup_insert_eq.
  cbn [of_option mbind res_bind Topolayer.o_slices]. rewrite lookup_insert_eq.
  cbn [of_option mbind res_bind]. eexists _, _. split; [reflexivity|].
  unfold Topolayer.load. cbn [Topolayer.h_objs Topolayer.h_dicts].
  rewrite lookup_insert_eq. cbn [mbind option_bind Topolayer.o_slices].
  rewrite lookup_insert_eq. reflexivity.
Qed.


End DedupTheorems.

(** ** Graphs without edges *)

Section EdgelessGraphs.
Context {T : Type} `{Scalar T}.

Lemma persistence_graph_no_edge (fv fe : list T) (edges : list (Z * Z))
    (vb ve eb : nat) :
  Engine.persistence_graph fv fe edges vb ve eb eb
  = (map (λ v, (Engine.birth fv v, Engine.birth fv v)) (seq vb (ve - vb)), []).
Proof.
  unfold Engine.persistence_graph, Engine.graph_edges.
  rewrite Nat.sub_diag. simpl.
  f_equal; apply map_ext; intros v; by rewrite lookup_empty.
Qed.

Lemma persistence_channel_no_edge (fv fe : list T) (V : nat) :
  Engine.persistence_channel [0; Z.of_nat V] [0; 0] [] fv fe
  = (map (λ v, (Engine.birth fv v, Engine.birth fv v)) (seq 0 V), []).
Proof.
  unfold Engine.persistence_channel, Engine.ranges.
  cbn [map tail zip_with fst snd concat]. rewrite Nat2Z.id.
  change (Z.to_nat 0) with 0%nat.
  rewrite (persistence_graph_no_edge fv fe [] 0 V 0).
  cbn [map fst snd concat]. by rewrite Nat.sub_0_r, app_nil_r.
Qed.

Lemma validate_no_edge (fv fe : Tensor2 T) :
  t2_nrows fe = t2_nrows fv → t2_cols fe = 0%nat →
  Engine.validate
    (MkEngineArgs fv fe [] [0; Z.of_nat (t2_cols fv)] [0; 0]) = true.
Proof.
  intros Hrows Hcols. unfold Engine.validate, packed_invariantb. simpl.
  rewrite Hrows, Hcols, Z.eqb_refl, !Nat.eqb_refl. simpl.
  rewrite !andb_true_r. apply Z.leb_le. lia.
Qed.

(** C7. A graph with [V] vertices and no edge: the persistence computation
    returns, its dim0 output has [V] pairs in every filtration, the pair of a
    vertex being its own filtration value twice, and its dim1 output holds no
    pair that differs from zero (it holds no pair). The same holds for a
    graph without edges inside any batch, whose pairs are those of
    [persistence_graph]. *)
Theorem persistence_of_edgeless_graph (fv fe : Tensor2 T) :
  t2_nrows fe = t2_nrows fv → t2_cols fe = 0%nat →
  (∃ p0 p1,
     Engine.compute_persistence_homology_batched_mt
       (MkEngineArgs fv fe [] [0; Z.of_nat (t2_cols fv)] [0; 0]) = Ok (p0, p1)
     ∧ p_n p0 = t2_cols fv
     ∧ length (p_chan p0) = t2_nrows fv
     ∧ (∀ f pairs, p_chan p0 !! f = Some pairs →
          length pairs = t2_cols fv
          ∧ ∀ v a, entry fv f v = Some a → (v < t2_cols fv)%nat →
                   pairs !! v = Some (a, a))
     ∧ length (p_chan p1) = t2_nrows fv
     ∧ (∀ f pairs, p_chan p1 !! f = Some pairs → pairs = [])
     ∧ (∀ e, flagged_edge p1 e = false))
  ∧ (∀ (fvc fec : list T) (edges : list (Z * Z)) (vb ve eb : nat),
       Engine.persistence_graph fvc fec edges vb ve eb eb
       = (map (λ v, (Engine.birth fvc v, Engine.birth fvc v))
              (seq vb (ve - vb)), [])).
Proof.
  intros Hrows Hcols. split; [|intros; apply persistence_graph_no_edge].
  unfold Engine.compute_persistence_homology_batched_mt.
  rewrite (validate_no_edge _ _ Hrows Hcols).
  cbn [a_filtered_v a_filtered_e a_vertex_slices a_edge_slices a_edge_index].
  set (V := t2_cols fv).
  set (chans := zip_with (Engine.persistence_channel [0; Z.of_nat V] [0; 0] [])
                         (t2_rows fv) (t2_rows fe)).
  assert (Hlen : length chans = t2_nrows fv).
  { unfold chans. rewrite length_zip_with. unfold t2_nrows in *. lia. }
  assert (Hchan : ∀ f c, chans !! f = Some c →
            ∃ row, t2_rows fv !! f = Some row ∧
                   c = (map (λ v, (Engine.birth row v, Engine.birth row v))
                            (seq 0 V), [])).
  { intros f c Hc. unfold chans in Hc. rewrite lookup_zip_with in Hc.
    destruct (t2_rows fv !! f) as [row|]; [|discriminate]. simpl in Hc.
    destruct (t2_rows fe !! f) as [rowe|]; [|discriminate]. simpl in Hc.
    inversion Hc. exists row. split; [done|]. apply persistence_channel_no_edge. }
  eexists _, _. split; [reflexivity|]. cbn [p_n p_chan].
  split; [done|]. split; [by rewrite length_map|]. split; [|split; [|split]].
  - intros f pairs Hp. rewrite list_lookup_fmap in Hp.
    destruct (chans !! f) as [c|] eqn:Hc; [|discriminate]. simpl in Hp.
    inversion Hp; subst pairs; clear Hp.
    destruct (Hchan _ _ Hc) as (row & Hrow & ->). simpl. split.
    + by rewrite length_map, length_seq.
    + intros v a Ha Hv. unfold entry in Ha. rewrite Hrow in Ha. simpl in Ha.
      rewrite list_lookup_fmap, lookup_seq_lt by done. simpl.
      unfold Engine.birth. by rewrite Ha.
  - by rewrite length_map.
  - intros f pairs Hp. rewrite list_lookup_fmap in Hp.
    destruct (chans !! f) as [c|] eqn:Hc; [|discriminate]. simpl in Hp.
    inversion Hp; subst pairs; clear Hp.
    by destruct (Hchan _ _ Hc) as (row & Hrow & ->).
  - intros e. destruct (flagged_edge _ e) eqn:Hfl; [|done].
    apply flagged_edge_spec in Hfl as (pairs & pr & Hin & Hpr & _).
    cbn [p_chan] in Hin. apply list_elem_of_lookup in Hin as [f Hf].
    rewrite list_lookup_fmap in Hf.
    destruct (chans !! f) as [c|] eqn:Hc; [|discriminate]. simpl in Hf.
    inversion Hf; subst pairs.
    destruct (Hchan _ _ Hc) as (row & Hrow & ->). simpl in Hpr. discriminate.
Qed.

End EdgelessGraphs.

(** ** The two implementations side by side *)

Section TwoImplementations.
Context {T : Type} `{Scalar T}.

Lemma topolayer_forward_batch_raises (ext : Extern T) (l : Layer T)
    (x : Tensor2 T) (edge_index : option EdgeIndex) (b : Batch) (rf : bool) :
  raises (Topolayer.forward ext l x edge_index (Some b) rf).
Proof.
  apply raises_iff_not_ok. intros [[out g] filt] Hf.
  apply topolayer_forward_inv in Hf as (es & p0 & p1 & Hp & _).
  unfold Topolayer.compute_persistence in Hp.
  bind1 Hp ei Hei. bind1 Hp fv Hfv. bind1 Hp fe Hfe.
  destruct (fake l); bind1 Hp loc Hloc; discriminate Hloc.
Qed.

Lemma collapse_dim1_agree (activations : Tensor2 T) (mask : list bool)
    (slices : list Z) :
  length slices ≠ 1%nat →
  Models.collapse_dim1 activations mask slices
  = Topolayer.collapse_dim1 activations mask slices.
Proof.
  intros Hlen. unfold Models.collapse_dim1, Topolayer.collapse_dim1.
  apply Nat.eqb_neq in Hlen. by rewrite Hlen.
Qed.

(** C10. The two classes do not compute the same outputs on a batch:
    [forward] of [topolayer.py] returns for no batch object, whatever the
    layer, the input and the persistence computation. Its
    [compute_persistence] binds the slice offsets only when [batch] is
    [None] (the branch that reads them from the batch is commented out), so
    once the offsets of the batch are read, the filtration and the edge
    filtration are computed, the call ends in [UnboundLocalError]. On the
    triangle batch, with one configuration and one set of parameters (the
    two constructors build the same layer), [forward] of [models.py] returns
    and [forward] of [topolayer.py] raises. *)
Theorem topology_layers_diverge :
  (∀ (ext : Extern T) l x edge_index b rf,
     raises (Topolayer.forward ext l x edge_index (Some b) rf))
  ∧ (∀ (ext : Extern T) l x edge_index b rf edge_slices filtered_v_ filtered_e_,
       slices_of b "edge_index" = Ok edge_slices →
       compute_filtration l x = Ok filtered_v_ →
       compute_edge_filtration filtered_v_
         (default (b_edge_index b) edge_index) = Ok filtered_e_ →
       Topolayer.forward ext l x edge_index (Some b) rf
       = Err UnboundLocalError)
  ∧ Models.init ex_params (ex_margs true true false false)
    = Topolayer.init ex_params (ex_args true true false false)
  ∧ Models.forward ex_ext
      (Models.init ex_params (ex_margs true true false false))
      ex_x ex_batch false
    = Ok (T2 1 [[16]; [49]; [66]], Some (T2 8 [[8; 8; 8; 8; 8; 8; 8; 8]]), None)
  ∧ Topolayer.forward ex_ext
      (Topolayer.init ex_params (ex_args true true false false))
      ex_x None (Some ex_batch) false = Err UnboundLocalError
  ∧ Topolayer.forward ex_ext
      (Topolayer.init ex_params (ex_args true true false false))
      ex_x (Some ex_ei) (Some ex_batch) false = Err UnboundLocalError.
Proof.
  split; [|split].
  - intros. apply topolayer_forward_batch_raises.
  - intros ext l x edge_index b rf es fv fe Hes Hfv Hfe.
    unfold Topolayer.forward. rewrite Hes. cbn [mbind res_bind].
    unfold Topolayer.compute_persistence.
    destruct edge_index as [ei|]; simpl in Hfe;
      cbn [of_option mbind res_bind]; rewrite Hfv; cbn [mbind res_bind];
      rewrite Hfe; cbn [mbind res_bind]; by destruct (fake l).
  - split; [reflexivity|]. split; [|split]; vm_compute; reflexivity.
Qed.

End TwoImplementations.

Lemma nondecreasingb_spec (s : list Z) :
  nondecreasingb s = true →
  ∀ i a b, s !! i = Some a → s !! S i = Some b → a <= b.
Proof.
  induction s as [|z s IH]; intros Hnd i a b Ha Hb; [done|].
  destruct s as [|y s]; [by destruct i|].
  change (nondecreasingb (z :: y :: s))
    with ((z <=? y) && nondecreasingb (y :: s)) in Hnd.
  apply andb_true_iff in Hnd as [Hzy Hnd].
  destruct i as [|i]; simpl in Ha, Hb.
  - inversion Ha; inversion Hb; subst. by apply Z.leb_le.
  - by apply (IH Hnd i).
Qed.

Lemma packed_invariantb_true (s : list Z) (total : Z) :
  packed_invariantb s total = true → packed_invariant s total.
Proof.
  intros Hb. apply packed_invariantb_inv in Hb as (s' & -> & Hlast & Hnd).
  split; [reflexivity|]. split; [exact Hlast|].
  by apply nondecreasingb_spec.
Qed.

(** * The layer on concrete inputs *)

(** The scenario of the specification: after the removal the triangle has
    three canonical edges; dim0 has two merges and one survivor of zero
    persistence, dim1 one cycle, at the edge that closes the triangle. *)
Example triangle_scenario :
  (batch ← DataUtils.remove_duplicate_edges ex_batch;
   pp ← Models.compute_persistence ex_ext
          (Models.init ex_params (ex_margs true true false false))
          ex_x batch false;
   Ok (edge_list (b_edge_index batch), p_chan pp.1.1, p_chan pp.1.2))
  = Ok ([(0, 1); (1, 2); (0, 2)],
        [[(0, 2); (2, 4); (4, 4)]; [(0, 2); (2, 4); (4, 4)]],
        [[(0, 0); (0, 0); (4, 4)]; [(0, 0); (0, 0); (4, 4)]]).
Proof. vm_compute. reflexivity. Qed.

(** The slip of [remove_duplicate_edges] on a batch whose last graph has no
    edge: [scatter] is called without [dim_size], and the new slices have
    one entry less than the old ones. *)
Example remove_duplicate_edges_trailing_empty_graph :
  (rh ← Topolayer.remove_duplicate_edges 1%positive ex_heap_trailing;
   b ← of_option AttributeError (Topolayer.load rh.2 rh.1);
   slices_of b "edge_index") = Ok [0; 1].
Proof. vm_compute. reflexivity. Qed.

(** ** Witnesses and counterexamples *)

(** C1 at the triangle, with two filtrations: the edge (0, 1) gets the
    larger of the values of its endpoints. *)
Lemma edge_filtration_is_max_witness :
  ∃ fe, compute_edge_filtration (T2 2 [[0; 5]; [2; 3]; [4; 1]]) ex_ei = Ok fe
        ∧ entry fe 0 0 = Some (Z.max 0 2) ∧ entry fe 0 1 = Some (Z.max 5 3).
Proof.
  eexists. split; [vm_compute; reflexivity|]. split.
  - refine (proj1 (edge_filtration_is_max (T2 2 [[0; 5]; [2; 3]; [4; 1]]) _
                     ex_ei eq_refl) 0%nat 0%nat 0 1 0 2 eq_refl eq_refl _ _
                  eq_refl eq_refl); vm_compute; split; congruence.
  - refine (proj1 (edge_filtration_is_max (T2 2 [[0; 5]; [2; 3]; [4; 1]]) _
                     ex_ei eq_refl) 0%nat 1%nat 0 1 5 3 eq_refl eq_refl _ _
                  eq_refl eq_refl); vm_compute; split; congruence.
Defined.

(** C3 on three edges in two graphs, two filtrations. *)
Lemma collapse_dim1_sums_flagged_edges_witness :
  ∃ collapsed,
    Models.collapse_dim1 (T2 2 [[1; 2]; [3; 4]; [5; 6]])
      (persistence_mask (MkPairs 3 [[(0, 0); (1, 2); (0, 0)];
                                    [(0, 0); (0, 0); (0, 3)]]))
      [0; 2; 3] = Ok collapsed
    ∧ t2_rows collapsed = [[3; 4]; [5; 6]].
Proof.
  destruct (collapse_dim1_sums_flagged_edges
              (T2 2 [[1; 2]; [3; 4]; [5; 6]])
              (MkPairs 3 [[(0, 0); (1, 2); (0, 0)]; [(0, 0); (0, 0); (0, 3)]])
              [0; 2; 3] 2)
    as (collapsed & Hrun & _).
  - reflexivity.
  - lia.
  - repeat constructor; lia.
  - repeat constructor.
  - reflexivity.
  - exists collapsed. split; [exact Hrun|].
    vm_compute in Hrun. by inversion Hrun.
Defined.

(** C5 on the triangle, in the residual mode of both classes. *)
Lemma forward_residual_and_bn_witness :
  ∃ out g filt out' g' filt',
    Models.forward ex_ext_whole
      (Models.init ex_params (ex_margs false true false true))
      ex_x ex_batch false = Ok (out, g, filt)
    ∧ Topolayer.forward ex_ext_whole
        (Topolayer.init ex_params (ex_args false true false true))
        ex_x (Some ex_ei) None false = Ok (out', g', filt')
    ∧ t2_cols out = 1%nat ∧ t2_cols out' = 1%nat.
Proof.
  eexists _, _, _, _, _, _.
  split; [vm_compute; reflexivity|]. split; [vm_compute; reflexivity|].
  pose proof (forward_residual_and_bn ex_ext_whole ex_params
                (ex_margs false true false true)
                (ex_args false true false true)
                ex_x ex_batch (Some ex_ei) None false eq_refl eq_refl)
    as [Hm Ht].
  split.
  - refine (proj1 (Hm _ _ _ _)). vm_compute. reflexivity.
  - refine (proj1 (Ht _ _ _ _)). vm_compute. reflexivity.
Defined.

(** C6 on the triangle: with [dim1] and [dist_dim1] set in the residual
    mode, [forward] raises in both classes. *)
Lemma forward_dist_dim1_raises_witness :
  raises (Models.forward ex_ext
            (Models.init ex_params (ex_margs true true true false))
            ex_x ex_batch false)
  ∧ raises (Topolayer.forward ex_ext_whole
              (Topolayer.init ex_params (ex_args true true true false))
              ex_x (Some ex_ei) None false).
Proof.
  split.
  - exact (proj1 (forward_dist_dim1_raises ex_ext
                    (Models.init ex_params (ex_margs true true true false))
                    ex_x ex_batch None None false eq_refl eq_refl eq_refl)).
  - exact (proj2 (forward_dist_dim1_raises ex_ext_whole
                    (Topolayer.init ex_params (ex_args true true true false))
                    ex_x ex_batch (Some ex_ei) None false
                    eq_refl eq_refl eq_refl)).
Defined.

(** The failing input of C6, evaluated. *)
Example forward_dist_dim1_example :
  Models.forward ex_ext
    (Models.init ex_params (ex_margs true true true false))
    ex_x ex_batch false = Err TypeError
  ∧ Topolayer.forward ex_ext_whole
      (Topolayer.init ex_params (ex_args true true true false))
      ex_x (Some ex_ei) None false = Err RuntimeError.
Proof. split; vm_compute; reflexivity. Qed.

(** C9 on the triangle: the batch at reference 1 reads the same after the
    call, and the clone is another object. *)
Lemma remove_duplicate_edges_frame_witness :
  ∃ r h',
    Topolayer.remove_duplicate_edges 1%positive ex_heap = Ok (r, h')
    ∧ r ≠ 1%positive
    ∧ Topolayer.load h' 1%positive = Topolayer.load ex_heap 1%positive.
Proof.
  assert (Hrun : ∃ r h',
            Topolayer.remove_duplicate_edges 1%positive ex_heap = Ok (r, h'))
    by (eexists _, _; vm_compute; reflexivity).
  destruct Hrun as (r & h' & Hrun). exists r, h'.
  destruct (remove_duplicate_edges_frame ex_heap h' 1%positive r Hrun)
    as (Hne & _ & _ & _ & Hload & _).
  split; [exact Hrun|]. split; [exact Hne|exact Hload].
Defined.



(** C7 on three vertices and two filtrations. *)
Lemma persistence_of_edgeless_graph_witness :
  ∃ p0 p1,
    Engine.compute_persistence_homology_batched_mt
      (MkEngineArgs (T2 3 [[4; 5; 6]; [1; 2; 3]]) (T2 0 [[]; []]) []
                    [0; 3] [0; 0]) = Ok (p0, p1)
    ∧ p_chan p0 = [[(4, 4); (5, 5); (6, 6)]; [(1, 1); (2, 2); (3, 3)]]
    ∧ p_chan p1 = [[]; []].
Proof.
  destruct (proj1 (persistence_of_edgeless_graph
                     (T2 3 [[4; 5; 6]; [1; 2; 3]]) (T2 0 [[]; []])
                     eq_refl eq_refl))
    as (p0 & p1 & Hrun & _).
  exists p0, p1. split; [exact Hrun|].
  vm_compute in Hrun. inversion Hrun. split; reflexivity.
Defined.

(** The two classes on the triangle, with one configuration and one set of
    parameters: [forward] of [models.py] returns while [forward] of
    [topolayer.py] raises when it is given the batch object; given the edge
    index without a batch, and a persistence computation that accepts the
    slices it builds, it returns other dim1 activations (the zero row of
    [collapse_dim1] on a slices array of length one). *)
Example topology_layers_on_triangle :
  Models.init ex_params (ex_margs true true false false)
  = Topolayer.init ex_params (ex_args true true false false)
  ∧ Models.forward ex_ext_whole
      (Models.init ex_params (ex_margs true true false false))
      ex_x ex_batch false
    = Ok (T2 1 [[16]; [49]; [66]], Some (T2 8 [[8; 8; 8; 8; 8; 8; 8; 8]]), None)
  ∧ Topolayer.forward ex_ext_whole
      (Topolayer.init ex_params (ex_args true true false false))
      ex_x None (Some ex_batch) false = Err UnboundLocalError
  ∧ Topolayer.forward ex_ext_whole
      (Topolayer.init ex_params (ex_args true true false false))
      ex_x (Some ex_ei) None false
    = Ok (T2 1 [[16]; [49]; [66]], Some (T2 8 [[0; 0; 0; 0; 0; 0; 0; 0]]), None).
Proof.
  split; [reflexivity|]. split; [|split]; vm_compute; reflexivity.
Qed.

(** * Further properties of the two files *)

(** ** The edge filtration: errors, shape and symmetry *)

Section EdgeFiltrationMore.
Context {T : Type} `{Scalar T}.

Lemma py_getitem_valid {A} (l : list A) (i : Z) :
  valid_index (length l) i → is_ok (py_getitem l i).
Proof.
  unfold valid_index, py_getitem, py_index. intros Hi.
  destruct ((0 <=? i) && (i <? Z.of_nat (length l))) eqn:E1.
  - apply andb_true_iff in E1 as [E1 E2].
    apply Z.leb_le in E1. apply Z.ltb_lt in E2. cbn [mbind res_bind].
    destruct (lookup_lt_is_Some_2 l (Z.to_nat i)) as [a Ha]; [lia|].
    rewrite Ha. by exists a.
  - destruct ((- Z.of_nat (length l) <=? i) && (i <? 0)) eqn:E2.
    + apply andb_true_iff in E2 as [E2 E3]. apply Z.ltb_lt in E3.
      cbn [mbind res_bind].
      destruct (lookup_lt_is_Some_2 l (Z.to_nat (i + Z.of_nat (length l))))
        as [a Ha]; [lia|].
      rewrite Ha. by exists a.
    + exfalso. apply andb_false_iff in E1, E2.
      destruct E1 as [E1|E1], E2 as [E2|E2];
        try apply Z.leb_gt in E1; try apply Z.ltb_ge in E1;
        try apply Z.leb_gt in E2; try apply Z.ltb_ge in E2; lia.
Qed.

Lemma py_getitem_invalid {A} (l : list A) (i : Z) :
  ¬ valid_index (length l) i → py_getitem l i = Err IndexError.
Proof.
  unfold valid_index, py_getitem, py_index. intros Hi.
  destruct ((0 <=? i) && (i <? Z.of_nat (length l))) eqn:E1.
  { apply andb_true_iff in E1 as [E1 E2].
    apply Z.leb_le in E1. apply Z.ltb_lt in E2. lia. }
  destruct ((- Z.of_nat (length l) <=? i) && (i <? 0)) eqn:E2.
  { apply andb_true_iff in E2 as [E2 E3].
    apply Z.leb_le in E2. apply Z.ltb_lt in E3. lia. }
  reflexivity.
Qed.

Lemma index_rows_valid (t : Tensor2 T) (idx : list Z) :
  Forall (valid_index (t2_nrows t)) idx →
  ∃ g, index_rows t idx = Ok g ∧ t2_cols g = t2_cols t
       ∧ t2_nrows g = length idx.
Proof.
  intros Hall. unfold index_rows.
  assert (Hm : ∃ rows, res_mapM (py_getitem (t2_rows t)) idx = Ok rows ∧
                       length rows = length idx).
  { induction Hall as [|u idx Hu Hall IH]; simpl; [eauto|].
    destruct IH as (rows & -> & Hlen).
    destruct (py_getitem_valid _ _ Hu) as [row ->]. cbn [mbind res_bind].
    eexists; split; [reflexivity|]. simpl. by rewrite Hlen. }
  destruct Hm as (rows & -> & Hlen). cbn [mbind res_bind].
  eexists; split; [reflexivity|]. split; [reflexivity|exact Hlen].
Qed.

Lemma index_rows_invalid (t : Tensor2 T) (idx : list Z) :
  ¬ Forall (valid_index (t2_nrows t)) idx →
  index_rows t idx = Err IndexError.
Proof.
  intros Hnot. unfold index_rows.
  assert (Hm : res_mapM (py_getitem (t2_rows t)) idx = Err IndexError).
  { induction idx as [|u idx IH]; [by destruct Hnot|]. simpl.
    destruct (decide (valid_index (t2_nrows t) u)) as [Hu|Hu].
    - destruct (py_getitem_valid _ _ Hu) as [row ->]. cbn [mbind res_bind].
      rewrite IH; [reflexivity|]. intros Hall. apply Hnot. by constructor.
    - by rewrite (py_getitem_invalid _ _ Hu). }
  by rewrite Hm.
Qed.

(** X1. On an edge index whose two rows have one length (the rows of one
    tensor), [compute_edge_filtration] returns exactly when every endpoint is
    an index that the vertex filtration accepts, from [-N] up to [N - 1]; the
    result then has one row per edge and the columns of the vertex
    filtration. An endpoint outside that range raises [IndexError]. *)
Theorem compute_edge_filtration_outcome (filtered_v_ : Tensor2 T)
    (ei : EdgeIndex) :
  (Forall (valid_index (t2_nrows filtered_v_)) (ei_src ei ++ ei_dst ei) →
   length (ei_src ei) = length (ei_dst ei) →
   ∃ filtered_e_, compute_edge_filtration filtered_v_ ei = Ok filtered_e_
                  ∧ t2_nrows filtered_e_ = length (ei_src ei)
                  ∧ t2_cols filtered_e_ = t2_cols filtered_v_)
  ∧ (¬ Forall (valid_index (t2_nrows filtered_v_)) (ei_src ei ++ ei_dst ei) →
     compute_edge_filtration filtered_v_ ei = Err IndexError).
Proof.
  unfold compute_edge_filtration. split.
  - intros [Hs Hd]%Forall_app Hlen.
    destruct (index_rows_valid _ _ Hs) as (a & -> & Hca & Hna).
    destruct (index_rows_valid _ _ Hd) as (b & -> & Hcb & Hnb).
    cbn [mbind res_bind]. unfold stack_max.
    rewrite Hca, Hcb, Hna, Hnb, Hlen, !Nat.eqb_refl. cbn [andb].
    eexists. split; [reflexivity|]. split; [|reflexivity].
    unfold t2_nrows in *. cbn [t2_rows]. rewrite length_zip_with. lia.
  - intros Hnot.
    destruct (decide (Forall (valid_index (t2_nrows filtered_v_)) (ei_src ei)))
      as [Hs|Hs].
    + destruct (index_rows_valid _ _ Hs) as (a & -> & _).
      cbn [mbind res_bind]. rewrite index_rows_invalid; [reflexivity|].
      intros Hd. apply Hnot. by apply Forall_app.
    + by rewrite (index_rows_invalid _ _ Hs).
Qed.

Lemma zip_with_flip {A B} (f : A → A → B) (l k : list A) :
  (∀ a b, f a b = f b a) → zip_with f l k = zip_with f k l.
Proof.
  intros Hf. revert k. induction l as [|a l IH]; intros [|b k]; simpl; try done.
  by rewrite Hf, IH.
Qed.

Lemma index_rows_cols (t g : Tensor2 T) (idx : list Z) :
  index_rows t idx = Ok g → t2_cols g = t2_cols t.
Proof.
  unfold index_rows. intros Hg. bind1 Hg rows Hrows. by inversion Hg.
Qed.

(** X2. When the maximum of two scalars does not depend on their order, an
    edge index and the edge index with its two rows exchanged have the same
    edge filtration (and raise alike): the two directions of an undirected
    edge get one value. *)
Theorem compute_edge_filtration_swap (filtered_v_ : Tensor2 T)
    (src dst : list Z) :
  (∀ a b : T, s_max a b = s_max b a) →
  compute_edge_filtration filtered_v_ (MkEdgeIndex dst src)
  = compute_edge_filtration filtered_v_ (MkEdgeIndex src dst).
Proof.
  intros Hmax. unfold compute_edge_filtration. cbn [ei_src ei_dst].
  destruct (decide (Forall (valid_index (t2_nrows filtered_v_)) src)) as [Hs|Hs];
    destruct (decide (Forall (valid_index (t2_nrows filtered_v_)) dst)) as [Hd|Hd].
  - destruct (index_rows_valid _ _ Hs) as (a & Ha & Hca & _).
    destruct (index_rows_valid _ _ Hd) as (b & Hb & Hcb & _).
    rewrite Ha, Hb. cbn [mbind res_bind]. unfold stack_max.
    rewrite Hca, Hcb, (Nat.eqb_sym (t2_nrows b)).
    rewrite (zip_with_flip (zip_with s_max) (t2_rows b) (t2_rows a));
      [reflexivity|].
    intros r1 r2. by apply zip_with_flip.
  - destruct (index_rows_valid _ _ Hs) as (a & Ha & _).
    rewrite Ha, (index_rows_invalid _ _ Hd). reflexivity.
  - destruct (index_rows_valid _ _ Hd) as (b & Hb & _).
    rewrite Hb, (index_rows_invalid _ _ Hs). reflexivity.
  - rewrite (index_rows_invalid _ _ Hs), (index_rows_invalid _ _ Hd).
    reflexivity.
Qed.

End EdgeFiltrationMore.

(** ** [collapse_dim1]: degenerate offsets, shape and locality *)

Section CollapseMore.
Context {T : Type} `{Scalar T}.

(** X3. [collapse_dim1] of [models.py] has no branch for a degenerate
    offsets array: on offsets of length zero or one the loop makes no turn
    and [torch.stack] of no row raises [RuntimeError]. *)
Theorem models_collapse_dim1_degenerate (activations : Tensor2 T)
    (mask : list bool) (slices : list Z) :
  (length slices ≤ 1)%nat →
  Models.collapse_dim1 activations mask slices = Err RuntimeError.
Proof.
  intros Hlen. unfold Models.collapse_dim1.
  replace (length slices - 1)%nat with 0%nat by lia. reflexivity.
Qed.

Lemma select_Forall {A} (P : A → Prop) (l : list A) (m : list bool) :
  Forall P l → Forall P (select l m).
Proof.
  intros Hl. revert m. induction Hl as [|a l Ha Hl IH]; intros [|b m]; simpl;
    try constructor.
  destruct b; [constructor|]; auto.
Qed.

Lemma py_slice_Forall {A} (P : A → Prop) (l : list A) (lo hi : Z) :
  Forall P l → Forall P (py_slice l lo hi).
Proof. intros Hl. unfold py_slice. by apply Forall_take, Forall_drop. Qed.

Lemma sum_rows_length (cols : nat) (rows : list (list T)) :
  Forall (λ r, length r = cols) rows → length (sum_rows cols rows) = cols.
Proof.
  unfold sum_rows. intros Hrows.
  assert (Hgen : ∀ acc, length acc = cols →
                        length (fold_left row_add rows acc) = cols).
  { induction Hrows as [|r rows Hr Hrows IH]; intros acc Hacc; simpl; [done|].
    apply IH. unfold row_add. rewrite length_zip_with. lia. }
  apply Hgen, repeat_length.
Qed.

Lemma collapse_el_length (activations : Tensor2 T) (mask : list bool)
    (slices : list Z) (el : nat) (row : list T) :
  t2_wf activations →
  collapse_el activations mask slices el = Ok row →
  length row = t2_cols activations.
Proof.
  intros Hwf Hrow. unfold collapse_el in Hrow.
  bind1 Hrow lo Hlo. bind1 Hrow hi Hhi. bind1 Hrow sel Hsel.
  inversion Hrow; subst row; clear Hrow. apply sum_rows_length.
  unfold mask_select in Hsel. destruct (_ =? _)%nat; [|discriminate].
  inversion Hsel; subst sel. by apply select_Forall, py_slice_Forall.
Qed.

(** X4. Whenever [collapse_dim1] of [models.py] returns, its result has one
    row per pair of neighbouring offsets, that is [len(slices) - 1] rows,
    and the columns of the activations; when the activations are
    rectangular so is the result. *)
Theorem models_collapse_dim1_shape (activations collapsed : Tensor2 T)
    (mask : list bool) (slices : list Z) :
  Models.collapse_dim1 activations mask slices = Ok collapsed →
  t2_nrows collapsed = (length slices - 1)%nat
  ∧ (2 ≤ length slices)%nat
  ∧ t2_cols collapsed = t2_cols activations
  ∧ (t2_wf activations → t2_wf collapsed).
Proof.
  unfold Models.collapse_dim1. intros Hc. bind1 Hc rows Hrows.
  pose proof (res_mapM_length _ _ _ Hrows) as Hlen. rewrite length_seq in Hlen.
  destruct rows as [|r rows]; [discriminate|].
  inversion Hc; subst collapsed; clear Hc.
  split; [exact Hlen|]. split; [simpl in Hlen; lia|]. split; [reflexivity|].
  intros Hwf. unfold t2_wf. cbn [t2_rows t2_cols].
  apply Forall_lookup. intros i row Hi.
  destruct (lookup_lt_is_Some_2 (seq 0 (length slices - 1)) i) as [el Hel].
  { rewrite length_seq, <- Hlen. by apply lookup_lt_Some in Hi. }
  destruct (res_mapM_lookup _ _ _ _ _ Hrows Hel) as (row' & Hrow' & Hrun).
  rewrite Hi in Hrow'. inversion Hrow'; subst row'.
  by eapply collapse_el_length.
Qed.

Lemma py_slice_all {A} (l : list A) (d : Z) :
  (length l ≤ Z.to_nat d)%nat → py_slice l 0 d = l.
Proof.
  intros Hd. unfold py_slice.
  replace (py_bound (length l) 0) with 0%nat by (unfold py_bound; simpl; lia).
  destruct (decide (d < 0)) as [Hneg|Hpos].
  - destruct l; [|simpl in Hd; lia]. by rewrite drop_nil, take_nil.
  - rewrite py_bound_nonneg by lia.
    rewrite Nat.sub_0_r, drop_0. apply take_ge. lia.
Qed.

Lemma py_slice_length_le {A} (l : list A) (lo hi : Z) :
  0 <= lo → 0 <= hi →
  (length (py_slice l lo hi) ≤ Z.to_nat (hi - lo))%nat.
Proof.
  intros Hlo Hhi. unfold py_slice.
  rewrite length_take, length_drop, !py_bound_nonneg by done. lia.
Qed.

(** X5. The row of a graph does not depend on the rest of the batch: the
    row that [collapse_dim1] of [models.py] returns for graph [g] is the
    single row it returns for that graph alone, that is for the activations
    and the mask of the graph's own edges with the offsets [[0, hi - lo]]. *)
Theorem models_collapse_dim1_local (activations collapsed : Tensor2 T)
    (mask : list bool) (slices : list Z) (g : nat) (lo hi : Z) :
  slices !! g = Some lo → slices !! S g = Some hi → 0 <= lo → 0 <= hi →
  Models.collapse_dim1 activations mask slices = Ok collapsed →
  ∃ row,
    t2_rows collapsed !! g = Some row
    ∧ Models.collapse_dim1
        (T2 (t2_cols activations) (py_slice (t2_rows activations) lo hi))
        (py_slice mask lo hi) [0; hi - lo]
      = Ok (T2 (t2_cols activations) [row]).
Proof.
  intros Hlo Hhi Hlo0 Hhi0 Hc. unfold Models.collapse_dim1 in Hc.
  bind1 Hc rows Hrows.
  assert (Hg : seq 0 (length slices - 1) !! g = Some g).
  { apply lookup_seq_lt. apply lookup_lt_Some in Hhi. lia. }
  destruct (res_mapM_lookup _ _ _ _ _ Hrows Hg) as (row & Hrow & Hrun).
  destruct rows as [|r rows]; [discriminate|].
  inversion Hc; subst collapsed; clear Hc. exists row. split; [exact Hrow|].
  unfold collapse_el in Hrun. rewrite (py_getitem_nat _ _ _ Hlo) in Hrun.
  cbn [mbind res_bind] in Hrun.
  replace (Z.of_nat g + 1) with (Z.of_nat (S g)) in Hrun by lia.
  rewrite (py_getitem_nat _ _ _ Hhi) in Hrun. cbn [mbind res_bind] in Hrun.
  unfold Models.collapse_dim1. cbn [length Nat.sub seq res_mapM].
  unfold collapse_el at 1. cbn [t2_rows t2_cols].
  change (py_getitem [0; hi - lo] (Z.of_nat 0)) with (Ok (A:=Z) 0).
  change (py_getitem [0; hi - lo] (Z.of_nat 0 + 1)) with (Ok (A:=Z) (hi - lo)).
  cbn [mbind res_bind].
  rewrite !py_slice_all by (by apply py_slice_length_le).
  destruct (mask_select (py_slice (t2_rows activations) lo hi)
                        (py_slice mask lo hi)) as [sel|]; [|discriminate].
  cbn [mbind res_bind] in *. inversion Hrun; subst row. reflexivity.
Qed.

End CollapseMore.

(** ** [remove_duplicate_edges]: invariant, frame, idempotence and errors *)

Lemma select_length_same {A B} (l : list A) (l' : list B) (m : list bool) :
  length l = length l' → length (select l m) = length (select l' m).
Proof.
  revert l' m. induction l as [|a l IH]; intros [|a' l'] m Hlen;
    simpl in Hlen; try lia; [done|].
  destruct m as [|[] m]; simpl; [done|f_equal|]; apply IH; lia.
Qed.

Lemma filter_take_mono {A} (P : A → Prop) `{∀ a, Decision (P a)}
    (l : list A) (k1 k2 : nat) :
  (k1 ≤ k2)%nat →
  (length (filter P (take k1 l)) ≤ length (filter P (take k2 l)))%nat.
Proof.
  intros Hk. replace k2 with (k1 + (k2 - k1))%nat by lia.
  rewrite <- take_take_drop, filter_app, length_app. lia.
Qed.

Lemma consecutive_le (s : list Z) :
  (∀ i a b, s !! i = Some a → s !! S i = Some b → a <= b) →
  ∀ i j a b, (i ≤ j)%nat → s !! i = Some a → s !! j = Some b → a <= b.
Proof.
  intros Hs i j. induction j as [|j IH]; intros a b Hij Ha Hb.
  - replace i with 0%nat in Ha by lia. rewrite Ha in Hb. inversion Hb. lia.
  - destruct (decide (i = S j)) as [->|Hne].
    + rewrite Ha in Hb. inversion Hb. lia.
    + destruct (lookup_lt_is_Some_2 s j) as [c Hc].
      { apply lookup_lt_Some in Hb. lia. }
      specialize (IH a c ltac:(lia) Ha Hc).
      specialize (Hs j c b Hc Hb). lia.
Qed.

Section RemoveDuplicateEdgesMore.
Context {T : Type} `{Scalar T}.

(** X6. [remove_duplicate_edges] keeps the packed-batch invariant: on a
    batch whose edge index has two rows of one length and whose edge slices
    are packed offsets for its edges, the clone has an edge index with two
    rows of one length and edge slices that are packed offsets for the edges
    kept (nondecreasing, from 0 to their number), and no new offset is above
    the old offset at its position. *)
Theorem remove_duplicate_edges_keeps_invariant (h : Topolayer.Heap T)
    (b : positive) (bt : Batch) (es : list Z) :
  Topolayer.load h b = Some bt →
  b_slices bt !! "edge_index" = Some es →
  length (ei_src (b_edge_index bt)) = length (ei_dst (b_edge_index bt)) →
  packed_invariant es (Z.of_nat (length (ei_src (b_edge_index bt)))) →
  ∃ r h' bt' ns,
    Topolayer.remove_duplicate_edges b h = Ok (r, h')
    ∧ Topolayer.load h' r = Some bt'
    ∧ b_slices bt' !! "edge_index" = Some ns
    ∧ length (ei_src (b_edge_index bt')) = length (ei_dst (b_edge_index bt'))
    ∧ packed_invariant ns (Z.of_nat (length (ei_src (b_edge_index bt'))))
    ∧ (∀ g n s, ns !! g = Some n → es !! g = Some s → n <= s).
Proof.
  intros Hl Hes Hlen Hinv.
  destruct (dedup_values_spec _ _ Hlen Hinv)
    as (ei' & ns & Hv & Hedges & Hhead & Hlast & Hle & Hcum & _).
  destruct (remove_duplicate_edges_ok _ _ _ _ _ _ Hl Hes Hv)
    as (r & h' & Hr & Hl').
  assert (Hlen' : length (ei_src ei') = length (ei_dst ei')).
  { unfold dedup_values in Hv. bind1 Hv be Hbe. bind1 Hv ne Hne.
    bind1 Hv src Hsrc. bind1 Hv dst Hdst. inversion Hv; subst; clear Hv.
    unfold mask_select in Hsrc, Hdst.
    destruct (_ =? _)%nat in Hsrc; [|discriminate].
    destruct (_ =? _)%nat in Hdst; [|discriminate].
    inversion Hsrc; inversion Hdst; subst. simpl.
    by apply select_length_same. }
  assert (Hpos : ∀ g s, es !! g = Some s → 0 <= s).
  { destruct Hinv as (Hh & _ & Hnd). intros g s Hs.
    rewrite head_lookup in Hh.
    apply (consecutive_le es Hnd 0 g 0 s); [lia|done|done]. }
  exists r, h', (MkBatch ei' (b_batch bt) (<["edge_index" := ns]> (b_slices bt))), ns.
  split; [done|]. split; [done|]. split; [apply lookup_insert_eq|].
  cbn [b_edge_index]. split; [done|]. split; [split; [done|split]|].
  - rewrite Hlast. do 2 f_equal. unfold edge_list. rewrite length_zip. lia.
  - intros i a c Ha Hc.
    destruct (Hcum _ _ Ha) as (sa & Hsa & ->).
    destruct (Hcum _ _ Hc) as (sc & Hsc & ->).
    destruct Hinv as (_ & _ & Hnd). specialize (Hnd _ _ _ Hsa Hsc).
    apply inj_le, filter_take_mono. lia.
  - intros g n s Hn Hs. destruct (Hcum _ _ Hn) as (s' & Hs' & ->).
    rewrite Hs in Hs'. inversion Hs'; subst s'.
    specialize (Hpos _ _ Hs).
    pose proof (length_filter canonical
                  (take (Z.to_nat s) (edge_list (b_edge_index bt)))) as Hf.
    rewrite length_take in Hf. lia.
Qed.

(** X7. [remove_duplicate_edges] changes nothing but the edges: the clone
    has the node features and the vertex to graph membership of the batch
    given, and its [__slices__] agree with those of the batch on every key
    other than ["edge_index"]. *)
Theorem remove_duplicate_edges_vertex_data (h h' : Topolayer.Heap T)
    (b r : positive) :
  Topolayer.remove_duplicate_edges b h = Ok (r, h') →
  ∃ o o' d d',
    Topolayer.h_objs h !! b = Some o
    ∧ Topolayer.h_dicts h !! Topolayer.o_slices o = Some d
    ∧ Topolayer.h_objs h' !! r = Some o'
    ∧ Topolayer.h_dicts h' !! Topolayer.o_slices o' = Some d'
    ∧ Topolayer.o_x o' = Topolayer.o_x o
    ∧ Topolayer.o_batch o' = Topolayer.o_batch o
    ∧ Topolayer.o_slices o' ≠ Topolayer.o_slices o
    ∧ ∀ key, key ≠ "edge_index"%string → d' !! key = d !! key.
Proof.
  intros Hr.
  apply remove_duplicate_edges_inv in Hr
    as (o & d & es & ei' & ns & Ho & Hd & _ & _ & -> & Hobjs & Hdicts).
  eexists o, _, d, _. split; [done|]. split; [done|].
  split; [by rewrite Hobjs, lookup_insert_eq|]. cbn [Topolayer.o_slices].
  split; [by rewrite Hdicts, lookup_insert_eq|].
  split; [done|]. split; [done|]. split.
  - apply not_eq_sym. by eapply fresh_not_lookup.
  - intros key Hkey. by rewrite lookup_insert_ne.
Qed.

Lemma select_canonical_fix_src (src dst : list Z) :
  select (select src (zip_with Z.leb src dst))
         (zip_with Z.leb (select src (zip_with Z.leb src dst))
                         (select dst (zip_with Z.leb src dst)))
  = select src (zip_with Z.leb src dst).
Proof.
  revert dst. induction src as [|u src IH]; intros [|v dst]; try done.
  simpl. destruct (u <=? v) eqn:E; simpl; [|apply IH].
  rewrite E. f_equal. apply IH.
Qed.

Lemma select_canonical_fix_dst (src dst : list Z) :
  select (select dst (zip_with Z.leb src dst))
         (zip_with Z.leb (select src (zip_with Z.leb src dst))
                         (select dst (zip_with Z.leb src dst)))
  = select dst (zip_with Z.leb src dst).
Proof.
  revert dst. induction src as [|u src IH]; intros [|v dst]; try done.
  simpl. destruct (u <=? v) eqn:E; simpl; [|apply IH].
  rewrite E. f_equal. apply IH.
Qed.

Lemma dedup_values_edges (ei ei' : EdgeIndex) (es ns : list Z) :
  dedup_values ei es = Ok (ei', ns) →
  ei' = MkEdgeIndex (select (ei_src ei) (zip_with Z.leb (ei_src ei) (ei_dst ei)))
                    (select (ei_dst ei) (zip_with Z.leb (ei_src ei) (ei_dst ei))).
Proof.
  unfold dedup_values. intros Hv. bind1 Hv be Hbe. bind1 Hv ne Hne.
  bind1 Hv src Hsrc. bind1 Hv dst Hdst. inversion Hv; subst; clear Hv.
  unfold mask_select in Hsrc, Hdst.
  destruct (_ =? _)%nat in Hsrc; [|discriminate].
  destruct (_ =? _)%nat in Hdst; [|discriminate].
  by inversion Hsrc; inversion Hdst.
Qed.

(** X8. Removing duplicate edges twice keeps the edges of the first
    removal: when [remove_duplicate_edges] is called on the clone that a
    first call returned, and returns, the second clone has the edge index of
    the first. *)
Theorem remove_duplicate_edges_twice (h h1 h2 : Topolayer.Heap T)
    (b r1 r2 : positive) :
  Topolayer.remove_duplicate_edges b h = Ok (r1, h1) →
  Topolayer.remove_duplicate_edges r1 h1 = Ok (r2, h2) →
  ∃ o1 o2,
    Topolayer.h_objs h1 !! r1 = Some o1
    ∧ Topolayer.h_objs h2 !! r2 = Some o2
    ∧ Topolayer.o_edge_index o2 = Topolayer.o_edge_index o1
    ∧ Forall canonical (edge_list (Topolayer.o_edge_index o1)).
Proof.
  intros Hr1 Hr2.
  apply remove_duplicate_edges_inv in Hr1
    as (o & d & es & ei1 & ns1 & Ho & Hd & _ & Hv1 & -> & Hobjs1 & Hdicts1).
  apply remove_duplicate_edges_inv in Hr2
    as (o1 & d1 & es1 & ei2 & ns2 & Ho1 & Hd1 & _ & Hv2 & -> & Hobjs2 & Hdicts2).
  exists o1. eexists. split; [done|].
  split; [by rewrite Hobjs2, lookup_insert_eq|].
  rewrite Hobjs1, lookup_insert_eq in Ho1. inversion Ho1; subst o1; clear Ho1.
  cbn [Topolayer.o_edge_index] in *.
  apply dedup_values_edges in Hv1, Hv2. subst ei1. cbn [ei_src ei_dst] in Hv2.
  rewrite select_canonical_fix_src, select_canonical_fix_dst in Hv2.
  split; [done|]. unfold edge_list. cbn [ei_src ei_dst].
  rewrite zip_select_canonical. apply Forall_forall. intros uv Huv.
  by apply list_elem_of_filter in Huv as [? _].
Qed.

End RemoveDuplicateEdgesMore.

Lemma adjacent_diffs_forallb (s : list Z) :
  forallb (λ r, 0 <=? r) (adjacent_diffs s) = nondecreasingb s.
Proof.
  destruct s as [|a s]; [reflexivity|]. revert a.
  induction s as [|b s IH]; intros a; [reflexivity|].
  change (adjacent_diffs (a :: b :: s)) with ((b - a) :: adjacent_diffs (b :: s)).
  change (nondecreasingb (a :: b :: s)) with ((a <=? b) && nondecreasingb (b :: s)).
  cbn [forallb]. rewrite IH. f_equal.
  destruct (Z.leb_spec 0 (b - a)), (Z.leb_spec a b); lia.
Qed.

Lemma seg_idx_span (es : list Z) :
  nondecreasingb es = true →
  length (seg_idx 0 (adjacent_diffs es)) = offsets_span es.
Proof.
  intros Hnd. rewrite seg_idx_length. unfold offsets_span.
  destruct es as [|a s]; [reflexivity|]. cbn [head].
  rewrite adjacent_diffs_length. cbn [length]. rewrite Nat.sub_succ, Nat.sub_0_r.
  destruct (last (a :: s)) as [b|] eqn:Hlast.
  - rewrite last_lookup in Hlast. cbn [length pred] in Hlast.
    pose proof (edges_before_offsets _ _ _ _ Hnd Hlast). lia.
  - rewrite last_lookup in Hlast. cbn [length pred] in Hlast.
    apply lookup_ge_None in Hlast. simpl in Hlast. lia.
Qed.

Section RemoveDuplicateEdgesErrors.
Context {T : Type} `{Scalar T}.

Lemma remove_duplicate_edges_raise (h : Topolayer.Heap T) (b : positive)
    (bt : Batch) (e : exn) :
  Topolayer.load h b = Some bt →
  (es ← slices_of bt "edge_index"; dedup_values (b_edge_index bt) es) = Err e →
  Topolayer.remove_duplicate_edges b h = Err e.
Proof.
  intros Hl He. apply load_inv in Hl as (o & d & Ho & Hd & ->).
  unfold slices_of in He. cbn [b_slices b_edge_index] in He.
  unfold Topolayer.remove_duplicate_edges, Topolayer.clone.
  rewrite Ho. cbn [of_option mbind res_bind]. rewrite Hd.
  cbn [of_option mbind res_bind]. unfold Topolayer.load at 1.
  cbn [Topolayer.h_objs Topolayer.h_dicts]. rewrite lookup_insert_eq.
  cbn [mbind option_bind Topolayer.o_slices]. rewrite lookup_insert_eq.
  cbn [mbind option_bind of_option res_bind Topolayer.o_edge_index
       Topolayer.o_batch].
  unfold slices_of. cbn [b_slices b_edge_index].
  destruct (d !! "edge_index") as [es|]; cbn [of_option mbind res_bind] in *;
    [|by inversion He].
  unfold dedup_values in He.
  destruct (repeat_interleave _ _) as [be|]; cbn [mbind res_bind] in *;
    [|by inversion He].
  destruct (scatter_sum _ be) as [ne|]; cbn [mbind res_bind] in *; [|by inversion He].
  destruct (mask_select (ei_src _) _) as [src|]; cbn [mbind res_bind] in *;
    [|by inversion He].
  destruct (mask_select (ei_dst _) _) as [dst|]; cbn [mbind res_bind] in *;
    [|by inversion He].
  discriminate He.
Qed.

(** X9. The errors of [remove_duplicate_edges]: a reference to no batch
    raises [AttributeError]; a batch whose [__slices__] has no key
    ["edge_index"] raises [KeyError]; edge slices that decrease somewhere
    raise [RuntimeError] (a negative repeat count); and nondecreasing edge
    slices whose span, the last offset minus the first, is neither the
    number of edges nor one raise [RuntimeError] in [scatter]. *)
Theorem remove_duplicate_edges_errors (h : Topolayer.Heap T) (b : positive) :
  (Topolayer.h_objs h !! b = None →
   Topolayer.remove_duplicate_edges b h = Err AttributeError)
  ∧ (∀ bt, Topolayer.load h b = Some bt →
           b_slices bt !! "edge_index" = None →
           Topolayer.remove_duplicate_edges b h = Err KeyError)
  ∧ (∀ bt es, Topolayer.load h b = Some bt →
              b_slices bt !! "edge_index" = Some es →
              nondecreasingb es = false →
              Topolayer.remove_duplicate_edges b h = Err RuntimeError)
  ∧ (∀ bt es, Topolayer.load h b = Some bt →
              b_slices bt !! "edge_index" = Some es →
              nondecreasingb es = true →
              offsets_span es
              ≠ length (zip (ei_src (b_edge_index bt)) (ei_dst (b_edge_index bt))) →
              offsets_span es ≠ 1%nat →
              Topolayer.remove_duplicate_edges b h = Err RuntimeError).
Proof.
  split; [|split; [|split]].
  - intros Hb. unfold Topolayer.remove_duplicate_edges, Topolayer.clone.
    by rewrite Hb.
  - intros bt Hl Hes. apply (remove_duplicate_edges_raise _ _ _ _ Hl).
    unfold slices_of. by rewrite Hes.
  - intros bt es Hl Hes Hnd. apply (remove_duplicate_edges_raise _ _ _ _ Hl).
    unfold slices_of. rewrite Hes. cbn [of_option mbind res_bind].
    unfold dedup_values. rewrite slice_diffs. unfold repeat_interleave.
    by rewrite adjacent_diffs_forallb, Hnd, andb_false_r.
  - intros bt es Hl Hes Hnd Hspan Hone.
    apply (remove_duplicate_edges_raise _ _ _ _ Hl).
    unfold slices_of. rewrite Hes. cbn [of_option mbind res_bind].
    unfold dedup_values. rewrite slice_diffs. unfold repeat_interleave, arange.
    rewrite length_seq, Nat.eqb_refl, adjacent_diffs_forallb, Hnd.
    cbn [andb]. rewrite seg_idx_interleave. cbn [mbind res_bind].
    pose proof (seg_idx_span es Hnd) as Hidx.
    unfold scatter_sum. rewrite length_map, length_zip_with.
    rewrite length_zip in Hspan.
    destruct (_ =? _)%nat eqn:E.
    { apply Nat.eqb_eq in E. lia. }
    destruct (seg_idx 0 (adjacent_diffs es)) as [|i [|j idx]]; try reflexivity.
    simpl in Hidx. lia.
Qed.

End RemoveDuplicateEdgesErrors.

(** ** Shapes through the filtration and the concatenations *)

Section Shapes.
Context {T : Type} `{Scalar T}.

Lemma linear_forward_rows (l : Linear T) (x y : Tensor2 T) :
  linear_forward l x = Ok y → t2_nrows y = t2_nrows x ∧ t2_wf y.
Proof.
  unfold linear_forward. destruct (_ =? _)%nat; [|discriminate].
  intros Hy. inversion Hy; subst y; clear Hy. unfold t2_nrows, t2_wf.
  cbn [t2_rows t2_cols]. split; [by rewrite length_map|].
  apply Forall_map, Forall_forall. intros row _. simpl.
  by rewrite length_map, length_seq.
Qed.

Lemma t2_map_shape (f : T → T) (t : Tensor2 T) :
  t2_cols (t2_map f t) = t2_cols t ∧ t2_nrows (t2_map f t) = t2_nrows t
  ∧ (t2_wf t → t2_wf (t2_map f t)).
Proof.
  unfold t2_map, t2_nrows, t2_wf. cbn [t2_rows t2_cols].
  split; [done|]. split; [by rewrite length_map|].
  intros Hwf. apply Forall_map. eapply Forall_impl; [exact Hwf|].
  intros r Hr. simpl. by rewrite length_map.
Qed.

Lemma filtnet_forward_shape (n : FiltNet T) (x y : Tensor2 T) :
  filtnet_forward n x = Ok y →
  t2_cols y = out_features (f_lin2 n) ∧ t2_nrows y = t2_nrows x ∧ t2_wf y.
Proof.
  unfold filtnet_forward. intros Hy. bind1 Hy h Hh. bind1 Hy o Ho.
  inversion Hy; subst y; clear Hy.
  apply linear_forward_rows in Hh as [Hhr _].
  pose proof (linear_forward_shape _ _ _ Ho) as [_ Hoc].
  apply linear_forward_rows in Ho as [Hor How].
  destruct (t2_map_shape (s_max s_zero) h) as (_ & Hrel & _).
  unfold relu in Hor. rewrite Hrel, Hhr in Hor.
  destruct (f_tanh n); [|done].
  destruct (t2_map_shape s_tanh o) as (Hc & Hr & Hw).
  rewrite Hc, Hr. split; [done|]. split; [done|]. by apply Hw.
Qed.

Lemma cat2_shape (a b c : Tensor2 T) :
  cat2 a b = Ok c →
  t2_cols c = (t2_cols a + t2_cols b)%nat ∧ t2_nrows c = t2_nrows a
  ∧ t2_nrows b = t2_nrows a ∧ (t2_wf a → t2_wf b → t2_wf c).
Proof.
  unfold cat2. destruct (t2_nrows a =? t2_nrows b)%nat eqn:E; [|discriminate].
  apply Nat.eqb_eq in E. intros Hc. inversion Hc; subst c; clear Hc.
  unfold t2_nrows, t2_wf in *. cbn [t2_rows t2_cols].
  split; [done|]. split; [rewrite length_zip_with; lia|]. split; [done|].
  intros Ha Hb. apply Forall_lookup. intros i r Hr.
  rewrite lookup_zip_with in Hr.
  destruct (t2_rows a !! i) as [ra|] eqn:Hra; [|discriminate]. simpl in Hr.
  destruct (t2_rows b !! i) as [rb|] eqn:Hrb; [|discriminate]. simpl in Hr.
  inversion Hr; subst r. rewrite length_app.
  by rewrite (Forall_lookup_1 _ _ _ _ Ha Hra), (Forall_lookup_1 _ _ _ _ Hb Hrb).
Qed.

Lemma cat_from_shape (ts : list (Tensor2 T)) (acc c : Tensor2 T) :
  cat_from acc ts = Ok c →
  t2_cols c = (t2_cols acc + sum_list (map t2_cols ts))%nat
  ∧ t2_nrows c = t2_nrows acc
  ∧ Forall (λ t, t2_nrows t = t2_nrows acc) ts
  ∧ (t2_wf acc → Forall t2_wf ts → t2_wf c).
Proof.
  revert acc. induction ts as [|t ts IH]; intros acc Hc; simpl in Hc.
  - inversion Hc; subst c. simpl. split; [lia|]. by split.
  - bind1 Hc acc' Hacc'. apply cat2_shape in Hacc' as (Hc1 & Hr1 & Hr2 & Hw1).
    apply IH in Hc as (Hc2 & Hr3 & Hall & Hw2). simpl.
    split; [lia|]. split; [lia|]. split.
    + constructor; [done|]. eapply Forall_impl; [exact Hall|].
      intros u Hu. simpl in Hu. lia.
    + intros Ha Hts. inversion Hts; subst. apply Hw2; [|done]. by apply Hw1.
Qed.

Lemma cat_dim1_shape (ts : list (Tensor2 T)) (c : Tensor2 T) :
  cat_dim1 ts = Ok c →
  t2_cols c = sum_list (map t2_cols ts)
  ∧ Forall (λ t, t2_nrows t = t2_nrows c) ts
  ∧ ts ≠ []
  ∧ (Forall t2_wf ts → t2_wf c).
Proof.
  destruct ts as [|t ts]; [discriminate|]. simpl. intros Hc.
  apply cat_from_shape in Hc as (Hc1 & Hr & Hall & Hw).
  split; [done|]. split.
  - constructor; [done|]. eapply Forall_impl; [exact Hall|].
    intros u Hu. simpl in Hu. lia.
  - split; [done|]. intros Hts. inversion Hts; subst. by apply Hw.
Qed.

Lemma res_mapM_Forall {A B} (f : A → res B) (P : B → Prop) (l : list A)
    (bs : list B) :
  (∀ a b, a ∈ l → f a = Ok b → P b) → res_mapM f l = Ok bs → Forall P bs.
Proof.
  revert bs. induction l as [|a l IH]; intros bs Hf Hm; simpl in Hm.
  - inversion Hm. constructor.
  - bind1 Hm b Hb. bind1 Hm bs' Hbs. inversion Hm; subst bs. constructor.
    + eapply Hf; [constructor|done].
    + apply IH; [|done]. intros a' b' Ha'. apply Hf. by constructor.
Qed.

Lemma sum_list_const (n : nat) (l : list nat) :
  Forall (λ k, k = n) l → sum_list l = (length l * n)%nat.
Proof. induction 1 as [|k l -> Hl IH]; simpl; [done|]. rewrite IH. lia. Qed.

Lemma init_filtration_modules {C} (p : Params T) (a : Args C)
    (total : nat) (mods : list (CoordMod T)) :
  filtration_modules (init_modules p a total mods) =
    if arg_share_filtration_parameters a
    then SharedFilt (mk_filtnet p None (arg_features_in a)
                       (arg_filtration_hidden a) (arg_num_filtrations a)
                       (arg_tanh_filtrations a))
    else ListFilt (map (λ k, mk_filtnet p (Some k) (arg_features_in a)
                               (arg_filtration_hidden a) 1
                               (arg_tanh_filtrations a))
                       (seq 0 (arg_num_filtrations a))).
Proof. unfold init_modules. by destruct (arg_residual_and_bn a). Qed.

Lemma init_filtration_shape {C} (p : Params T) (a : Args C)
    (total : nat) (mods : list (CoordMod T)) (x filtered_v_ : Tensor2 T) :
  compute_filtration (init_modules p a total mods) x = Ok filtered_v_ →
  t2_cols x = arg_features_in a
  ∧ t2_cols filtered_v_ = arg_num_filtrations a
  ∧ t2_nrows filtered_v_ = t2_nrows x
  ∧ t2_wf filtered_v_.
Proof.
  unfold compute_filtration. rewrite init_filtration_modules.
  intros Hfv. destruct (arg_share_filtration_parameters a).
  - pose proof (filtnet_forward_cols _ _ _ Hfv) as Hx.
    apply filtnet_forward_shape in Hfv as (Hc & Hr & Hw). done.
  - bind1 Hfv vs Hvs.
    pose proof (res_mapM_length _ _ _ Hvs) as Hlen.
    rewrite length_map, length_seq in Hlen.
    assert (Hall : Forall (λ t, t2_cols x = arg_features_in a
                                ∧ t2_cols t = 1%nat
                                ∧ t2_nrows t = t2_nrows x ∧ t2_wf t) vs).
    { eapply res_mapM_Forall; [|exact Hvs]. intros n t Hn Ht.
      apply list_elem_of_fmap in Hn as (k & -> & _).
      pose proof (filtnet_forward_cols _ _ _ Ht) as Hx.
      apply filtnet_forward_shape in Ht as (Hc & Hr & Hw). done. }
    apply cat_dim1_shape in Hfv as (Hc & Hrows & Hne & Hw).
    destruct vs as [|v vs]; [done|].
    inversion Hall as [|? ? (Hx & _ & Hvr & _) _]; subst.
    inversion Hrows as [|? ? Hv0 _]; subst.
    split; [done|]. split; [|split; [congruence|]].
    + rewrite Hc, (sum_list_const 1).
      * rewrite length_map. lia.
      * apply Forall_map. eapply Forall_impl; [exact Hall|].
        by intros t (_ & ? & _).
    + apply Hw. eapply Forall_impl; [exact Hall|]. by intros t (_ & _ & _ & ?).
Qed.

(** X10. The vertex filtration of a layer built by [__init__]: when it is
    computed, [x] has [features_in] columns, and the filtration is a
    rectangular tensor with one row per row of [x] and [num_filtrations]
    columns, with shared filtration parameters or not. Without shared
    parameters and with no filtration, [torch.cat] of no tensor raises
    [RuntimeError]. *)
Theorem compute_filtration_shape {C} (p : Params T) (a : Args C)
    (total : nat) (mods : list (CoordMod T)) (x : Tensor2 T) :
  (∀ filtered_v_,
     compute_filtration (init_modules p a total mods) x = Ok filtered_v_ →
     t2_cols x = arg_features_in a
     ∧ t2_cols filtered_v_ = arg_num_filtrations a
     ∧ t2_nrows filtered_v_ = t2_nrows x
     ∧ t2_wf filtered_v_)
  ∧ (arg_share_filtration_parameters a = false → arg_num_filtrations a = 0%nat →
     compute_filtration (init_modules p a total mods) x = Err RuntimeError).
Proof.
  split.
  - intros fv. apply init_filtration_shape.
  - intros Hshare HF. unfold compute_filtration.
    by rewrite init_filtration_modules, Hshare, HF.
Qed.

End Shapes.

(** ** The concatenating mode of [forward] and [return_filtration] *)

Section ConcatMode.
Context {T : Type} `{Scalar T}.

Lemma models_forward_concat_inv (ext : Extern T) (l : Layer T) (x : Tensor2 T)
    (batch : Batch) (rf : bool) o g filt :
  residual_and_bn l = false →
  Models.forward ext l x batch rf = Ok (o, g, filt) →
  ∃ batch' p0 p1 ca cc proj,
    data_utils_remove_duplicate_edges ext batch = Ok batch'
    ∧ Models.compute_persistence ext l x batch' rf = Ok (p0, p1, filt)
    ∧ compute_coord_activations l p0 false = Ok ca
    ∧ cat_dim1 [x; ca] = Ok cc
    ∧ linear_forward (out l) cc = Ok proj
    ∧ o = relu proj.
Proof.
  intros Hres Hf. unfold Models.forward in Hf. rewrite Hres in Hf.
  bind1 Hf batch' Hb. bind1 Hf pp Hp. destruct pp as [[p0 p1] filt'].
  bind1 Hf ca Hca. bind1 Hf g1 Hg1. bind1 Hf cc Hcc. bind1 Hf proj Hproj.
  inversion Hf; subst; clear Hf. by exists batch', p0, p1, ca, cc, proj.
Qed.

Lemma topolayer_forward_concat_inv (ext : Extern T) (l : Layer T)
    (x : Tensor2 T) (edge_index : option EdgeIndex) (batch : option Batch)
    (rf : bool) o g filt :
  residual_and_bn l = false →
  Topolayer.forward ext l x edge_index batch rf = Ok (o, g, filt) →
  ∃ p0 p1 ca cc proj,
    Topolayer.compute_persistence ext l x edge_index batch rf = Ok (p0, p1, filt)
    ∧ compute_coord_activations l p0 false = Ok ca
    ∧ cat_dim1 [x; ca] = Ok cc
    ∧ linear_forward (out l) cc = Ok proj
    ∧ o = relu proj.
Proof.
  intros Hres Hf. unfold Topolayer.forward in Hf. rewrite Hres in Hf.
  bind1 Hf es Hes. bind1 Hf pp Hp. destruct pp as [[p0 p1] filt'].
  bind1 Hf ca Hca. bind1 Hf g1 Hg1. bind1 Hf cc Hcc. bind1 Hf proj Hproj.
  inversion Hf; subst; clear Hf. by exists p0, p1, ca, cc, proj.
Qed.

Lemma init_modules_concat {C} (p : Params T) (a : Args C) total mods :
  arg_residual_and_bn a = false →
  residual_and_bn (init_modules p a total mods) = false
  ∧ out_features (out (init_modules p a total mods)) = arg_features_out a
  ∧ in_features (out (init_modules p a total mods)) =
      (if arg_dist_dim1 a
       then arg_features_in a + 2 * (arg_num_filtrations a * total)
       else arg_features_in a + arg_num_filtrations a * total)%nat
  ∧ coord_fun_modules (init_modules p a total mods) = mods
  ∧ fake (init_modules p a total mods) = arg_fake a.
Proof.
  intros Hres. unfold init_modules. rewrite Hres. cbn.
  by destruct (arg_dist_dim1 a).
Qed.

Lemma concat_output_shape (l : Layer T) (x ca cc proj : Tensor2 T) :
  cat_dim1 [x; ca] = Ok cc → linear_forward (out l) cc = Ok proj →
  t2_cols (relu proj) = out_features (out l)
  ∧ t2_nrows (relu proj) = t2_nrows x
  ∧ t2_wf (relu proj)
  ∧ t2_cols cc = (t2_cols x + t2_cols ca)%nat.
Proof.
  intros Hcc Hproj.
  apply cat_dim1_shape in Hcc as (Hc & Hrows & _ & _).
  inversion Hrows as [|? ? Hx _]; subst.
  pose proof (linear_forward_shape _ _ _ Hproj) as [_ Hpc].
  apply linear_forward_rows in Hproj as [Hpr Hpw].
  destruct (t2_map_shape (s_max s_zero) proj) as (Hc' & Hr' & Hw').
  unfold relu. rewrite Hc', Hr'. split; [done|]. split; [congruence|].
  split; [by apply Hw'|]. simpl in Hc. lia.
Qed.

(** X11. Without [residual_and_bn], every call of [forward] that returns, in
    either file, returns as node embeddings [relu(out(cat(x,
    coord_activations)))]: a rectangular tensor with one row per row of [x]
    and [features_out] columns, none of the batch normalisation or of [x]
    added. *)
Theorem forward_concat_mode (ext : Extern T) (p : Params T)
    (am : Args (list (string * nat))) (ap : Args nat)
    (x : Tensor2 T) (batch : Batch)
    (edge_index : option EdgeIndex) (obatch : option Batch) (rf : bool) :
  arg_residual_and_bn am = false → arg_residual_and_bn ap = false →
  (∀ out_activations g filt,
     Models.forward ext (Models.init p am) x batch rf
       = Ok (out_activations, g, filt) →
     t2_cols out_activations = arg_features_out am
     ∧ t2_nrows out_activations = t2_nrows x
     ∧ t2_wf out_activations
     ∧ ∃ batch' p0 p1 coord_activations concat_activations projected,
         data_utils_remove_duplicate_edges ext batch = Ok batch'
         ∧ Models.compute_persistence ext (Models.init p am) x batch' rf
           = Ok (p0, p1, filt)
         ∧ compute_coord_activations (Models.init p am) p0 false
           = Ok coord_activations
         ∧ cat_dim1 [x; coord_activations] = Ok concat_activations
         ∧ linear_forward (out (Models.init p am)) concat_activations
           = Ok projected
         ∧ out_activations = relu projected)
  ∧ (∀ out_activations g filt,
       Topolayer.forward ext (Topolayer.init p ap) x edge_index obatch rf
         = Ok (out_activations, g, filt) →
       t2_cols out_activations = arg_features_out ap
       ∧ t2_nrows out_activations = t2_nrows x
       ∧ t2_wf out_activations
       ∧ ∃ p0 p1 coord_activations concat_activations projected,
           Topolayer.compute_persistence ext (Topolayer.init p ap) x
             edge_index obatch rf = Ok (p0, p1, filt)
           ∧ compute_coord_activations (Topolayer.init p ap) p0 false
             = Ok coord_activations
           ∧ cat_dim1 [x; coord_activations] = Ok concat_activations
           ∧ linear_forward (out (Topolayer.init p ap)) concat_activations
             = Ok projected
           ∧ out_activations = relu projected).
Proof.
  intros Hm Hp. split.
  - intros o g filt Hf. unfold Models.init in *.
    match type of Hf with
    | Models.forward _ (init_modules _ _ ?t ?m) _ _ _ = _ =>
        destruct (init_modules_concat p am t m Hm) as (Hres & Hout & _)
    end.
    apply (models_forward_concat_inv _ _ _ _ _ _ _ _ Hres) in Hf
      as (b' & p0 & p1 & ca & cc & proj & Hb & Hpers & Hca & Hcc & Hproj & ->).
    destruct (concat_output_shape _ _ _ _ _ Hcc Hproj) as (Hc & Hr & Hw & _).
    rewrite Hout in Hc. split; [done|]. split; [done|]. split; [done|].
    by exists b', p0, p1, ca, cc, proj.
  - intros o g filt Hf. unfold Topolayer.init in *.
    match type of Hf with
    | Topolayer.forward _ (init_modules _ _ ?t ?m) _ _ _ _ = _ =>
        destruct (init_modules_concat p ap t m Hp) as (Hres & Hout & _)
    end.
    apply (topolayer_forward_concat_inv _ _ _ _ _ _ _ _ _ Hres) in Hf
      as (p0 & p1 & ca & cc & proj & Hpers & Hca & Hcc & Hproj & ->).
    destruct (concat_output_shape _ _ _ _ _ Hcc Hproj) as (Hc & Hr & Hw & _).
    rewrite Hout in Hc. split; [done|]. split; [done|]. split; [done|].
    by exists p0, p1, ca, cc, proj.
Qed.

End ConcatMode.

Section ConcatWidth.
Context {T : Type} `{Scalar T}.

Lemma sum_nat_sum_list (l : list nat) : sum_nat l = sum_list l.
Proof.
  unfold sum_nat. assert (Hg : ∀ a, fold_left Nat.add l a = (a + sum_list l)%nat).
  { induction l as [|k l IH]; intros a; simpl; [lia|]. rewrite IH. lia. }
  by rewrite Hg.
Qed.

Lemma coord_modules_cols (p : Params T) (kns : list (string * nat))
    (persistence : list (T * T)) (acts : list (Tensor2 T)) :
  (∀ key n pers t, p_coord p false key n pers = Ok t → t2_cols t = n) →
  res_mapM (λ md : CoordMod T, md persistence)
           (map (λ kn : string * nat, p_coord p false kn.1 kn.2) kns) = Ok acts →
  map t2_cols acts = map snd kns.
Proof.
  intros Hcoord. revert acts.
  induction kns as [|kn kns IH]; intros acts Hm; simpl in Hm.
  - by inversion Hm.
  - bind1 Hm t Ht. bind1 Hm ts Hts. inversion Hm; subst acts. simpl.
    by rewrite (Hcoord _ _ _ _ Ht), (IH _ Hts).
Qed.

(** The dim0 coordinate activations have one block of [total_num_coord_funs]
    columns per filtration, when every coordinate function module returns
    [output_dim] columns. *)
Lemma coord_activations_cols (p : Params T) (l : Layer T)
    (kns : list (string * nat)) (p0 : Pairs T) (ca : Tensor2 T) :
  (∀ key n pers t, p_coord p false key n pers = Ok t → t2_cols t = n) →
  coord_fun_modules l = map (λ kn : string * nat, p_coord p false kn.1 kn.2) kns →
  compute_coord_activations l p0 false = Ok ca →
  t2_cols ca = (length (p_chan p0) * sum_nat (map snd kns))%nat.
Proof.
  intros Hcoord Hmods Hca. unfold compute_coord_activations in Hca.
  bind1 Hca cas Hcas.
  pose proof (res_mapM_length _ _ _ Hcas) as Hlen.
  assert (Hall : Forall (λ t, t2_cols t = sum_nat (map snd kns)) cas).
  { eapply res_mapM_Forall; [|exact Hcas]. intros chan t _ Ht.
    unfold compute_coord_fun in Ht. rewrite Hmods in Ht.
    bind1 Ht acts Hacts. apply cat_dim1_shape in Ht as (Hc & _).
    by rewrite Hc, (coord_modules_cols _ _ _ _ Hcoord Hacts), sum_nat_sum_list. }
  apply cat_dim1_shape in Hca as (Hc & _).
  rewrite Hc, (sum_list_const (sum_nat (map snd kns))).
  - rewrite length_map. congruence.
  - by apply Forall_map.
Qed.

Lemma models_persistence_inv (ext : Extern T) (l : Layer T) (x : Tensor2 T)
    (batch : Batch) (rf : bool) p0 p1 filt :
  fake l = false →
  Models.compute_persistence ext l x batch rf = Ok (p0, p1, filt) →
  ∃ filtered_v_ filtered_e_ vertex_slices edge_slices,
    compute_filtration l x = Ok filtered_v_
    ∧ compute_edge_filtration filtered_v_ (b_edge_index batch) = Ok filtered_e_
    ∧ slices_of batch "x" = Ok vertex_slices
    ∧ slices_of batch "edge_index" = Ok edge_slices
    ∧ compute_persistence_homology_batched_mt ext
        (MkEngineArgs (transpose filtered_v_) (transpose filtered_e_)
           (edge_list (b_edge_index batch)) vertex_slices edge_slices)
      = Ok (p0, p1)
    ∧ filt = if rf then Some (transpose filtered_v_) else None.
Proof.
  intros Hfake Hp. unfold Models.compute_persistence in Hp. rewrite Hfake in Hp.
  bind1 Hp fv Hfv. bind1 Hp fe Hfe. bind1 Hp vs Hvs. bind1 Hp es Hes.
  bind1 Hp pp Hpp. destruct pp as [q0 q1]. inversion Hp; subst; clear Hp.
  by exists fv, fe, vs, es.
Qed.

Lemma topolayer_persistence_inv (ext : Extern T) (l : Layer T) (x : Tensor2 T)
    (edge_index : option EdgeIndex) (batch : option Batch) (rf : bool)
    p0 p1 filt :
  fake l = false →
  Topolayer.compute_persistence ext l x edge_index batch rf = Ok (p0, p1, filt) →
  ∃ ei filtered_v_ filtered_e_,
    batch = None
    ∧ edge_index = Some ei
    ∧ compute_filtration l x = Ok filtered_v_
    ∧ compute_edge_filtration filtered_v_ ei = Ok filtered_e_
    ∧ compute_persistence_homology_batched_mt ext
        (MkEngineArgs (transpose filtered_v_) (transpose filtered_e_)
           (edge_list ei) [Z.of_nat (t2_nrows x)] [Topolayer.ei_shape0 ei])
      = Ok (p0, p1)
    ∧ filt = if rf then Some (transpose filtered_v_) else None.
Proof.
  intros Hfake Hp. unfold Topolayer.compute_persistence in Hp.
  rewrite Hfake in Hp.
  bind1 Hp ei Hei. bind1 Hp fv Hfv. bind1 Hp fe Hfe.
  destruct batch as [b|]; [discriminate Hp|].
  destruct edge_index as [ei'|]; [|discriminate Hei].
  inversion Hei; subst ei'; clear Hei.
  simpl in Hp. bind1 Hp pp Hpp. destruct pp as [q0 q1].
  inversion Hp; subst; clear Hp. by exists ei, fv, fe.
Qed.

Lemma transpose_nrows (t : Tensor2 T) : t2_nrows (transpose t) = t2_cols t.
Proof. unfold transpose, t2_nrows. simpl. by rewrite length_map, length_seq. Qed.

Lemma concat_dist_dim1_width {C} (p : Params T) (a : Args C)
    (kns : list (string * nat)) (x fv ca cc proj : Tensor2 T) (p0 : Pairs T) :
  let l := init_modules p a (sum_nat (map snd kns))
             (map (λ kn : string * nat, p_coord p false kn.1 kn.2) kns) in
  arg_residual_and_bn a = false → arg_dist_dim1 a = true →
  (∀ key n pers t, p_coord p false key n pers = Ok t → t2_cols t = n) →
  compute_filtration l x = Ok fv →
  length (p_chan p0) = t2_cols fv →
  compute_coord_activations l p0 false = Ok ca →
  cat_dim1 [x; ca] = Ok cc →
  linear_forward (out l) cc = Ok proj →
  (arg_num_filtrations a * sum_nat (map snd kns) = 0)%nat.
Proof.
  intros l Hres Hdist Hcoord Hfv Hlen Hca Hcc Hproj.
  destruct (init_modules_concat p a (sum_nat (map snd kns))
              (map (λ kn : string * nat, p_coord p false kn.1 kn.2) kns) Hres)
    as (_ & _ & Hin & Hmods & _).
  rewrite Hdist in Hin.
  destruct (init_filtration_shape p a _ _ x fv Hfv) as (Hx & HF & _).
  pose proof (coord_activations_cols p l kns p0 ca Hcoord Hmods Hca) as Hcac.
  destruct (concat_output_shape _ _ _ _ _ Hcc Hproj) as (_ & _ & _ & Hccc).
  apply linear_forward_shape in Hproj as [Hcin _].
  fold l in Hin. rewrite Hin, Hccc, Hcac, Hlen, HF, Hx in Hcin. lia.
Qed.

End ConcatWidth.

Section ConcatDistDim1.
Context {T : Type} `{Scalar T}.

(** X12. Without [residual_and_bn] and with [dist_dim1] set, [__init__]
    sizes [out] for [features_in + 2 * num_filtrations *
    total_num_coord_funs] input columns, while [forward] concatenates [x]
    with the dim0 coordinate activations only. So with the persistence
    computation returning one dim0 channel per filtration, coordinate
    function modules returning [output_dim] columns and at least one
    coordinate function and filtration, [forward] raises in both files
    (not in fake mode, whose persistence computation is not constrained
    here). *)
Theorem forward_concat_dist_dim1_raises (ext : Extern T) (p : Params T)
    (am : Args (list (string * nat))) (ap : Args nat)
    (x : Tensor2 T) (batch : Batch)
    (edge_index : option EdgeIndex) (obatch : option Batch) (rf : bool) :
  (∀ key n pers t, p_coord p false key n pers = Ok t → t2_cols t = n) →
  (∀ args p0 p1,
     compute_persistence_homology_batched_mt ext args = Ok (p0, p1) →
     length (p_chan p0) = t2_nrows (a_filtered_v args)) →
  arg_residual_and_bn am = false → arg_dist_dim1 am = true →
  arg_fake am = false →
  (0 < arg_num_filtrations am * sum_nat (map snd (arg_num_coord_funs am)))%nat →
  arg_residual_and_bn ap = false → arg_dist_dim1 ap = true →
  arg_fake ap = false →
  (0 < arg_num_filtrations ap * arg_num_coord_funs ap)%nat →
  raises (Models.forward ext (Models.init p am) x batch rf)
  ∧ raises (Topolayer.forward ext (Topolayer.init p ap) x edge_index obatch rf).
Proof.
  intros Hcoord Heng Hmres Hmdist Hmfake Hmpos Hpres Hpdist Hpfake Hppos.
  split; apply raises_iff_not_ok; intros [[o g] filt] Hf.
  - unfold Models.init in Hf.
    set (kns := arg_num_coord_funs am) in *.
    destruct (init_modules_concat p am (sum_nat (map snd kns))
                (map (λ kn : string * nat, p_coord p false kn.1 kn.2) kns) Hmres)
      as (Hres & _ & _ & _ & Hfake).
    rewrite Hmfake in Hfake.
    apply (models_forward_concat_inv _ _ _ _ _ _ _ _ Hres) in Hf
      as (b' & p0 & p1 & ca & cc & proj & _ & Hpers & Hca & Hcc & Hproj & _).
    apply (models_persistence_inv _ _ _ _ _ _ _ _ Hfake) in Hpers
      as (fv & fe & vs & es & Hfv & _ & _ & _ & Hrun & _).
    apply Heng in Hrun. cbn [a_filtered_v] in Hrun.
    rewrite transpose_nrows in Hrun.
    pose proof (concat_dist_dim1_width p am kns x fv ca cc proj p0
                  Hmres Hmdist Hcoord Hfv Hrun Hca Hcc Hproj) as Hzero.
    lia.
  - unfold Topolayer.init in Hf.
    set (kns := map (λ key : string, (key, arg_num_coord_funs ap)) coord_keys)
      in *.
    destruct (init_modules_concat p ap (sum_nat (map snd kns))
                (map (λ kn : string * nat, p_coord p false kn.1 kn.2) kns) Hpres)
      as (Hres & _ & _ & _ & Hfake).
    rewrite Hpfake in Hfake.
    apply (topolayer_forward_concat_inv _ _ _ _ _ _ _ _ _ Hres) in Hf
      as (p0 & p1 & ca & cc & proj & Hpers & Hca & Hcc & Hproj & _).
    apply (topolayer_persistence_inv _ _ _ _ _ _ _ _ _ Hfake) in Hpers
      as (ei & fv & fe & _ & _ & Hfv & _ & Hrun & _).
    apply Heng in Hrun. cbn [a_filtered_v] in Hrun.
    rewrite transpose_nrows in Hrun.
    pose proof (concat_dist_dim1_width p ap kns x fv ca cc proj p0
                  Hpres Hpdist Hcoord Hfv Hrun Hca Hcc Hproj) as Hzero.
    assert (Hsum : sum_nat (map snd kns) = (4 * arg_num_coord_funs ap)%nat).
    { unfold kns, coord_keys, sum_nat. simpl. lia. }
    rewrite Hsum in Hzero. lia.
Qed.

End ConcatDistDim1.

(** ** [return_filtration] and the width of [x] *)

Section ReturnFiltration.
Context {T : Type} `{Scalar T}.

Ltac atomic_scrutinee m :=
  lazymatch m with
  | context [match _ with Ok _ => _ | Err _ => _ end] => fail
  | context [if _ then _ else _] => fail
  | context [match _ with Some _ => _ | None => _ end] => fail
  | context [let '(_, _) := _ in _] => fail
  | _ => idtac
  end.

(* case analysis on every call of a computation, innermost first *)
Ltac res_cases :=
  repeat first
    [ reflexivity
    | match goal with
      | |- context [match ?m with Ok _ => _ | Err _ => _ end] =>
          atomic_scrutinee m; destruct m eqn:?
      | |- context [if ?c then _ else _] =>
          atomic_scrutinee c; destruct c eqn:?
      | |- context [let '(_, _) := ?m in _] =>
          atomic_scrutinee m; destruct m eqn:?
      | |- context [match ?m with Some _ => _ | None => _ end] =>
          atomic_scrutinee m; destruct m eqn:?
      end ].

(** X13. [return_filtration] changes nothing but the third output of
    [forward], in either file: with and without it [forward] raises the same
    error or returns the same node embeddings and dim1 activations. Outside
    fake mode the third output is the transposed vertex filtration (one row
    per filtration) when the flag is set, and [None] when it is not. *)
Theorem forward_return_filtration (ext : Extern T) (l : Layer T)
    (x : Tensor2 T) (batch : Batch)
    (edge_index : option EdgeIndex) (obatch : option Batch) :
  ('(o, g, _) ← Models.forward ext l x batch true; Ok (o, g))
  = ('(o, g, _) ← Models.forward ext l x batch false; Ok (o, g))
  ∧ ('(o, g, _) ← Topolayer.forward ext l x edge_index obatch true; Ok (o, g))
    = ('(o, g, _) ← Topolayer.forward ext l x edge_index obatch false;
       Ok (o, g))
  ∧ (fake l = false →
     ∀ rf o g filt,
       (Models.forward ext l x batch rf = Ok (o, g, filt)
        ∨ Topolayer.forward ext l x edge_index obatch rf = Ok (o, g, filt)) →
       ∃ filtered_v_,
         compute_filtration l x = Ok filtered_v_
         ∧ filt = if rf then Some (transpose filtered_v_) else None).
Proof.
  split; [|split].
  - unfold Models.forward, Models.compute_persistence.
    unfold mbind, res_bind, mret, res_ret, of_option. res_cases.
  - unfold Topolayer.forward, Topolayer.compute_persistence.
    unfold mbind, res_bind, mret, res_ret, of_option. res_cases.
  - intros Hfake rf o g filt [Hf|Hf].
    + apply models_forward_inv in Hf as (b' & p0 & p1 & _ & Hpers & _).
      apply (models_persistence_inv _ _ _ _ _ _ _ _ Hfake) in Hpers
        as (fv & _ & _ & _ & Hfv & _ & _ & _ & _ & Hfilt).
      by exists fv.
    + apply topolayer_forward_inv in Hf as (es & p0 & p1 & Hpers & _).
      apply (topolayer_persistence_inv _ _ _ _ _ _ _ _ _ Hfake) in Hpers
        as (ei & fv & _ & _ & _ & Hfv & _ & _ & Hfilt).
      by exists fv.
Qed.

(** X14. A layer built by [__init__] with [features_in] accepts no other
    width: on an [x] with another number of columns [forward] raises, in
    either file and in every mode. *)
Theorem forward_wrong_features_in (ext : Extern T) (p : Params T)
    (am : Args (list (string * nat))) (ap : Args nat)
    (x : Tensor2 T) (batch : Batch)
    (edge_index : option EdgeIndex) (obatch : option Batch) (rf : bool) :
  t2_cols x ≠ arg_features_in am → t2_cols x ≠ arg_features_in ap →
  raises (Models.forward ext (Models.init p am) x batch rf)
  ∧ raises (Topolayer.forward ext (Topolayer.init p ap) x edge_index obatch rf).
Proof.
  intros Hm Hp. split; apply raises_iff_not_ok; intros [[o g] filt] Hf.
  - apply models_forward_inv in Hf as (b' & p0 & p1 & _ & Hpers & _).
    destruct (models_persistence_filtration _ _ _ _ _ _ Hpers) as [fv Hfv].
    unfold Models.init in Hfv. by apply init_modules_filtration in Hfv.
  - apply topolayer_forward_inv in Hf as (es & p0 & p1 & Hpers & _).
    destruct (topolayer_persistence_filtration _ _ _ _ _ _ _ Hpers) as [fv Hfv].
    unfold Topolayer.init in Hfv. by apply init_modules_filtration in Hfv.
Qed.

End ReturnFiltration.

(** ** The class sizes of [weighted_loss] *)

Section WeightedLoss.

Lemma occurrences_cons (v : Z) (label : list Z) (c : nat) :
  occurrences (v :: label) c =
  (if decide (v = Z.of_nat c) then 1 else 0) + occurrences label c.
Proof.
  unfold occurrences. rewrite filter_cons.
  destruct (decide (v = Z.of_nat c)); simpl; lia.
Qed.

Lemma occurrences_nonneg (label : list Z) (c : nat) : 0 <= occurrences label c.
Proof. unfold occurrences. lia. Qed.

Lemma occurrences_elem_of (label : list Z) (c : nat) :
  occurrences label c ≠ 0 ↔ Z.of_nat c ∈ label.
Proof.
  unfold occurrences. split.
  - intros Hne. destruct (filter _ label) as [|v l] eqn:E; [done|].
    assert (Hv : v ∈ filter (λ v, v = Z.of_nat c) label)
      by (rewrite E; constructor).
    apply list_elem_of_filter in Hv as [-> Hv]. done.
  - intros Hc Hz.
    assert (Hv : Z.of_nat c ∈ filter (λ v, v = Z.of_nat c) label)
      by (by apply list_elem_of_filter).
    destruct (filter _ label); [by apply elem_of_nil in Hv|simpl in Hz; lia].
Qed.

Lemma lookup_repeat {A} (x : A) (n i : nat) :
  repeat x n !! i = if decide (i < n)%nat then Some x else None.
Proof.
  revert i. induction n as [|n IH]; intros i; simpl.
  - by destruct i.
  - destruct i as [|i]; simpl; [done|]. rewrite IH.
    destruct (decide (i < n)%nat), (decide (S i < S n)%nat); done || lia.
Qed.

Lemma bincount_fold (input out : list Z) :
  (∀ v, v ∈ input → 0 <= v) →
  fold_left (λ out v, alter Z.succ (Z.to_nat v) out) input out =
  imap (λ c o, o + occurrences input c) out.
Proof.
  revert out. induction input as [|v input IH]; intros out Hpos; simpl.
  - apply list_eq. intros i. rewrite list_lookup_imap.
    destruct (out !! i); simpl; [|done]. f_equal. unfold occurrences. simpl. lia.
  - rewrite IH by (intros w Hw; apply Hpos; by constructor).
    assert (Hv : 0 <= v) by (apply Hpos; constructor).
    apply list_eq. intros i. rewrite !list_lookup_imap.
    rewrite occurrences_cons.
    destruct (decide (i = Z.to_nat v)) as [->|Hne].
    + rewrite list_lookup_alter_eq. destruct (out !! Z.to_nat v); simpl; [|done].
      f_equal. rewrite decide_True by lia. lia.
    + rewrite list_lookup_alter_ne by done.
      destruct (out !! i); simpl; [|done]. f_equal.
      rewrite decide_False by lia. lia.
Qed.

Lemma bincount_counts (label : list Z) :
  (∀ v, v ∈ label → 0 <= v) →
  bincount label = Ok (map (occurrences label) (seq 0 (bins_of label))).
Proof.
  intros Hpos. unfold bincount.
  assert (Hall : forallb (λ v, 0 <=? v) label = true).
  { apply forallb_forall. intros v Hv. apply Z.leb_le, Hpos.
    by apply list_elem_of_In. }
  rewrite Hall. fold (bins_of label). f_equal.
  rewrite bincount_fold by done.
  apply list_eq. intros i. rewrite list_lookup_imap, list_lookup_fmap.
  destruct (decide (i < bins_of label)%nat) as [Hi|Hi].
  - rewrite lookup_seq_lt by done.
    rewrite lookup_repeat. rewrite decide_True by done. simpl. done.
  - rewrite lookup_seq_ge by lia.
    rewrite lookup_repeat. rewrite decide_False by done. done.
Qed.

Lemma bins_of_elem_of (label : list Z) (v : Z) :
  v ∈ label → (Z.to_nat v < bins_of label)%nat.
Proof.
  intros Hv. destruct label as [|w label]; [by apply elem_of_nil in Hv|].
  unfold bins_of.
  assert (Z.to_nat v ≤ max_list (map Z.to_nat (w :: label)))%nat; [|lia].
  apply max_list_elem_of_le. by apply (list_elem_of_fmap_2 Z.to_nat).
Qed.

Lemma filter_fmap_comm {A B} (f : A → B) (P : B → Prop)
    `{∀ b, Decision (P b)} `{∀ a, Decision (P (f a))} (l : list A) :
  filter P (map f l) = map f (filter (λ a, P (f a)) l).
Proof.
  induction l as [|a l IH]; [done|]. simpl. rewrite !filter_cons.
  do 2 destruct (decide (P (f a))); simpl; by rewrite ?IH.
Qed.

Lemma nonzero_entries_counts (label : list Z) :
  nonzero_entries (map (occurrences label) (seq 0 (bins_of label)))
  = map (occurrences label) (classes_of label).
Proof.
  unfold nonzero_entries, classes_of.
  apply (filter_fmap_comm (occurrences label) (λ c, c ≠ 0)).
Qed.

Lemma sorted_filter_seq (P : nat → Prop) `{∀ c, Decision (P c)} (a n : nat) :
  StronglySorted Z.le (map Z.of_nat (filter P (seq a n))).
Proof.
  revert a. induction n as [|n IH]; intros a; simpl; [constructor|].
  rewrite filter_cons. destruct (decide (P a)); [|apply IH].
  simpl. constructor; [apply IH|].
  apply Forall_forall. intros z Hz.
  apply list_elem_of_fmap in Hz as (c & -> & Hc).
  apply list_elem_of_filter in Hc as [_ Hc]. apply elem_of_seq in Hc. lia.
Qed.

Lemma unique_classes (label : list Z) :
  (∀ v, v ∈ label → 0 <= v) →
  unique label = map Z.of_nat (classes_of label).
Proof.
  intros Hpos. unfold unique.
  apply (Sorted_unique Z.le).
  - apply Sorted_merge_sort, _.
  - apply StronglySorted_Sorted, sorted_filter_seq.
  - rewrite merge_sort_Permutation. apply NoDup_Permutation.
    + apply NoDup_remove_dups.
    + apply (NoDup_fmap_2 Z.of_nat). apply NoDup_filter, NoDup_seq.
    + intros v. rewrite elem_of_remove_dups, list_elem_of_fmap. split.
      * intros Hv. exists (Z.to_nat v). pose proof (Hpos v Hv).
        split; [lia|]. apply list_elem_of_filter. split.
        -- apply occurrences_elem_of. by rewrite Z2Nat.id.
        -- apply elem_of_seq. pose proof (bins_of_elem_of _ _ Hv). lia.
      * intros (c & -> & Hc). apply list_elem_of_filter in Hc as [Hc _].
        by apply occurrences_elem_of.
Qed.

Lemma index_put_values (f : nat → Z) (cs : list nat) :
  match squeeze (map f cs) with
  | Rank0 v => Ok (map (λ _, v) (map Z.of_nat cs))
  | Rank1 l =>
      if (length l =? length (map Z.of_nat cs))%nat then Ok l
      else match l with
           | [v] => Ok (map (λ _, v) (map Z.of_nat cs))
           | _ => Err RuntimeError
           end
  end = Ok (map f cs).
Proof.
  destruct cs as [|c [|c' cs]]; simpl; try done.
  rewrite !length_map, Nat.eqb_refl. done.
Qed.

Lemma index_put_fold (f : nat → Z) (cs : list nat) (dst : list Z) :
  (∀ c, c ∈ cs → (c < length dst)%nat) →
  fold_left (λ acc (iv : Z * Z),
               dst ← acc;
               k ← py_index (length dst) (fst iv);
               Ok (<[k := snd iv]> dst))
            (zip (map Z.of_nat cs) (map f cs)) (Ok dst)
  = Ok (fold_left (λ d c, <[c := f c]> d) cs dst).
Proof.
  revert dst. induction cs as [|c cs IH]; intros dst Hin; simpl; [done|].
  assert (Hc : (c < length dst)%nat) by (apply Hin; constructor).
  unfold py_index at 2.
  assert (Hb : (0 <=? Z.of_nat c) && (Z.of_nat c <? Z.of_nat (length dst)) = true).
  { apply andb_true_iff. split; [apply Z.leb_le|apply Z.ltb_lt]; lia. }
  rewrite Hb. simpl. rewrite Nat2Z.id. apply IH.
  intros c' Hc'. rewrite length_insert. apply Hin. by constructor.
Qed.

Lemma fold_insert_lookup (f : nat → Z) (cs : list nat) (dst : list Z) (i : nat) :
  fold_left (λ d c, <[c := f c]> d) cs dst !! i =
  if decide (i ∈ cs) then (λ _, f i) <$> dst !! i else dst !! i.
Proof.
  revert dst. induction cs as [|c cs IH]; intros dst; simpl.
  - destruct (decide (i ∈ [])) as [Hin|_]; [by apply elem_of_nil in Hin|done].
  - rewrite IH, list_lookup_insert.
    destruct (decide (c = i ∧ (c < length dst)%nat)) as [[-> Hlt]|Hno].
    + destruct (lookup_lt_is_Some_2 dst i Hlt) as [z Hz]. rewrite Hz.
      rewrite (decide_True (P := i ∈ i :: cs)) by constructor.
      by destruct (decide (i ∈ cs)).
    + destruct (decide (i ∈ cs)) as [Hin|Hout].
      * by rewrite (decide_True (P := i ∈ c :: cs)) by (by constructor).
      * destruct (decide (i = c)) as [->|Hne].
        -- rewrite (decide_True (P := c ∈ c :: cs)) by constructor.
           rewrite lookup_ge_None_2; [done|].
           destruct (decide (c < length dst)%nat); [|lia]. by destruct Hno.
        -- rewrite (decide_False (P := i ∈ c :: cs)); [done|].
           intros Hin. apply elem_of_cons in Hin as [?|?]; done.
Qed.

(** X15. The class sizes of [weighted_loss]: when every label is a class,
    [0 <= label < n_classes], [cluster_sizes] holds for every class the
    number of labels that are this class (0 for a class that does not
    occur): the counts of [bincount], stripped of their zeros, land on the
    sorted distinct labels. *)
Theorem weighted_loss_cluster_sizes_counts (n_classes : nat) (label : list Z) :
  (∀ v, v ∈ label → 0 <= v < Z.of_nat n_classes) →
  Net.weighted_loss_cluster_sizes n_classes label =
  Ok (map (occurrences label) (seq 0 n_classes)).
Proof.
  intros Hrange.
  assert (Hpos : ∀ v, v ∈ label → 0 <= v) by (intros v Hv; apply Hrange, Hv).
  unfold Net.weighted_loss_cluster_sizes.
  rewrite bincount_counts by done. cbn [mbind res_bind].
  rewrite nonzero_entries_counts, unique_classes by done.
  unfold index_put. rewrite index_put_values. cbn [mbind res_bind].
  assert (Hcs : ∀ c, c ∈ classes_of label → Z.of_nat c ∈ label).
  { intros c Hc. apply list_elem_of_filter in Hc as [Hc _].
    by apply occurrences_elem_of. }
  rewrite index_put_fold.
  - f_equal. apply list_eq. intros i.
    rewrite fold_insert_lookup, list_lookup_fmap.
    destruct (decide (i < n_classes)%nat) as [Hi|Hi].
    + rewrite lookup_seq_lt by done.
      rewrite lookup_repeat.
      rewrite (decide_True (P := (i < n_classes)%nat)) by done. simpl.
      destruct (decide (i ∈ classes_of label)) as [Hin|Hout]; [done|].
      f_equal. destruct (decide (occurrences label i = 0)) as [->|Hne]; [done|].
      exfalso. apply Hout. apply list_elem_of_filter. split; [done|].
      apply elem_of_seq. apply occurrences_elem_of in Hne.
      pose proof (bins_of_elem_of _ _ Hne). lia.
    + rewrite lookup_seq_ge by lia.
      rewrite lookup_repeat. rewrite (decide_False (P := (i < n_classes)%nat)) by done.
      by destruct (decide _).
  - intros c Hc. rewrite repeat_length.
    pose proof (Hrange _ (Hcs c Hc)). lia.
Qed.

Lemma index_put_fold_err (e : exn) (ivs : list (Z * Z)) :
  fold_left (λ acc (iv : Z * Z),
               dst ← acc;
               k ← py_index (length dst) (fst iv);
               Ok (<[k := snd iv]> dst))
            ivs (Err e) = Err e.
Proof. induction ivs as [|iv ivs IH]; simpl; [done|apply IH]. Qed.

Lemma index_put_fold_out_of_range (f : nat → Z) (cs : list nat) (dst : list Z) :
  (∃ c, c ∈ cs ∧ (length dst ≤ c)%nat) →
  fold_left (λ acc (iv : Z * Z),
               dst ← acc;
               k ← py_index (length dst) (fst iv);
               Ok (<[k := snd iv]> dst))
            (zip (map Z.of_nat cs) (map f cs)) (Ok dst)
  = Err IndexError.
Proof.
  revert dst. induction cs as [|c cs IH]; intros dst (c' & Hc' & Hge).
  - by apply elem_of_nil in Hc'.
  - simpl. unfold py_index at 2.
    destruct (decide (c < length dst)%nat) as [Hlt|Hnlt].
    + assert (Hb : (0 <=? Z.of_nat c) && (Z.of_nat c <? Z.of_nat (length dst))
                   = true).
      { apply andb_true_iff. split; [apply Z.leb_le|apply Z.ltb_lt]; lia. }
      rewrite Hb. simpl. rewrite Nat2Z.id. apply IH. exists c'.
      rewrite length_insert. split; [|done].
      apply elem_of_cons in Hc' as [->|?]; [lia|done].
    + assert (Hb : (0 <=? Z.of_nat c) && (Z.of_nat c <? Z.of_nat (length dst))
                   = false).
      { apply andb_false_iff. right. apply Z.ltb_ge. lia. }
      assert (Hb' : (- Z.of_nat (length dst) <=? Z.of_nat c) && (Z.of_nat c <? 0)
                    = false).
      { apply andb_false_iff. right. apply Z.ltb_ge. lia. }
      rewrite Hb, Hb'. simpl. apply index_put_fold_err.
Qed.

(** X16. The errors of the class sizes of [weighted_loss]: a negative label
    (as the -100 that masks a node elsewhere in the file) makes
    [torch.bincount] raise [RuntimeError]; with no negative label, a label
    that is [n_classes] or more makes the index assignment raise
    [IndexError]. *)
Theorem weighted_loss_cluster_sizes_errors (n_classes : nat) (label : list Z) :
  ((∃ v, v ∈ label ∧ v < 0) →
   Net.weighted_loss_cluster_sizes n_classes label = Err RuntimeError)
  ∧ ((∀ v, v ∈ label → 0 <= v) →
     (∃ v, v ∈ label ∧ Z.of_nat n_classes <= v) →
     Net.weighted_loss_cluster_sizes n_classes label = Err IndexError).
Proof.
  split.
  - intros (v & Hv & Hneg). unfold Net.weighted_loss_cluster_sizes, bincount.
    assert (Hall : forallb (λ v, 0 <=? v) label = false).
    { apply not_true_is_false. intros Hall.
      rewrite forallb_forall in Hall.
      specialize (Hall v (proj1 (list_elem_of_In _ _) Hv)).
      apply Z.leb_le in Hall. lia. }
    by rewrite Hall.
  - intros Hpos (v & Hv & Hge). unfold Net.weighted_loss_cluster_sizes.
    rewrite bincount_counts by done. cbn [mbind res_bind].
    rewrite nonzero_entries_counts, unique_classes by done.
    unfold index_put. rewrite index_put_values. cbn [mbind res_bind].
    apply index_put_fold_out_of_range. exists (Z.to_nat v).
    rewrite repeat_length. split; [|lia].
    apply list_elem_of_filter. split.
    + apply occurrences_elem_of. rewrite Z2Nat.id; [done|]. by apply Hpos.
    + apply elem_of_seq. pose proof (bins_of_elem_of _ _ Hv). lia.
Qed.

End WeightedLoss.

(** ** The layers around the topological layer *)

Section NetProps.
Context {T : Type} `{Scalar T}.

Lemma run_layers_app (m : Net.Modules T) (l1 l2 : list Net.LayerKind)
    (x : Tensor2 T) (data : Batch) :
  Net.run_layers m (l1 ++ l2) x data =
  (x' ← Net.run_layers m l1 x data; Net.run_layers m l2 x' data).
Proof.
  revert x. induction l1 as [|l l1 IH]; intros x; simpl; [done|].
  destruct (Net.apply_layer m l x data); simpl; [apply IH|done].
Qed.

Lemma py_slice_split {A} (l : list A) (pos : Z) :
  py_slice l 0 pos = take (py_bound (length l) pos) l
  ∧ py_slice l pos (Z.of_nat (length l)) = drop (py_bound (length l) pos) l.
Proof.
  unfold py_slice.
  assert (H0 : py_bound (length l) 0 = 0%nat) by (unfold py_bound; simpl; lia).
  assert (Hn : py_bound (length l) (Z.of_nat (length l)) = length l).
  { unfold py_bound. destruct (Z.of_nat (length l) <? 0) eqn:E; [lia|]. lia. }
  rewrite H0, Hn, drop_0, Nat.sub_0_r. split; [done|].
  apply take_ge. rewrite length_drop. lia.
Qed.

(** X17. Every layer of [self.layers] runs exactly once and in its order,
    around the topological layer, for every [togl_position], negative or
    beyond the list included: with a topological layer that returns its
    input and no dim1 activations, and a dropout that hands its input on,
    [LargerTopoGNNModel.forward] returns what [LargerGCNModel.forward]
    returns on the same layers, or raises the same error. *)
Theorem larger_topo_forward_transparent (m : Net.Modules T) (task : Net.Task)
    (layers : list Net.LayerKind) (togl_position : Z) (x : Tensor2 T)
    (data : Batch) (rf : bool) :
  (∀ x', ∃ filtration, Net.topo1 m x' data rf = Ok (x', None, filtration)) →
  (∀ x', Net.dropout m x' = Ok x') →
  (r ← Net.LargerTopoGNNModel_forward m task layers togl_position x data rf; Ok (fst r))
  = Net.LargerGCNModel_forward m task layers x data.
Proof.
  intros Htopo Hdrop. unfold Net.LargerTopoGNNModel_forward, Net.LargerGCNModel_forward.
  destruct (Net.embedding m x) as [x0|e]; cbn [mbind res_bind]; [|done].
  destruct (py_slice_split layers togl_position) as [-> ->].
  rewrite <- (take_drop (py_bound (length layers) togl_position) layers) at 3.
  rewrite run_layers_app.
  destruct (Net.run_layers m (take _ layers) x0 data) as [x1|e];
    cbn [mbind res_bind]; [|done].
  destruct (Htopo x1) as [filt ->]. cbn [mbind res_bind].
  rewrite Hdrop. cbn [mbind res_bind].
  destruct (Net.run_layers m (drop _ layers) x1 data) as [x2|e];
    cbn [mbind res_bind]; [|done].
  destruct (Net.pooling_fun m task x2 (b_batch data)) as [x3|e];
    cbn [mbind res_bind]; [|done].
  destruct (Net.classif m x3) as [x4|e]; cbn [mbind res_bind]; done.
Qed.

Lemma py_bound_all (n : nat) (i : Z) :
  Z.of_nat n <= i → py_bound n i = n.
Proof. unfold py_bound. intros Hi. destruct (i <? 0) eqn:E; lia. Qed.



(** X19. On the node tasks, in a call of [LargerTopoGNNModel.forward] that
    returns, the dim1 activations of the graphs are scattered to the nodes
    with the vertex to graph membership [data.batch], and stand beside the
    node embeddings in the input of the classifier: one row per node, the
    row of the node followed by the row of its graph. Without dim1
    activations the classifier gets the node embeddings, and the filtration
    is returned exactly when [return_filtration] is set. *)
Theorem larger_topo_forward_node_dim1 (m : Net.Modules T) (task : Net.Task)
    (layers : list Net.LayerKind) (togl_position : Z) (x : Tensor2 T)
    (data : Batch) (rf : bool) (y : Tensor2 T)
    (fo : option (option (Tensor2 T))) :
  task ≠ Net.GRAPH_CLASSIFICATION →
  Net.LargerTopoGNNModel_forward m task layers togl_position x data rf = Ok (y, fo) →
  ∃ x_in x_topo x_dim1 filtration x_out,
    Net.topo1 m x_in data rf = Ok (x_topo, x_dim1, filtration)
    ∧ (x_d ← Net.dropout m x_topo;
       Net.run_layers m
         (py_slice layers togl_position (Z.of_nat (length layers))) x_d data)
      = Ok x_out
    ∧ fo = (if rf then Some filtration else None)
    ∧ match x_dim1 with
      | None => Net.classif m x_out = Ok y
      | Some d =>
          ∃ x_pre_class,
            Net.classif m x_pre_class = Ok y
            ∧ t2_cols x_pre_class = (t2_cols x_out + t2_cols d)%nat
            ∧ t2_nrows x_pre_class = length (b_batch data)
            ∧ t2_nrows x_out = length (b_batch data)
            ∧ ∀ i g, b_batch data !! i = Some g →
                ∃ rx rd, t2_rows x_out !! i = Some rx
                         ∧ py_getitem (t2_rows d) g = Ok rd
                         ∧ t2_rows x_pre_class !! i = Some (rx ++ rd)
      end.
Proof.
  intros Htask Hf. unfold Net.LargerTopoGNNModel_forward in Hf.
  bind1 Hf x0 Hx0. bind1 Hf x1 Hx1. bind1 Hf tp Htp.
  destruct tp as [[x2 x_dim1] filtration].
  bind1 Hf x3 Hx3. bind1 Hf x4 Hx4. bind1 Hf x5 Hx5. bind1 Hf pre Hpre.
  bind1 Hf y' Hy. inversion Hf; subst y' fo; clear Hf.
  assert (x5 = x4) as ->.
  { destruct task; simpl in Hx5; [done|by inversion Hx5..]. }
  exists x1, x2, x_dim1, filtration, x4.
  split; [done|]. split; [by rewrite Hx3|]. split; [done|].
  destruct x_dim1 as [d|]; [|by inversion Hpre; subst].
  bind1 Hpre d' Hd'.
  assert (Hidx : index_rows d (b_batch data) = Ok d')
    by (by destruct task).
  clear Hd'. exists pre. split; [done|].
  unfold cat_dim1 in Hpre. simpl in Hpre. bind1 Hpre c Hc.
  inversion Hpre; subst c; clear Hpre.
  pose proof (index_rows_cols _ _ _ Hidx) as Hdc.
  unfold index_rows in Hidx. bind1 Hidx rows Hrows.
  inversion Hidx; subst d'; clear Hidx.
  pose proof (res_mapM_length _ _ _ Hrows) as Hlen.
  unfold cat2 in Hc. cbn [t2_rows t2_cols t2_nrows] in *.
  unfold t2_nrows in Hc. cbn [t2_rows] in Hc.
  destruct (length (t2_rows x4) =? length rows)%nat eqn:E; [|discriminate].
  apply Nat.eqb_eq in E. inversion Hc; subst pre; clear Hc.
  unfold t2_nrows. cbn [t2_rows t2_cols].
  split; [done|]. split; [rewrite length_zip_with; lia|]. split; [lia|].
  intros i g Hg.
  destruct (res_mapM_lookup _ _ _ _ _ Hrows Hg) as (rd & Hrd & Hget).
  destruct (lookup_lt_is_Some_2 (t2_rows x4) i) as [rx Hrx].
  { apply lookup_lt_Some in Hrd. lia. }
  exists rx, rd. split; [done|]. split; [done|].
  by rewrite lookup_zip_with, Hrx, Hrd.
Qed.

End NetProps.

(** ** The further properties on concrete inputs *)

Section EngineChannels.
Context {T : Type} `{Scalar T}.

Lemma engine_channels (a : EngineArgs T) (p0 p1 : Pairs T) :
  Engine.compute_persistence_homology_batched_mt a = Ok (p0, p1) →
  length (p_chan p0) = t2_nrows (a_filtered_v a).
Proof.
  unfold Engine.compute_persistence_homology_batched_mt.
  destruct (Engine.validate a) eqn:Hv; [|discriminate].
  intros Hr. inversion Hr; subst; clear Hr. cbn [p_chan].
  unfold Engine.validate in Hv.
  repeat (apply andb_true_iff in Hv as [Hv ?]).
  match goal with
  | Hr : (t2_nrows _ =? t2_nrows _)%nat = true |- _ => apply Nat.eqb_eq in Hr
  end.
  rewrite length_map, length_zip_with. unfold t2_nrows in *. lia.
Qed.

End EngineChannels.

Lemma compute_edge_filtration_swap_witness :
  (∀ a b : Z, s_max a b = s_max b a)
  ∧ compute_edge_filtration ex_x (MkEdgeIndex [1; 0; 2] [0; 2; 1])
    = compute_edge_filtration ex_x (MkEdgeIndex [0; 2; 1] [1; 0; 2]).
Proof.
  split; [intros a b; simpl; lia|].
  apply compute_edge_filtration_swap. intros a b. simpl. lia.
Defined.

Lemma models_collapse_dim1_degenerate_witness :
  Models.collapse_dim1 (T2 1 [[1]; [2]]) [true; true] [2] = Err RuntimeError.
Proof. apply models_collapse_dim1_degenerate. simpl. lia. Defined.

Lemma models_collapse_dim1_shape_witness :
  ∃ collapsed,
    Models.collapse_dim1 (T2 2 [[1; 2]; [3; 4]; [5; 6]]) [true; false; true]
      [0; 2; 3] = Ok collapsed
    ∧ t2_nrows collapsed = 2%nat ∧ t2_cols collapsed = 2%nat.
Proof.
  eexists. split; [vm_compute; reflexivity|].
  destruct (models_collapse_dim1_shape (T2 2 [[1; 2]; [3; 4]; [5; 6]])
              (T2 2 [[1; 2]; [5; 6]]) [true; false; true] [0; 2; 3])
    as (Hr & _ & Hc & _).
  - vm_compute. reflexivity.
  - split; [exact Hr|exact Hc].
Defined.

Lemma models_collapse_dim1_local_witness :
  ∃ row,
    Models.collapse_dim1 (T2 2 [[5; 6]]) [true] [0; 1] = Ok (T2 2 [row]).
Proof.
  destruct (models_collapse_dim1_local (T2 2 [[1; 2]; [3; 4]; [5; 6]])
              (T2 2 [[1; 2]; [5; 6]]) [true; false; true] [0; 2; 3]
              1 2 3)
    as (row & _ & Hrow).
  - reflexivity.
  - reflexivity.
  - lia.
  - lia.
  - vm_compute. reflexivity.
  - exists row. exact Hrow.
Defined.

Lemma remove_duplicate_edges_keeps_invariant_witness :
  ∃ r h' bt' ns,
    Topolayer.remove_duplicate_edges 1%positive ex_heap = Ok (r, h')
    ∧ Topolayer.load h' r = Some bt'
    ∧ b_slices bt' !! "edge_index" = Some ns
    ∧ packed_invariant ns (Z.of_nat (length (ei_src (b_edge_index bt')))).
Proof.
  destruct (remove_duplicate_edges_keeps_invariant ex_heap 1%positive
              ex_batch [0; 6] eq_refl eq_refl eq_refl
              (packed_invariantb_true [0; 6] 6 eq_refl))
    as (r & h' & bt' & ns & Hrun & Hload & Hns & _ & Hinv & _).
  by exists r, h', bt', ns.
Defined.

Lemma remove_duplicate_edges_vertex_data_witness :
  ∃ r h' o',
    Topolayer.remove_duplicate_edges 1%positive ex_heap = Ok (r, h')
    ∧ Topolayer.h_objs h' !! r = Some o'
    ∧ Topolayer.o_x o' = ex_x.
Proof.
  destruct (Topolayer.remove_duplicate_edges 1%positive ex_heap)
    as [[r h']|e] eqn:Hrun; [|vm_compute in Hrun; discriminate Hrun].
  destruct (remove_duplicate_edges_vertex_data ex_heap h' 1%positive r Hrun)
    as (o & o' & d & d' & Ho & _ & Ho' & _ & Hx & _).
  exists r, h', o'. split; [reflexivity|]. split; [exact Ho'|].
  rewrite Hx. vm_compute in Ho. by inversion Ho.
Defined.

Lemma remove_duplicate_edges_twice_witness :
  ∃ r1 h1 r2 h2 o1 o2,
    Topolayer.remove_duplicate_edges 1%positive ex_heap = Ok (r1, h1)
    ∧ Topolayer.remove_duplicate_edges r1 h1 = Ok (r2, h2)
    ∧ Topolayer.h_objs h1 !! r1 = Some o1
    ∧ Topolayer.h_objs h2 !! r2 = Some o2
    ∧ Topolayer.o_edge_index o2 = Topolayer.o_edge_index o1.
Proof.
  destruct (Topolayer.remove_duplicate_edges 1%positive ex_heap)
    as [[r1 h1]|e] eqn:Hrun1; [|vm_compute in Hrun1; discriminate Hrun1].
  destruct (Topolayer.remove_duplicate_edges r1 h1)
    as [[r2 h2]|e] eqn:Hrun2.
  - destruct (remove_duplicate_edges_twice ex_heap h1 h2 1%positive r1 r2
                Hrun1 Hrun2) as (o1 & o2 & Ho1 & Ho2 & Heq & _).
    by exists r1, h1, r2, h2, o1, o2.
  - exfalso. vm_compute in Hrun1. inversion Hrun1; subst r1 h1.
    vm_compute in Hrun2. discriminate Hrun2.
Defined.

Lemma forward_concat_mode_witness :
  ∃ o g filt o' g' filt',
    Models.forward ex_ext_whole
      (Models.init ex_params (ex_margs false false false false))
      ex_x ex_batch false = Ok (o, g, filt)
    ∧ Topolayer.forward ex_ext_whole
        (Topolayer.init ex_params (ex_args false false false false))
        ex_x (Some ex_ei) None false = Ok (o', g', filt')
    ∧ t2_cols o = 5%nat ∧ t2_cols o' = 5%nat.
Proof.
  eexists _, _, _, _, _, _.
  split; [vm_compute; reflexivity|]. split; [vm_compute; reflexivity|].
  pose proof (forward_concat_mode ex_ext_whole ex_params
                (ex_margs false false false false)
                (ex_args false false false false)
                ex_x ex_batch (Some ex_ei) None false eq_refl eq_refl)
    as [Hm Ht].
  split.
  - refine (proj1 (Hm _ _ _ _)). vm_compute. reflexivity.
  - refine (proj1 (Ht _ _ _ _)). vm_compute. reflexivity.
Defined.

Lemma forward_concat_dist_dim1_raises_witness :
  raises (Models.forward ex_ext
            (Models.init ex_params (ex_margs false false true false))
            ex_x ex_batch false)
  ∧ raises (Topolayer.forward ex_ext
              (Topolayer.init ex_params (ex_args false false true false))
              ex_x (Some ex_ei) None false).
Proof.
  apply forward_concat_dist_dim1_raises.
  - intros key n pers t Ht. simpl in Ht. unfold ex_coord in Ht.
    by inversion Ht.
  - intros args p0 p1. apply engine_channels.
  - reflexivity.
  - reflexivity.
  - reflexivity.
  - vm_compute. lia.
  - reflexivity.
  - reflexivity.
  - reflexivity.
  - vm_compute. lia.
Defined.

Lemma forward_wrong_features_in_witness :
  raises (Models.forward ex_ext
            (Models.init ex_params (ex_margs false true false false))
            (T2 2 [[0; 1]; [1; 2]; [2; 3]]) ex_batch false)
  ∧ raises (Topolayer.forward ex_ext
              (Topolayer.init ex_params (ex_args false true false false))
              (T2 2 [[0; 1]; [1; 2]; [2; 3]]) (Some ex_ei) None false).
Proof. apply forward_wrong_features_in; simpl; lia. Defined.

Lemma weighted_loss_cluster_sizes_counts_witness :
  Net.weighted_loss_cluster_sizes 4 [2; 0; 2; 2; 3] = Ok [1; 0; 3; 1].
Proof.
  rewrite weighted_loss_cluster_sizes_counts; [reflexivity|].
  apply Forall_forall. repeat constructor; lia.
Defined.

Lemma larger_topo_forward_transparent_witness :
  (r ← Net.LargerTopoGNNModel_forward (ex_modules ex_no_topo)
         Net.GRAPH_CLASSIFICATION (Net.init_layers 3 true) (-1)
         ex_x ex_batch false;
   Ok (fst r))
  = Net.LargerGCNModel_forward (ex_modules ex_no_topo)
      Net.GRAPH_CLASSIFICATION (Net.init_layers 3 true) ex_x ex_batch.
Proof.
  apply larger_topo_forward_transparent.
  - intros x'. exists None. reflexivity.
  - intros x'. reflexivity.
Defined.

Lemma larger_topo_forward_node_dim1_witness :
  ∃ y fo,
    Net.LargerTopoGNNModel_forward
      (ex_modules (Models.forward ex_ext_whole
                     (Models.init ex_params (ex_margs true true false false))))
      Net.NODE_CLASSIFICATION (Net.init_layers 2 false) 1
      ex_x ex_batch false = Ok (y, fo)
    ∧ fo = None.
Proof.
  destruct (Net.LargerTopoGNNModel_forward
              (ex_modules (Models.forward ex_ext_whole
                 (Models.init ex_params (ex_margs true true false false))))
              Net.NODE_CLASSIFICATION (Net.init_layers 2 false) 1
              ex_x ex_batch false) as [[y fo]|e] eqn:Hrun;
    [|vm_compute in Hrun; discriminate Hrun].
  exists y, fo. split; [reflexivity|].
  assert (Htask : Net.NODE_CLASSIFICATION ≠ Net.GRAPH_CLASSIFICATION)
    by discriminate.
  destruct (larger_topo_forward_node_dim1 _ _ _ _ _ _ _ _ _ Htask Hrun)
    as (? & ? & ? & ? & ? & _ & _ & Hfo & _).
  exact Hfo.
Defined.
